(** * The redirect-based sign-in flow of [src/login.ts]

    A shallow embedding of the authorization-code login protocol of the
    Azure Account extension: the loopback server's request handler
    ([createServer], [callback], [getQueryProp]), the port acquisition
    ([startServer]), the forced shutdown of a predecessor
    ([createTerminateServer]), the orchestrator ([login]) and the
    URI-handler variant ([loginWithoutLocalServer], [exchangeCodeForToken],
    [parseQuery]).

    Strings are Rocq strings holding the UTF-8 bytes of the JavaScript
    string, which is taken to be free of lone surrogates; every string
    operation the source performs ([split(',')], [replace(/ /g, '+')],
    [===], template concatenation) acts on ASCII delimiters and therefore
    coincides on the two representations.  Time is counted in
    milliseconds; a timer is an event of the event loop that runs once its
    due time has come. *)

From Stdlib Require Import String Ascii NArith List Lia Bool.
From stdpp Require Import base option list strings gmap pretty sorting.

Open Scope string_scope.

(** ** The JavaScript runtime the source relies on *)

Module JS.

(** *** Values that may be [undefined] *)

(** [String(v)] for a value that is a string or [undefined]. *)
Definition toStringOrUndefined (v : option string) : string :=
  match v with
  | Some s => s
  | None => "undefined"
  end.

(** JavaScript truthiness of a string: only the empty string is falsy. *)
Definition truthy (s : string) : bool :=
  match s with
  | EmptyString => false
  | String _ _ => true
  end.

(** [a || b] on strings. *)
Definition or_else (a b : string) : string :=
  if truthy a then a else b.

(** *** [s.replace(/ /g, '+')] *)

Fixpoint replaceSpaces (s : string) : string :=
  match s with
  | EmptyString => EmptyString
  | String c rest =>
      String (if Ascii.eqb c " " then "+"%char else c) (replaceSpaces rest)
  end.

(** *** [s.split(sep)] for a one-character separator *)

(** [splitOn sep s] always returns at least one segment, as
    [String.prototype.split] does for a non-empty separator. *)
Fixpoint splitOn (sep : ascii) (s : string) : list string :=
  match s with
  | EmptyString => [EmptyString]
  | String c rest =>
      if Ascii.eqb c sep then EmptyString :: splitOn sep rest
      else match splitOn sep rest with
           | seg :: segs => String c seg :: segs
           | [] => [String c EmptyString]
           end
  end.

(** [s.includes(c)] for a single character. *)
Fixpoint contains (c : ascii) (s : string) : bool :=
  match s with
  | EmptyString => false
  | String c' rest => Ascii.eqb c' c || contains c rest
  end.

(** *** Percent-encoding *)

Definition isAlpha (c : ascii) : bool :=
  let n := N_of_ascii c in
  ((65 <=? n) && (n <=? 90) || (97 <=? n) && (n <=? 122))%N.

Definition isDigit (c : ascii) : bool :=
  let n := N_of_ascii c in ((48 <=? n) && (n <=? 57))%N.

(** A string of decimal digits only, as matched by [\d*] or [[0-9]*]. *)
Definition allDigits (s : string) : bool :=
  forallb isDigit (list_ascii_of_string s).

(** The characters [encodeURIComponent] leaves alone:
    [A-Z a-z 0-9 - _ . ! ~ * ' ( )]. *)
Definition uriUnescaped (c : ascii) : bool :=
  isAlpha c || isDigit c ||
  existsb (Ascii.eqb c)
    ["-"; "_"; "."; "!"; "~"; "*"; "'"; "("; ")"]%char.

Definition hexDigit (n : N) : ascii :=
  if (n <? 10)%N then ascii_of_N (48 + n) else ascii_of_N (55 + n).

Definition hexValue (c : ascii) : option N :=
  let n := N_of_ascii c in
  if ((48 <=? n) && (n <=? 57))%N then Some (n - 48)%N
  else if ((65 <=? n) && (n <=? 70))%N then Some (n - 55)%N
  else if ((97 <=? n) && (n <=? 102))%N then Some (n - 87)%N
  else None.

(** [%XY] for one octet, upper-case hexadecimal. *)
Definition escapeOctet (c : ascii) (rest : string) : string :=
  let n := N_of_ascii c in
  String "%" (String (hexDigit (n / 16)) (String (hexDigit (n mod 16)) rest)).

(** [encodeURIComponent]: every octet of the UTF-8 form outside the
    unescaped set becomes [%XY]. *)
Fixpoint encodeURIComponent (s : string) : string :=
  match s with
  | EmptyString => EmptyString
  | String c rest =>
      if uriUnescaped c then String c (encodeURIComponent rest)
      else escapeOctet c (encodeURIComponent rest)
  end.

(** What may follow a UTF-8 lead octet: the number of continuation
    octets and the range allowed for the first of them (well-formed
    UTF-8 only: no overlong forms, no surrogates, nothing above
    U+10FFFF). *)
Definition leadInfo (b : N) : option (nat * N * N) :=
  if ((194 <=? b) && (b <=? 223))%N then Some (1%nat, 128%N, 191%N)
  else if (b =? 224)%N then Some (2%nat, 160%N, 191%N)
  else if ((225 <=? b) && (b <=? 236))%N then Some (2%nat, 128%N, 191%N)
  else if (b =? 237)%N then Some (2%nat, 128%N, 159%N)
  else if ((238 <=? b) && (b <=? 239))%N then Some (2%nat, 128%N, 191%N)
  else if (b =? 240)%N then Some (3%nat, 144%N, 191%N)
  else if ((241 <=? b) && (b <=? 243))%N then Some (3%nat, 128%N, 191%N)
  else if (b =? 244)%N then Some (3%nat, 128%N, 143%N)
  else None.

(** [decodeURIComponent], [None] standing for the [URIError] it throws.
    [pending] counts the continuation escapes still owed to the current
    multi-octet character and [lo..hi] is the range of the next one. *)
Fixpoint decodeFrom (pending : nat) (lo hi : N) (s : string)
  : option string :=
  match s with
  | EmptyString =>
      match pending with O => Some EmptyString | S _ => None end
  | String c rest =>
      if Ascii.eqb c "%" then
        match rest with
        | String h1 (String h2 rest') =>
            match hexValue h1, hexValue h2 with
            | Some a, Some b =>
                let o := (16 * a + b)%N in
                match pending with
                | O =>
                    if (o <? 128)%N
                    then String (ascii_of_N o) <$> decodeFrom 0 128 191 rest'
                    else match leadInfo o with
                         | Some (n, lo', hi') =>
                             String (ascii_of_N o) <$> decodeFrom n lo' hi' rest'
                         | None => None
                         end
                | S p =>
                    if ((lo <=? o) && (o <=? hi))%N
                    then String (ascii_of_N o) <$> decodeFrom p 128 191 rest'
                    else None
                end
            | _, _ => None
            end
        | _ => None
        end
      else
        match pending with
        | O => String c <$> decodeFrom 0 128 191 rest
        | S _ => None
        end
  end.

Definition decodeURIComponent (s : string) : option string :=
  decodeFrom 0 128 191 s.

(** Well-formed UTF-8, read with the same automaton over raw octets. *)
Fixpoint utf8From (pending : nat) (lo hi : N) (s : string) : bool :=
  match s with
  | EmptyString => match pending with O => true | S _ => false end
  | String c rest =>
      let o := N_of_ascii c in
      match pending with
      | O =>
          if (o <? 128)%N then utf8From 0 128 191 rest
          else match leadInfo o with
               | Some (n, lo', hi') => utf8From n lo' hi' rest
               | None => false
               end
      | S p =>
          ((lo <=? o) && (o <=? hi))%N && utf8From p 128 191 rest
      end
  end.

Definition wellFormed (s : string) : bool := utf8From 0 128 191 s.

End JS.

(** ** Errors and promises *)

(** The values the flow throws or rejects with. *)
Inductive exn :=
| Error (message : string)        (* [new Error(message)] *)
| TypeError (message : string)    (* raised by the runtime *)
| URIError                        (* raised by [decodeURIComponent] *)
| SystemError (message : string)  (* the error of a server ['error'] event *)
| Reason (text : string).         (* a bare string used as rejection reason *)

(** [err && err.message], the empty string standing for a missing or
    empty message (both are falsy). *)
Definition exnMessage (e : exn) : string :=
  match e with
  | Error m | TypeError m | SystemError m => m
  | URIError => "URI malformed"
  | Reason _ => ""
  end.

(** The result of code that may throw. *)
Inductive result (A : Type) :=
| Ok (a : A)
| Throw (e : exn).
Arguments Ok {A} a.
Arguments Throw {A} e.

(** A promise settles at most once: [resolve] and [reject] act on a
    pending promise only. *)
Inductive promise (A : Type) :=
| Pending
| Fulfilled (v : A)
| Rejected (e : exn).
Arguments Pending {A}.
Arguments Fulfilled {A} v.
Arguments Rejected {A} e.

Definition resolve {A} (v : A) (p : promise A) : promise A :=
  match p with
  | Pending => Fulfilled v
  | _ => p
  end.

Definition reject {A} (e : exn) (p : promise A) : promise A :=
  match p with
  | Pending => Rejected e
  | _ => p
  end.

Definition settled {A} (p : promise A) : bool :=
  match p with
  | Pending => false
  | _ => true
  end.

(** ** The loopback server: [createServer], [callback], [getQueryProp] *)

Module Server.

(** A value of a [ParsedUrlQuery]: a string, or an array of strings for
    a parameter given more than once. *)
Inductive queryValue :=
| Str (s : string)
| Arr (l : list string).

(** [value.toString()]: an array is joined with commas. *)
Definition valueToString (v : queryValue) : string :=
  match v with
  | Str s => s
  | Arr l => String.concat "," l
  end.

(** An incoming request after [url.parse(req.url, true)]: path, parsed
    query, and the [Host] header. *)
Record request := {
  pathname : string;
  query : gmap string queryValue;
  host : option string
}.

(** A response handle. *)
Definition response := nat.

Definition getQueryProp (query : gmap string queryValue) (propName : string)
  : string :=
  match query !! propName with
  | Some (Str value) => value
  | _ => ""
  end.

(** [(state.split(',')[1] || '').replace(/ /g, '+')] *)
Definition stateNonce (state : string) : string :=
  JS.replaceSpaces
    (JS.or_else (default "" (JS.splitOn "," state !! 1%nat)) "").

(** [callback(nonce, reqUrl)], on the query of [reqUrl]: the object the
    server's [url.parse(req.url, true)] always produces, or [None] for a
    URL object without query.  An absent [error] or [code] is the empty
    string, which is equally falsy.  [Throw] is the rejection of the
    returned promise. *)
Definition callback (nonce : string) (reqQuery : option (gmap string queryValue))
  : result string :=
  let '(error, code) :=
    match reqQuery with
    | Some query =>
        let error :=
          JS.or_else (getQueryProp query "error_description")
                     (getQueryProp query "error") in
        let code := getQueryProp query "code" in
        if negb (JS.truthy error) then
          let state := getQueryProp query "state" in
          let receivedNonce := stateNonce state in
          if negb (String.eqb receivedNonce nonce)
          then ("Nonce does not match.", code)
          else (error, code)
        else (error, code)
    | None => ("", "")
    end in
  if negb (JS.truthy error) && JS.truthy code then Ok code
  else Throw (Error (JS.or_else error "No code received.")).

Inductive RedirectResult :=
| RedirectReq (req : request) (res : response)      (* [{ req, res }] *)
| RedirectErr (err : exn) (res : response).         (* [{ err, res }] *)

Inductive CodeResult :=
| CodeOk (code : string) (res : response)           (* [{ code, res }] *)
| CodeErr (err : exn) (res : response).             (* [{ err, res }] *)

(** What the request listener does to its surroundings. *)
Inductive call :=
| ResolveRedirect (r : RedirectResult)
| ResolveCode (r : CodeResult)
| SendFile (res : response) (file contentType : string)
| WriteHead (res : response) (status : N)
| End_ (res : response).

(** The request listener of [createServer(nonce)]: the calls it makes,
    or the exception that escapes it before any call is made. *)
Definition listener (nonce : string) (req : request) (res : response)
  : result (list call) :=
  if String.eqb (pathname req) "/signin" then
    match query req !! "nonce" with
    | None =>
        Throw (TypeError "Cannot read properties of undefined (reading 'toString')")
    | Some v =>
        let receivedNonce :=
          JS.replaceSpaces (JS.or_else (valueToString v) "") in
        if String.eqb receivedNonce nonce
        then Ok [ResolveRedirect (RedirectReq req res)]
        else Ok [ResolveRedirect (RedirectErr (Error "Nonce does not match.") res)]
    end
  else if String.eqb (pathname req) "/" then
    Ok [SendFile res "../codeFlowResult/index.html" "text/html; charset=utf-8"]
  else if String.eqb (pathname req) "/main.css" then
    Ok [SendFile res "../codeFlowResult/main.css" "text/css; charset=utf-8"]
  else if String.eqb (pathname req) "/callback" then
    Ok [ResolveCode
          match callback nonce (Some (query req)) with
          | Ok code => CodeOk code res
          | Throw err => CodeErr err res
          end]
  else
    Ok [WriteHead res 404; End_ res].

(** The session created by [createServer]: the two deferred promises,
    the code timer (its due time while armed) and what was written to
    responses. *)
Record session := {
  redirectPromise : promise RedirectResult;
  codePromise : promise CodeResult;
  codeTimer : option N;
  written : list call
}.

Definition codeTimeout : N := 5 * 60 * 1000.

(** The state right after [createServer], at time [now]. *)
Definition createServer (now : N) : session :=
  {| redirectPromise := Pending;
     codePromise := Pending;
     codeTimer := Some (now + codeTimeout)%N;
     written := [] |}.

(** [codePromise.then(cancelCodeTimer, cancelCodeTimer)] *)
Definition cancelCodeTimer (s : session) : session :=
  if settled (codePromise s)
  then {| redirectPromise := redirectPromise s;
          codePromise := codePromise s;
          codeTimer := None;
          written := written s |}
  else s.

Definition perform (s : session) (c : call) : session :=
  match c with
  | ResolveRedirect r =>
      {| redirectPromise := resolve r (redirectPromise s);
         codePromise := codePromise s;
         codeTimer := codeTimer s;
         written := written s |}
  | ResolveCode r =>
      cancelCodeTimer
        {| redirectPromise := redirectPromise s;
           codePromise := resolve r (codePromise s);
           codeTimer := codeTimer s;
           written := written s |}
  | _ =>
      {| redirectPromise := redirectPromise s;
         codePromise := codePromise s;
         codeTimer := codeTimer s;
         written := written s ++ [c] |}
  end.

(** The code timer fires once its due time has come. *)
Definition advance (now : N) (s : session) : session :=
  match codeTimer s with
  | Some due =>
      if (due <=? now)%N then
        {| redirectPromise := redirectPromise s;
           codePromise := reject (Error "Timeout waiting for code") (codePromise s);
           codeTimer := None;
           written := written s |}
      else s
  | None => s
  end.

(** One request arriving at time [now].  An exception escaping the
    listener leaves the session as it was. *)
Definition serve (nonce : string) (s : session)
    (now : N) (req : request) (res : response) : session :=
  let s := advance now s in
  match listener nonce req res with
  | Ok calls => foldl perform s calls
  | Throw _ => s
  end.

End Server.

(** ** Port acquisition: [startServer] *)

Module Port.

Definition portADFS : N := 19472.

(** What [server.address()] returns. *)
Inductive address :=
| AddressInfo (port : N)
| AddressString (path : string)
| AddressNull.

(** The server events [startServer] listens to. *)
Inductive event :=
| Listening (a : address)
| ErrorEvent (err : exn)
| Close.

(** The promise [port] and the timer guarding it (its due time while
    armed). *)
Record state := {
  port : promise N;
  portTimer : option N
}.

Definition portTimeout : N := 5000.

(** The port [server.listen] is asked for. *)
Definition listenPort (adfs : bool) : N := if adfs then portADFS else 0%N.

(** The state when [startServer] has run its promise executor at time
    [now]: timer armed, handlers registered, [listen] called. *)
Definition init (now : N) : state :=
  {| port := Pending; portTimer := Some (now + portTimeout)%N |}.

(** [port.then(cancelPortTimer, cancelPortTimer)] *)
Definition cancelPortTimer (s : state) : state :=
  if settled (port s) then {| port := port s; portTimer := None |} else s.

(** The handler of each event. *)
Definition handle (ev : event) (s : state) : state :=
  cancelPortTimer
    match ev with
    | Listening (AddressInfo p) =>
        {| port := resolve p (port s); portTimer := portTimer s |}
    | Listening _ => s
    | ErrorEvent err =>
        {| port := reject err (port s); portTimer := portTimer s |}
    | Close =>
        {| port := reject (Error "Closed") (port s); portTimer := portTimer s |}
    end.

(** The timer callback runs once its due time has come; at the due time
    itself it runs before an event delivered at that time. *)
Definition advance (now : N) (s : state) : state :=
  match portTimer s with
  | Some due =>
      if (due <=? now)%N then
        {| port := reject (Error "Timeout waiting for port") (port s);
           portTimer := None |}
      else s
  | None => s
  end.

(** Events are delivered in order, each at its time. *)
Fixpoint run (evs : list (N * event)) (s : state) : state :=
  match evs with
  | [] => s
  | (t, ev) :: rest => run rest (handle ev (advance t s))
  end.

(** A timer still armed when no event is left fires in the end. *)
Definition expire (s : state) : state :=
  match portTimer s with
  | Some due => advance due s
  | None => s
  end.

(** What [await startServer(server, adfs)] yields when called at time
    [now] and the server then emits [evs]. *)
Definition startServer (now : N) (evs : list (N * event)) : promise N :=
  port (expire (run evs (init now))).

(** An event that settles a pending [port]. *)
Definition settles (ev : event) : bool :=
  match ev with
  | Listening (AddressInfo _) => true
  | Listening _ => false
  | ErrorEvent _ | Close => true
  end.

(** What a settling event does to a pending promise. *)
Definition verdict (ev : event) : promise N :=
  match ev with
  | Listening (AddressInfo p) => Fulfilled p
  | Listening _ => Pending
  | ErrorEvent err => Rejected err
  | Close => Rejected (Error "Closed")
  end.

(** The first settling event delivered before [due]. *)
Fixpoint firstBefore (due : N) (evs : list (N * event)) : option event :=
  match evs with
  | [] => None
  | (t, ev) :: rest =>
      if (due <=? t)%N then None
      else if settles ev then Some ev
      else firstBefore due rest
  end.

End Port.

(** ** Forced shutdown of a predecessor: [createTerminateServer] *)

Module Terminate.

(** A socket, named by the connection it stands for. *)
Definition socket := nat.

Inductive action :=
| ServerClose            (* [server.close(resolve)] *)
| Destroy (s : socket).  (* [socket.destroy()] *)

(** The closure state of [createTerminateServer]: the registry, the
    counter, and the promise returned by the last terminate call. *)
Record state := {
  sockets : gmap nat socket;
  socketCount : nat;
  result : option (promise unit);
  performed : list action
}.

Definition createTerminateServer : state :=
  {| sockets := ∅; socketCount := 0; result := None; performed := [] |}.

Inductive event :=
| Connection (s : socket)   (* the server's ['connection'] event *)
| SocketClose (id : nat)    (* the ['close'] event of the socket tracked as [id] *)
| Terminate                 (* a call of the returned function *)
| CloseCallback.            (* the callback given to [server.close] *)

#[global] Instance event_eq_dec : EqDecision event.
Proof. solve_decision. Defined.

(** [for (const id in sockets)]: integer keys in ascending order. *)
Definition byId (a b : nat * socket) : Prop := (a.1 <= b.1)%nat.

#[global] Instance byId_dec (a b : nat * socket) : Decision (byId a b).
Proof. unfold byId. apply _. Defined.

Definition tracked (m : gmap nat socket) : list (nat * socket) :=
  merge_sort byId (map_to_list m).

Definition step (st : state) (ev : event) : state :=
  match ev with
  | Connection s =>
      {| sockets := <[socketCount st := s]> (sockets st);
         socketCount := S (socketCount st);
         result := result st;
         performed := performed st |}
  | SocketClose id =>
      {| sockets := delete id (sockets st);
         socketCount := socketCount st;
         result := result st;
         performed := performed st |}
  | Terminate =>
      {| sockets := sockets st;
         socketCount := socketCount st;
         result := Some Pending;
         performed :=
           performed st ++ ServerClose :: map (λ kv, Destroy kv.2) (tracked (sockets st)) |}
  | CloseCallback =>
      {| sockets := sockets st;
         socketCount := socketCount st;
         result := resolve () <$> result st;
         performed := performed st |}
  end.

Definition run (st : state) (evs : list event) : state := foldl step st evs.

End Terminate.

(** ** The orchestrator: [login], [loginWithoutLocalServer],
       [exchangeCodeForToken] *)

Module Flow.

Definition redirectUrlAAD : string := "https://vscode-redirect.azurewebsites.net/".

Definition redirectUrlADFS : string :=
  "http://127.0.0.1:" ++ pretty Port.portADFS ++ "/callback".

(** The two fields of [Environment] the flow reads. *)
Record Environment := {
  activeDirectoryEndpointUrl : string;
  activeDirectoryResourceId : string
}.

(** The token response is opaque to the flow. *)
Definition TokenResponse := string.

(** The fields of a [vscode.Uri] the flow reads. *)
Record Uri := {
  scheme : string;
  authority : string;
  uriQuery : string
}.

(** *** Numbers read from text *)

Definition decimalValue (digits : string) : N :=
  fold_left (λ acc c, (10 * acc + (N_of_ascii c - 48))%N)
            (list_ascii_of_string digits) 0%N.

Definition maxSafeInteger : N := 2 ^ 53 - 1.

(** [parseInt(digits, 10)] on a string of decimal digits.  Above
    [Number.MAX_SAFE_INTEGER] the runtime rounds to a double; that range
    is left out ([None]). *)
Definition parseInt10 (digits : string) : option N :=
  let v := decimalValue digits in
  if (v <=? maxSafeInteger)%N then Some v else None.

(** The first group of [/^[^:]+:(\d+)$/.exec(host)]: at the first
    colon, a non-empty prefix must have been read and only digits, at
    least one, may follow up to the end. *)
Fixpoint hostPortGroup (seen : bool) (host : string) : option string :=
  match host with
  | EmptyString => None
  | String c rest =>
      if Ascii.eqb c ":" then
        if seen && JS.truthy rest && JS.allDigits rest
        then Some rest else None
      else hostPortGroup true rest
  end.

(** The first group of the match of [authority] against a colon
    followed by digits, possibly none, up to the end: the text after the
    leftmost such colon. *)
Fixpoint authorityPortGroup (authority : string) : option string :=
  match authority with
  | EmptyString => None
  | String c rest =>
      if Ascii.eqb c ":" && JS.allDigits rest
      then Some rest
      else authorityPortGroup rest
  end.

(** [s.endsWith(suffix)] *)
Definition endsWith (s suffix : string) : bool :=
  let n := String.length s in
  let k := String.length suffix in
  (k <=? n)%nat && String.eqb (substring (n - k) k s) suffix.

Definition getCallbackEnvironment (callbackUri : Uri) : string :=
  let a := authority callbackUri in
  if endsWith a ".workspaces.github.com" || endsWith a ".github.dev"
  then a ++ ","
  else if String.eqb a "online.visualstudio.com" then "vso,"
  else if String.eqb a "online-ppe.core.vsengsaas.visualstudio.com" then "vsoppe,"
  else if String.eqb a "online.dev.core.vsengsaas.visualstudio.com" then "vsodev,"
  else if String.eqb a "canary.online.visualstudio.com" then "vsocanary,"
  else "".

(** *** The URI-handler variant *)

(** [parseQuery(uri)]: the value of a key is what stands between its
    first and second [=], and [undefined] ([None]) without any [=].  The
    map holds the own properties of the object the reduction fills.  An
    assignment to [__proto__] runs the setter of [Object.prototype], which
    ignores a string and [undefined]: it stores nothing.  Every other
    assignment makes or overwrites an own property. *)
Definition parseQuery (uriQuery : string) : gmap string (option string) :=
  foldl (λ prev current,
           let queryString := JS.splitOn "=" current in
           let key := default "" (queryString !! 0%nat) in
           if String.eqb key "__proto__" then prev
           else <[key := queryString !! 1%nat]> prev)
        ∅ (JS.splitOn "&" uriQuery).

(** The two properties the listener reads from the parsed query. *)
Inductive queryField := Code | State.

Definition fieldName (field : queryField) : string :=
  match field with
  | Code => "code"
  | State => "state"
  end.

(** [query.code], [query.state]: the own property, and [undefined]
    without one, since [Object.prototype] has no member of either
    name. *)
Definition prop (query : gmap string (option string)) (field : queryField)
  : option string :=
  mjoin (query !! fieldName field).

(** The state check of [exchangeCodeForToken]:
    [query.state !== state && decodeURIComponent(query.state) !== state]
    throws. *)
Definition checkState (queryState : option string) (state : string)
  : result unit :=
  if bool_decide (queryState = Some state) then Ok ()
  else match JS.decodeURIComponent (JS.toStringOrUndefined queryState) with
       | None => Throw URIError
       | Some decoded =>
           if String.eqb decoded state then Ok ()
           else Throw (Error "State does not match.")
       end.

(** The listener [exchangeCodeForToken] registers, run on one URI to the
    end of the exchange it awaits: [Ok] is what it resolves the promise
    with, [Throw] what it rejects it with.  [token] is the outcome of
    [tokenWithAuthorizationCode] for the received code. *)
Definition onUri (state : string) (token : option string → result TokenResponse)
    (uriQuery : string) : result TokenResponse :=
  let query := parseQuery uriQuery in
  let code := prop query Code in
  match checkState (prop query State) state with
  | Throw err => Throw err
  | Ok _ => token code
  end.

Definition loginTimeout : N := 1000 * 60 * 5.

(** An exchange under way ends at [due] with [r]; of several, the one
    that ends first settles the promise, so only that one is kept. *)
Definition finished (t : N) (inflight : option (N * result TokenResponse)) : bool :=
  match inflight with
  | Some (due, _) => (due <=? t)%N
  | None => false
  end.

Definition soonest (inflight : option (N * result TokenResponse))
    (started : N * result TokenResponse) : option (N * result TokenResponse) :=
  match inflight with
  | Some (due, r) => if (due <=? started.1)%N then Some (due, r) else Some started
  | None => Some started
  end.

(** The listener stays registered until the promise settles.  The URIs
    come in the order and at the times the handler fires.  A URI that
    arrives once an exchange has ended finds the listener disposed.  One
    whose state check throws rejects the promise at once.  One that
    passes starts an exchange, which lasts [delay t code] when started at
    [t], and the listener goes on taking URIs meanwhile. *)
Fixpoint exchangeRun (state : string)
    (token : option string → result TokenResponse) (delay : N → option string → N)
    (inflight : option (N * result TokenResponse))
    (uris : list (N * string)) : option (N * result TokenResponse) :=
  match uris with
  | [] => inflight
  | (t, uriQuery) :: rest =>
      if finished t inflight then inflight
      else
        let query := parseQuery uriQuery in
        let code := prop query Code in
        match checkState (prop query State) state with
        | Throw err => Some (t, Throw err)
        | Ok _ =>
            exchangeRun state token delay
              (soonest inflight ((t + delay t code)%N, token code)) rest
        end
  end.

(** [exchangeCodeForToken]: when the promise settles and how; it stays
    pending ([None]) when no URI comes. *)
Definition exchangeCodeForToken (state : string)
    (token : option string → result TokenResponse) (delay : N → option string → N)
    (uris : list (N * string)) : option (N * result TokenResponse) :=
  exchangeRun state token delay None uris.

(** [Promise.race] of that promise and the login timeout: the timer
    races the whole exchange, up to the time the promise settles. *)
Definition raceTimeout (exchange : option (N * result TokenResponse))
  : result TokenResponse :=
  match exchange with
  | Some (t, r) =>
      if (loginTimeout <=? t)%N then Throw (Reason "Login timed out.") else r
  | None => Throw (Reason "Login timed out.")
  end.

(** The [state] built by [loginWithoutLocalServer]. *)
Definition externalState (callbackUri : Uri) (nonce : string) : string :=
  let port :=
    JS.or_else (default "" (authorityPortGroup (authority callbackUri)))
               (if String.eqb (scheme callbackUri) "https" then "443" else "80") in
  getCallbackEnvironment callbackUri ++ port ++ ","
    ++ JS.encodeURIComponent nonce ++ ","
    ++ JS.encodeURIComponent (uriQuery callbackUri).

(** [signInUrl] up to and including [oauth2/authorize]. *)
Definition authorizeEndpoint (environment : Environment) (adfs : bool)
    (tenantId : string) : string :=
  activeDirectoryEndpointUrl environment
    ++ (if adfs then "" else tenantId ++ "/") ++ "oauth2/authorize".

(** The query [loginWithoutLocalServer] gives to [uri.with]. *)
Definition externalQuery (clientId : string) (environment : Environment)
    (state : string) : string :=
  "response_type=code&client_id=" ++ JS.encodeURIComponent clientId
    ++ "&redirect_uri=" ++ redirectUrlAAD
    ++ "&state=" ++ state
    ++ "&resource=" ++ activeDirectoryResourceId environment
    ++ "&prompt=select_account".

(** *** The loopback variant *)

(** The query of the sign-in URL [login] redirects the browser to. *)
Definition signInQuery (clientId : string) (environment : Environment)
    (redirectUrl state : string) : string :=
  "response_type=code&client_id=" ++ JS.encodeURIComponent clientId
    ++ "&redirect_uri=" ++ JS.encodeURIComponent redirectUrl
    ++ "&state=" ++ state
    ++ "&resource=" ++ JS.encodeURIComponent (activeDirectoryResourceId environment)
    ++ "&prompt=select_account".

(** [updatedPort]: the port of the [Host] header, or the bound port.
    A missing header reads as the empty string; the header is one string
    (the array case of the source is a guard the runtime never takes).
    [None] is a number the model leaves out. *)
Definition updatedPort (host : option string) (port : N) : option N :=
  match hostPortGroup false (default "" host) with
  | Some updatedPortStr =>
      if JS.truthy updatedPortStr then parseInt10 updatedPortStr else Some port
  | None => Some port
  end.

(** [`${updatedPort},${encodeURIComponent(nonce)}`] *)
Definition loopbackState (updatedPort : N) (nonce : string) : string :=
  pretty updatedPort ++ "," ++ JS.encodeURIComponent nonce.

(** [`/?error=${encodeURIComponent(err && err.message || 'Unknown error')}`] *)
Definition errorLocation (err : exn) : string :=
  "/?error=" ++ JS.encodeURIComponent (JS.or_else (exnMessage err) "Unknown error").

Inductive timer := RedirectTimer | CloseTimer.

(** What the orchestrator does, in order. *)
Inductive action :=
| OpenExternal (endpoint query : string)   (* [openExternal(uri.with({ query }))] *)
| TerminatePredecessor                     (* [await terminateServer()] *)
| CreateServer (nonce : string)            (* [createServer(nonce)] *)
| CreateTerminateServer                    (* [terminateServer = createTerminateServer(server)] *)
| StartServer (adfs : bool)                (* [await startServer(server, adfs)] *)
| OpenUri (url : string)                   (* [await openUri(url)] *)
| SetTimeout (t : timer) (ms : N)
| ClearTimeout (t : timer)
| Redirect (res : Server.response) (location : string)
                                           (* [res.writeHead(302, { Location })], [res.end()] *)
| Exchange (clientId redirectUrl tenantId code : string).
                                           (* [tokenWithAuthorizationCode(...)] *)

Inductive outcome :=
| Returned (t : TokenResponse)
| Thrown (e : exn)
| Waiting          (* an awaited promise never settles *)
| Unrepresented.   (* a number outside the modelled range *)

(** How the surroundings answer one login attempt. *)
Record world := {
  web : bool;                                  (* [uiKind === UIKind.Web] *)
  predecessor : bool;                          (* [terminateServer] is set *)
  nonce : string;                              (* [randomBytes(16).toString('base64')] *)
  callbackUri : Uri;                           (* [asExternalUri(...)] *)
  uris : list (N * string);                    (* URIs handed to the handler, since the call *)
  portResult : promise N;                      (* [startServer(server, adfs)] *)
  openUriResult : result unit;                 (* [openUri(...)] *)
  redirectResult : promise Server.RedirectResult;
  codeResult : promise Server.CodeResult;
  tokenResult : option string → result TokenResponse;
  tokenDelay : N → option string → N           (* how long the exchange started then takes *)
}.

Definition ofResult (r : result TokenResponse) : outcome :=
  match r with
  | Ok t => Returned t
  | Throw e => Thrown e
  end.

Definition loginWithoutLocalServer (clientId : string)
    (environment : Environment) (adfs : bool) (tenantId : string)
    (w : world) : list action * outcome :=
  let state := externalState (callbackUri w) (nonce w) in
  ([OpenExternal (authorizeEndpoint environment adfs tenantId)
                 (externalQuery clientId environment state)],
   ofResult (raceTimeout (exchangeCodeForToken state (tokenResult w) (tokenDelay w)
                                               (uris w)))).

(** The [try] block of [login]. *)
Definition attempt (clientId : string) (environment : Environment)
    (adfs : bool) (tenantId : string) (w : world) : list action * outcome :=
  match portResult w with
  | Pending => ([StartServer adfs], Waiting)
  | Rejected e => ([StartServer adfs], Thrown e)
  | Fulfilled port =>
      let a1 := [StartServer adfs;
                 OpenUri ("http://localhost:" ++ pretty port ++ "/signin?nonce="
                            ++ JS.encodeURIComponent (nonce w))] in
      match openUriResult w with
      | Throw e => (a1, Thrown e)
      | Ok _ =>
          let a2 := (a1 ++ [SetTimeout RedirectTimer (10 * 1000)])%list in
          match redirectResult w with
          | Pending => (a2, Waiting)
          | Rejected e => (a2, Thrown e)
          | Fulfilled (Server.RedirectErr err res) =>
              ((a2 ++ [Redirect res (errorLocation err)])%list, Thrown err)
          | Fulfilled (Server.RedirectReq req res) =>
              let a3 := (a2 ++ [ClearTimeout RedirectTimer])%list in
              match updatedPort (Server.host req) port with
              | None => (a3, Unrepresented)
              | Some updatedPort =>
                  let state := loopbackState updatedPort (nonce w) in
                  let redirectUrl := if adfs then redirectUrlADFS else redirectUrlAAD in
                  let signInUrl :=
                    authorizeEndpoint environment adfs tenantId ++ "?"
                      ++ signInQuery clientId environment redirectUrl state in
                  let a4 := (a3 ++ [Redirect res signInUrl])%list in
                  match codeResult w with
                  | Pending => (a4, Waiting)
                  | Rejected e => (a4, Thrown e)
                  | Fulfilled (Server.CodeErr err res) =>
                      ((a4 ++ [Redirect res (errorLocation err)])%list, Thrown err)
                  | Fulfilled (Server.CodeOk code res) =>
                      let a5 := (a4 ++ [Exchange clientId redirectUrl tenantId code])%list in
                      match tokenResult w (Some code) with
                      | Ok tokenResponse =>
                          ((a5 ++ [Redirect res "/"])%list, Returned tokenResponse)
                      | Throw err =>
                          ((a5 ++ [Redirect res (errorLocation err)])%list, Thrown err)
                      end
                  end
              end
          end
      end
  end.

(** [finally]: runs once the [try] block is left. *)
Definition finally (out : outcome) : list action :=
  match out with
  | Returned _ | Thrown _ => [SetTimeout CloseTimer 5000]
  | Waiting | Unrepresented => []
  end.

Definition login (clientId : string) (environment : Environment)
    (adfs : bool) (tenantId : string) (w : world) : list action * outcome :=
  if web w then loginWithoutLocalServer clientId environment adfs tenantId w
  else
    let setup :=
      ((if adfs && predecessor w then [TerminatePredecessor] else [])
         ++ [CreateServer (nonce w)]
         ++ (if adfs then [CreateTerminateServer] else []))%list in
    let '(body, out) := attempt clientId environment adfs tenantId w in
    ((setup ++ body ++ finally out)%list, out).

(** The value of the first parameter called [name] in a query string. *)
Fixpoint cutAt (sep : ascii) (s : string) : string * option string :=
  match s with
  | EmptyString => (EmptyString, None)
  | String c rest =>
      if Ascii.eqb c sep then (EmptyString, Some rest)
      else let '(k, v) := cutAt sep rest in (String c k, v)
  end.

Definition queryParam (name : string) (queryText : string) : option string :=
  let hit seg := String.eqb (cutAt "=" seg).1 name in
  match List.find hit (JS.splitOn "&" queryText) with
  | Some seg => Some (default "" (cutAt "=" seg).2)
  | None => None
  end.

End Flow.

(** ** Further parts of the source *)

Module More.

(** *** Runtime helpers *)

(** What a form-decoding query parser does to [+] before it undoes the
    percent escapes: every [+] reads as a space. *)
Fixpoint plusAsSpace (s : string) : string :=
  match s with
  | EmptyString => EmptyString
  | String c rest =>
      String (if Ascii.eqb c "+" then " "%char else c) (plusAsSpace rest)
  end.

(** [c.toLowerCase()] on an ASCII letter; other octets are kept. *)
Definition asciiLower (c : ascii) : ascii :=
  let n := N_of_ascii c in
  if ((65 <=? n) && (n <=? 90))%N then ascii_of_N (n + 32) else c.

(** [s.toLowerCase()] for a string of ASCII characters. *)
Fixpoint toLowerCase (s : string) : string :=
  match s with
  | EmptyString => EmptyString
  | String c rest => String (asciiLower c) (toLowerCase rest)
  end.

(** The base64 digit of a six-bit value. *)
Definition base64Char (n : N) : ascii :=
  if (n <? 26)%N then ascii_of_N (65 + n)
  else if (n <? 52)%N then ascii_of_N (97 + (n - 26))
  else if (n <? 62)%N then ascii_of_N (48 + (n - 52))
  else if (n =? 62)%N then "+"%char
  else "/"%char.

(** [buffer.toString('base64')]: three octets give four digits, and the
    last group is padded with [=]. *)
Fixpoint base64 (bytes : list Byte.byte) : string :=
  match bytes with
  | [] => EmptyString
  | a :: rest =>
      let x := Byte.to_N a in
      match rest with
      | [] =>
          String (base64Char (x / 4))
            (String (base64Char (x mod 4 * 16)) "==")
      | b :: rest' =>
          let y := Byte.to_N b in
          match rest' with
          | [] =>
              String (base64Char (x / 4))
                (String (base64Char (x mod 4 * 16 + y / 16))
                   (String (base64Char (y mod 16 * 4)) "="))
          | c :: rest'' =>
              let z := Byte.to_N c in
              String (base64Char (x / 4))
                (String (base64Char (x mod 4 * 16 + y / 16))
                   (String (base64Char (y mod 16 * 4 + z / 64))
                      (String (base64Char (z mod 64)) (base64 rest''))))
          end
      end
  end.

(** The nonce of both variants: [randomBytes(16).toString('base64')], for
    the octets the random source returned. *)
Definition makeNonce (randomBytes : list Byte.byte) : string := base64 randomBytes.

(** *** Requests served one after the other *)

(** The session after the requests [reqs], each with its arrival time
    and its response handle. *)
Definition serveAll (nonce : string) (s : Server.session)
    (reqs : list (N * Server.request * Server.response)) : Server.session :=
  foldl (λ s r, Server.serve nonce s r.1.1 r.1.2 r.2) s reqs.

(** *** The port written into the state by [loginWithoutLocalServer] *)

Definition externalPort (callbackUri : Flow.Uri) : string :=
  JS.or_else (default "" (Flow.authorityPortGroup (Flow.authority callbackUri)))
             (if String.eqb (Flow.scheme callbackUri) "https" then "443" else "80").

(** *** [tokenWithAuthorizationCode] *)

(** The response object handed to the callback of
    [acquireTokenWithAuthorizationCode]. *)
Record tokenReply := {
  replyError : option string;             (* [response.error] *)
  replyErrorDescription : option string;  (* [response.errorDescription] *)
  replyToken : Flow.TokenResponse
}.

(** The callback [(err, response) => ...] on the promise it settles.  The
    second [if] is not an [else if]: it is evaluated after [reject(err)]
    too.  A fulfilled [None] is the [undefined] the promise resolves with
    when there is no response. *)
Definition tokenCallback (err : option exn) (response : option tokenReply)
    (p : promise (option Flow.TokenResponse)) : promise (option Flow.TokenResponse) :=
  let p1 := match err with
            | Some e => reject e p
            | None => p
            end in
  match response with
  | Some r =>
      if JS.truthy (default "" (replyError r))
      then reject (Error (JS.toStringOrUndefined (replyError r) ++ ": "
                            ++ JS.toStringOrUndefined (replyErrorDescription r))) p1
      else resolve (Some (replyToken r)) p1
  | None => resolve None p1
  end.

Definition tokenWithAuthorizationCode (err : option exn) (response : option tokenReply)
  : promise (option Flow.TokenResponse) :=
  tokenCallback err response Pending.

(** *** [checkRedirectServer] *)

(** A header value: one string, or several for a repeated header. *)
Inductive headerValue :=
| HStr (s : string)
| HArr (l : list string).

(** The response of the redirect service: status and headers, in the
    order of the keys of [res.headers]; header names are HTTP tokens and
    hence ASCII. *)
Record reply := {
  statusCode : N;
  headers : list (string * headerValue)
}.

(** The events of the request. *)
Inductive probeEvent :=
| Response (r : reply)
| ProbeError (err : exn)
| ProbeClose.

(** [Object.keys(res.headers).find(key => key.toLowerCase() === 'location')] *)
Definition locationKey (r : reply) : option string :=
  fst <$> List.find (λ kv, String.eqb (toLowerCase kv.1) "location") (headers r).

(** [res.headers[key]] *)
Definition header (r : reply) (key : string) : option headerValue :=
  snd <$> List.find (λ kv, String.eqb kv.1 key) (headers r).

(** The boolean the response callback resolves with. *)
Definition redirects (r : reply) : bool :=
  (statusCode r =? 302)%N &&
  match locationKey r with
  | Some key =>
      if JS.truthy key then
        match header r key with
        | Some (HStr location) => String.prefix "http://127.0.0.1:3333/callback" location
        | _ => false
        end
      else false
  | None => false
  end.

Record probe := {
  answer : promise bool;
  probeTimer : option N
}.

(** [promise.then(cancelTimer, cancelTimer)] *)
Definition cancelTimer (s : probe) : probe :=
  if settled (answer s) then {| answer := answer s; probeTimer := None |} else s.

Definition probeHandle (ev : probeEvent) (s : probe) : probe :=
  cancelTimer
    {| answer := resolve match ev with
                         | Response r => redirects r
                         | ProbeError _ | ProbeClose => false
                         end (answer s);
       probeTimer := probeTimer s |}.

Definition probeAdvance (now : N) (s : probe) : probe :=
  match probeTimer s with
  | Some due =>
      if (due <=? now)%N
      then {| answer := resolve false (answer s); probeTimer := None |}
      else s
  | None => s
  end.

Fixpoint probeRun (evs : list (N * probeEvent)) (s : probe) : probe :=
  match evs with
  | [] => s
  | (t, ev) :: rest => probeRun rest (probeHandle ev (probeAdvance t s))
  end.

(** What [await checkRedirectServer(adfs)] yields when called at time
    [now] and the request then emits [evs]; a timer still armed when no
    event is left fires in the end. *)
Definition checkRedirectServer (adfs : bool) (now : N)
    (evs : list (N * probeEvent)) : promise bool :=
  if adfs then Fulfilled true
  else
    let s := probeRun evs {| answer := Pending; probeTimer := Some (now + 5000)%N |} in
    answer match probeTimer s with
           | Some due => probeAdvance due s
           | None => s
           end.

(** *** Helpers to state the properties *)

(** [k1=v1&k2=v2&...] *)
Fixpoint joinPairs (l : list (string * string)) : string :=
  match l with
  | [] => EmptyString
  | [(k, v)] => k ++ String "=" v
  | (k, v) :: rest => k ++ String "=" v ++ String "&" (joinPairs rest)
  end.

(** The value of the last pair with key [k]. *)
Fixpoint lastValue (k : string) (l : list (string * string)) : option string :=
  match l with
  | [] => None
  | (k', v) :: rest =>
      match lastValue k rest with
      | Some v' => Some v'
      | None => if String.eqb k' k then Some v else None
      end
  end.

(** The number of connections in a history of the socket registry. *)
Fixpoint connections (history : list Terminate.event) : nat :=
  match history with
  | [] => 0
  | Terminate.Connection _ :: rest => S (connections rest)
  | _ :: rest => connections rest
  end.

(** The code timer is armed, for five minutes after [createServer],
    exactly as long as the code promise is pending. *)
Definition timerTracksPromise (t0 : N) (s : Server.session) : Prop :=
  match Server.codeTimer s with
  | Some due => due = (t0 + Server.codeTimeout)%N ∧ Server.codePromise s = Pending
  | None => settled (Server.codePromise s) = true
  end.

(** A key or value that [parseQuery] reads back as it is. *)
Definition plain (s : string) : Prop :=
  JS.contains "&" s = false ∧ JS.contains "=" s = false.

(** [normal] is [received] with every space replaced by [+] and every
    other character kept, said character by character. *)
Definition spacesAsPlus (received normal : string) : Prop :=
  String.length normal = String.length received ∧
  ∀ i, (String.get i received = Some " "%char → String.get i normal = Some "+"%char) ∧
       (String.get i received ≠ Some " "%char →
        String.get i normal = String.get i received).

(** The redirects written in a run of [login], in order. *)
Definition redirected (run : list Flow.action) : list (Server.response * string) :=
  omap (λ a, match a with
             | Flow.Redirect res location => Some (res, location)
             | _ => None
             end) run.

(** A query parameter that carries no message: absent, empty, or given
    more than once. *)
Definition noMessage (v : option Server.queryValue) : Prop :=
  v = None ∨ v = Some (Server.Str "") ∨ ∃ l, v = Some (Server.Arr l).

(** Characters of the base64 alphabet, padding included. *)
Definition isBase64Char (c : ascii) : bool :=
  JS.isAlpha c || JS.isDigit c || existsb (Ascii.eqb c) ["+"; "/"; "="]%char.

End More.

(** ** Concrete sessions used to exercise the model *)

Module Samples.

Import Server.

Definition mkRequest (path : string) (q : list (string * queryValue))
    (h : option string) : request :=
  {| pathname := path; query := list_to_map q; host := h |}.

(** [/signin?nonce=abc%3D] as parsed by the server. *)
Definition signinGood : request :=
  mkRequest "/signin" [("nonce", Str "abc=")] (Some "localhost:51234").

(** [/signin?nonce=zzz] *)
Definition signinBad : request :=
  mkRequest "/signin" [("nonce", Str "zzz")] (Some "localhost:51234").

(** [/signin?nonce=a+b%3D] as a form-decoding parser reads it: the
    [+] of the nonce [a+b=] has become a space. *)
Definition signinSpaced : request :=
  mkRequest "/signin" [("nonce", Str "a b=")] (Some "localhost:51234").

(** [/signin] without any query. *)
Definition signinBare : request :=
  mkRequest "/signin" [] (Some "localhost:51234").

(** [/callback?code=XYZ&state=51234,abc%3D] *)
Definition callbackGood : request :=
  mkRequest "/callback" [("code", Str "XYZ"); ("state", Str "51234,abc=")] None.

(** [/callback?code=XYZ&state=51234,abc%253D]: the nonce encoded twice,
    decoded once by the query parser. *)
Definition callbackTwice : request :=
  mkRequest "/callback" [("code", Str "XYZ"); ("state", Str "51234,abc%3D")] None.

(** The same request had the query parser not decoded at all. *)
Definition callbackTwiceRaw : request :=
  mkRequest "/callback" [("code", Str "XYZ"); ("state", Str "51234,abc%253D")] None.

(** [/callback?error=access_denied&error_description=User%20declined] *)
Definition callbackDenied : request :=
  mkRequest "/callback"
    [("error", Str "access_denied"); ("error_description", Str "User declined")] None.

(** [/callback?error=&code=XYZ&state=51234,abc%3D]: an [error]
    parameter with an empty value. *)
Definition callbackEmptyError : request :=
  mkRequest "/callback"
    [("error", Str ""); ("code", Str "XYZ"); ("state", Str "51234,abc=")] None.

(** [/callback?error=access_denied&error=server_error&code=XYZ&state=51234,abc%3D]:
    an [error] parameter given twice. *)
Definition callbackRepeatedError : request :=
  mkRequest "/callback"
    [("error", Arr ["access_denied"; "server_error"]);
     ("code", Str "XYZ"); ("state", Str "51234,abc=")] None.

(** [/callback?code=XYZ&state=51234,other] *)
Definition callbackForged : request :=
  mkRequest "/callback" [("code", Str "XYZ"); ("state", Str "51234,other")] None.

Definition azureCloud : Flow.Environment :=
  {| Flow.activeDirectoryEndpointUrl := "https://login.microsoftonline.com/";
     Flow.activeDirectoryResourceId := "https://management.core.windows.net/" |}.

Definition clientId : string := "aebc6443-996d-45c2-90f0-388ff96faa56".

Definition codespace : Flow.Uri :=
  {| Flow.scheme := "https";
     Flow.authority := "user-repo.github.dev";
     Flow.uriQuery := "" |}.

(** A loopback attempt in which everything goes well. *)
Definition happy : Flow.world :=
  {| Flow.web := false;
     Flow.predecessor := false;
     Flow.nonce := "abc=";
     Flow.callbackUri := codespace;
     Flow.uris := [];
     Flow.portResult := Fulfilled 51234%N;
     Flow.openUriResult := Ok ();
     Flow.redirectResult := Fulfilled (RedirectReq signinGood 1%nat);
     Flow.codeResult := Fulfilled (CodeOk "XYZ" 2%nat);
     Flow.tokenResult := λ _, Ok "token";
     Flow.tokenDelay := λ _ _, 200%N |}.

(** [/signin?nonce=abc%3D] reaching the server through a forwarded
    port. *)
Definition signinForwarded : request :=
  mkRequest "/signin" [("nonce", Str "abc=")] (Some "localhost:60000").

(** The attempt in which the browser arrives through the forwarded port. *)
Definition forwarded : Flow.world :=
  {| Flow.web := false;
     Flow.predecessor := false;
     Flow.nonce := "abc=";
     Flow.callbackUri := codespace;
     Flow.uris := [];
     Flow.portResult := Fulfilled 51234%N;
     Flow.openUriResult := Ok ();
     Flow.redirectResult := Fulfilled (RedirectReq signinForwarded 1%nat);
     Flow.codeResult := Fulfilled (CodeOk "XYZ" 2%nat);
     Flow.tokenResult := λ _, Ok "token";
     Flow.tokenDelay := λ _ _, 200%N |}.

(** An attempt in a web host: the handler is given the redirect with the
    whole state percent-encoded once more. *)
Definition browser : Flow.world :=
  {| Flow.web := true;
     Flow.predecessor := false;
     Flow.nonce := "abc=";
     Flow.callbackUri := codespace;
     Flow.uris := [(1000%N, "code=XYZ&state=user-repo.github.dev%2C443%2Cabc%253D%2C")];
     Flow.portResult := Pending;
     Flow.openUriResult := Ok ();
     Flow.redirectResult := Pending;
     Flow.codeResult := Pending;
     Flow.tokenResult := λ _, Ok "token";
     Flow.tokenDelay := λ _ _, 200%N |}.

(** The same attempt when a second URI, with a state of its own, comes
    while the exchange the first one started is under way. *)
Definition disturbed : Flow.world :=
  {| Flow.web := true;
     Flow.predecessor := false;
     Flow.nonce := "abc=";
     Flow.callbackUri := codespace;
     Flow.uris := [(1000%N, "code=XYZ&state=user-repo.github.dev%2C443%2Cabc%253D%2C");
                   (1100%N, "code=ABC&state=other")];
     Flow.portResult := Pending;
     Flow.openUriResult := Ok ();
     Flow.redirectResult := Pending;
     Flow.codeResult := Pending;
     Flow.tokenResult := λ _, Ok "token";
     Flow.tokenDelay := λ _ _, 200%N |}.

(** An attempt in which the provider reports that the user declined. *)
Definition declined : Flow.world :=
  {| Flow.web := false;
     Flow.predecessor := false;
     Flow.nonce := "abc=";
     Flow.callbackUri := codespace;
     Flow.uris := [];
     Flow.portResult := Fulfilled 51234%N;
     Flow.openUriResult := Ok ();
     Flow.redirectResult := Fulfilled (RedirectReq signinGood 1%nat);
     Flow.codeResult := Fulfilled (CodeErr (Error "User declined") 2%nat);
     Flow.tokenResult := λ _, Ok "token";
     Flow.tokenDelay := λ _ _, 200%N |}.

(** An attempt in which the provider never comes back to [/callback]. *)
Definition expired : Flow.world :=
  {| Flow.web := false;
     Flow.predecessor := false;
     Flow.nonce := "abc=";
     Flow.callbackUri := codespace;
     Flow.uris := [];
     Flow.portResult := Fulfilled 51234%N;
     Flow.openUriResult := Ok ();
     Flow.redirectResult := Fulfilled (RedirectReq signinGood 1%nat);
     Flow.codeResult := Rejected (Error "Timeout waiting for code");
     Flow.tokenResult := λ _, Ok "token";
     Flow.tokenDelay := λ _ _, 200%N |}.

(** The same attempt when the port cannot be bound. *)
Definition portInUse : Flow.world :=
  {| Flow.web := false;
     Flow.predecessor := false;
     Flow.nonce := "abc=";
     Flow.callbackUri := codespace;
     Flow.uris := [];
     Flow.portResult := Rejected (SystemError "listen EADDRINUSE");
     Flow.openUriResult := Ok ();
     Flow.redirectResult := Pending;
     Flow.codeResult := Pending;
     Flow.tokenResult := λ _, Ok "token";
     Flow.tokenDelay := λ _ _, 200%N |}.

End Samples.

(** * Properties *)

(** ** Percent-encoding *)

Section PercentEncoding.

Local Open Scope N_scope.

Lemma ascii_octet (c : ascii) : N_of_ascii c < 256.
Proof. destruct c as [[] [] [] [] [] [] [] []]; vm_compute; reflexivity. Qed.

Lemma hexValue_high (c : ascii) :
  JS.hexValue (JS.hexDigit (N_of_ascii c / 16)) = Some (N_of_ascii c / 16).
Proof. destruct c as [[] [] [] [] [] [] [] []]; reflexivity. Qed.

Lemma hexValue_low (c : ascii) :
  JS.hexValue (JS.hexDigit (N_of_ascii c mod 16)) = Some (N_of_ascii c mod 16).
Proof. destruct c as [[] [] [] [] [] [] [] []]; reflexivity. Qed.

Lemma unescaped_plain (c : ascii) :
  JS.uriUnescaped c = true →
  (N_of_ascii c <? 128) = true ∧ Ascii.eqb c "%" = false.
Proof.
  destruct c as [[] [] [] [] [] [] [] []]; vm_compute; intros H;
    first [discriminate H | split; reflexivity].
Qed.

Lemma octet_recombine (c : ascii) :
  ascii_of_N (16 * (N_of_ascii c / 16) + N_of_ascii c mod 16) = c.
Proof.
  rewrite <- N.div_mod by discriminate. apply ascii_N_embedding.
Qed.

(** Decoding an escape gives back the octet, in any automaton state. *)
Lemma decodeFrom_escape (pending : nat) (lo hi : N) (c : ascii) (rest : string) :
  JS.decodeFrom pending lo hi (JS.escapeOctet c rest) =
  let o := N_of_ascii c in
  match pending with
  | O =>
      if o <? 128 then String c <$> JS.decodeFrom 0 128 191 rest
      else match JS.leadInfo o with
           | Some (n, lo', hi') => String c <$> JS.decodeFrom n lo' hi' rest
           | None => None
           end
  | S p =>
      if (lo <=? o) && (o <=? hi)
      then String c <$> JS.decodeFrom p 128 191 rest
      else None
  end.
Proof.
  unfold JS.escapeOctet. cbn [JS.decodeFrom].
  change (Ascii.eqb "%" "%") with true. cbv iota.
  rewrite hexValue_high, hexValue_low.
  rewrite octet_recombine.
  rewrite <- N.div_mod by discriminate.
  reflexivity.
Qed.

Lemma decodeFrom_encode (s : string) :
  ∀ (pending : nat) (lo hi : N),
    128 <= lo →
    JS.utf8From pending lo hi s = true →
    JS.decodeFrom pending lo hi (JS.encodeURIComponent s) = Some s.
Proof.
  induction s as [|c rest IH]; intros pending lo hi Hlo Hwf.
  - destruct pending; [reflexivity | discriminate Hwf].
  - cbn [JS.encodeURIComponent].
    destruct (JS.uriUnescaped c) eqn:Hc.
    + destruct (unescaped_plain c Hc) as [Hsmall Hpct].
      cbn [JS.decodeFrom JS.utf8From] in *. rewrite Hpct.
      destruct pending as [|p].
      * rewrite Hsmall in Hwf. rewrite (IH 0%nat 128 191); [reflexivity | lia | exact Hwf].
      * apply andb_prop in Hwf as [Hrange _].
        apply andb_prop in Hrange as [Hge _].
        apply N.leb_le in Hge. apply N.ltb_lt in Hsmall. lia.
    + rewrite decodeFrom_escape. cbn [JS.utf8From] in Hwf. cbv zeta in *.
      destruct pending as [|p].
      * destruct (N_of_ascii c <? 128).
        -- rewrite (IH 0%nat 128 191); [reflexivity | lia | exact Hwf].
        -- destruct (JS.leadInfo (N_of_ascii c)) as [[[n lo'] hi']|] eqn:Hlead;
             [|discriminate Hwf].
           rewrite (IH n lo' hi'); [reflexivity | | exact Hwf].
           unfold JS.leadInfo in Hlead.
           repeat match type of Hlead with
                  | (if ?b then _ else _) = _ => destruct b
                  end; inversion Hlead; subst; lia.
      * apply andb_prop in Hwf as [Hrange Hrest].
        rewrite Hrange.
        rewrite (IH p 128 191); [reflexivity | lia | exact Hrest].
Qed.

(** One decoding pass undoes one encoding pass. *)
Lemma decode_encode (s : string) :
  JS.wellFormed s = true →
  JS.decodeURIComponent (JS.encodeURIComponent s) = Some s.
Proof. intros H. apply decodeFrom_encode; [lia | exact H]. Qed.

End PercentEncoding.

(** ** The request listener *)

Section Listener.

Import Server.

Lemma or_else_empty (s : string) : JS.or_else s "" = s.
Proof. destruct s; reflexivity. Qed.

Lemma eqb_string_false (a b : string) : a ≠ b → String.eqb a b = false.
Proof. intros H. apply String.eqb_neq. exact H. Qed.

(** What [/signin] does with a [nonce] value. *)
Lemma listener_signin (nonce : string) (req : request) (res : response)
    (v : queryValue) :
  pathname req = "/signin" →
  query req !! "nonce" = Some v →
  listener nonce req res =
    Ok [ResolveRedirect
          (if String.eqb (JS.replaceSpaces (valueToString v)) nonce
           then RedirectReq req res
           else RedirectErr (Error "Nonce does not match.") res)].
Proof.
  intros Hpath Hnonce. unfold listener. rewrite Hpath, Hnonce.
  cbn [String.eqb Ascii.eqb Bool.eqb]. rewrite or_else_empty.
  destruct (String.eqb _ nonce); reflexivity.
Qed.

(** What [/callback] does. *)
Lemma listener_callback (nonce : string) (req : request) (res : response) :
  pathname req = "/callback" →
  listener nonce req res =
    Ok [ResolveCode
          match callback nonce (Some (query req)) with
          | Ok code => CodeOk code res
          | Throw err => CodeErr err res
          end].
Proof. intros Hpath. unfold listener. rewrite Hpath. reflexivity. Qed.

(** A request never touches a promise that is already settled. *)
Lemma perform_redirect_settled (s : session) (c : call) :
  settled (redirectPromise s) = true →
  redirectPromise (perform s c) = redirectPromise s.
Proof.
  intros H. destruct c; cbn; try reflexivity.
  - destruct (redirectPromise s); [discriminate H | reflexivity ..].
  - unfold cancelCodeTimer. cbn.
    destruct (settled (resolve r (codePromise s))); reflexivity.
Qed.

Lemma perform_code_settled (s : session) (c : call) :
  settled (codePromise s) = true →
  codePromise (perform s c) = codePromise s.
Proof.
  intros H. destruct c; cbn; try reflexivity.
  unfold cancelCodeTimer. cbn.
  destruct (codePromise s); [discriminate H | reflexivity ..].
Qed.

Lemma foldl_perform_redirect_settled (calls : list call) :
  ∀ s, settled (redirectPromise s) = true →
       redirectPromise (foldl perform s calls) = redirectPromise s.
Proof.
  induction calls as [|c calls IH]; intros s H; [reflexivity|].
  cbn [foldl]. rewrite IH; rewrite perform_redirect_settled; auto.
Qed.

Lemma foldl_perform_code_settled (calls : list call) :
  ∀ s, settled (codePromise s) = true →
       codePromise (foldl perform s calls) = codePromise s.
Proof.
  induction calls as [|c calls IH]; intros s H; [reflexivity|].
  cbn [foldl]. rewrite IH; rewrite perform_code_settled; auto.
Qed.

Lemma advance_redirect (now : N) (s : session) :
  redirectPromise (advance now s) = redirectPromise s.
Proof.
  unfold advance. destruct (codeTimer s); [|reflexivity].
  destruct (_ <=? _)%N; reflexivity.
Qed.

Lemma advance_code_settled (now : N) (s : session) :
  settled (codePromise s) = true →
  codePromise (advance now s) = codePromise s.
Proof.
  intros H. unfold advance. destruct (codeTimer s); [|reflexivity].
  destruct (_ <=? _)%N; [|reflexivity]. cbn.
  destruct (codePromise s); [discriminate H | reflexivity ..].
Qed.

Lemma advance_early (t0 now : N) :
  (now < t0 + codeTimeout)%N → advance now (createServer t0) = createServer t0.
Proof.
  intros H. unfold advance, createServer. cbn.
  destruct (N.leb_spec (t0 + codeTimeout) now); [lia | reflexivity].
Qed.

End Listener.

(** ** Claims about the request listener *)

Section ListenerClaims.

Import Server.

(** [replaceSpaces], character by character. *)
Lemma replaceSpaces_get (s : string) :
  ∀ i, (String.get i s = Some " "%char →
        String.get i (JS.replaceSpaces s) = Some "+"%char) ∧
       (String.get i s ≠ Some " "%char →
        String.get i (JS.replaceSpaces s) = String.get i s).
Proof.
  induction s as [|c s IH]; intros i.
  - split; [discriminate | reflexivity].
  - destruct i as [|i]; cbn [String.get JS.replaceSpaces].
    + destruct (Ascii.eqb_spec c " ") as [->|Hc]; split; try reflexivity.
      * intros H. congruence.
      * intros H. congruence.
    + apply IH.
Qed.

Lemma replaceSpaces_length (s : string) :
  String.length (JS.replaceSpaces s) = String.length s.
Proof. induction s as [|c s IH]; cbn; [reflexivity | rewrite IH; reflexivity]. Qed.

(** [replaceSpaces] is the one string that has [+] for every space and
    the other characters as they are. *)
Lemma replaceSpaces_spacesAsPlus (received normal : string) :
  JS.replaceSpaces received = normal ↔ More.spacesAsPlus received normal.
Proof.
  split.
  - intros <-. split; [apply replaceSpaces_length | apply replaceSpaces_get].
  - intros [_ Hget]. apply String.get_correct. intros i.
    destruct (replaceSpaces_get received i) as [Hs Ho].
    destruct (Hget i) as [Hs' Ho'].
    destruct (decide (String.get i received = Some " "%char)) as [Heq|Hne].
    + rewrite (Hs Heq), (Hs' Heq). reflexivity.
    + rewrite (Ho Hne), (Ho' Hne). reflexivity.
Qed.

(** C3. A [/signin] request that carries a [nonce] value makes the
    listener resolve the redirect promise exactly once, and on a pending
    promise that resolution is the value the promise settles with.  The
    received value is the parameter itself, or its values joined by
    commas when it was given more than once.  The resolution is the
    request/response pair when the session nonce is the received value
    with every space replaced by [+] and every other character kept, and
    the error [Nonce does not match.] (response attached) for every other
    value. *)
Theorem signin_resolves_redirect_exactly_once
    (nonce : string) (s : session) (now : N)
    (req : request) (res : response) (v : queryValue) :
  pathname req = "/signin" →
  query req !! "nonce" = Some v →
  redirectPromise s = Pending →
  ∃ r,
    listener nonce req res = Ok [ResolveRedirect r] ∧
    redirectPromise (serve nonce s now req res) = Fulfilled r ∧
    (∀ received,
       v = Str received ∨ (∃ l, v = Arr l ∧ received = String.concat "," l) →
       (More.spacesAsPlus received nonce → r = RedirectReq req res) ∧
       (¬ More.spacesAsPlus received nonce →
        r = RedirectErr (Error "Nonce does not match.") res)) ∧
    (∀ received,
       v = Str received → JS.contains " " received = false →
       (received = nonce → r = RedirectReq req res) ∧
       (received ≠ nonce → r = RedirectErr (Error "Nonce does not match.") res)).
Proof.
  intros Hpath Hnonce Hpending.
  pose proof (listener_signin nonce req res v Hpath Hnonce) as Hl.
  eexists. split; [exact Hl|]. split.
  - unfold serve. rewrite Hl. cbn [foldl perform redirectPromise].
    rewrite advance_redirect, Hpending. reflexivity.
  - assert (∀ received,
              v = Str received ∨ (∃ l, v = Arr l ∧ received = String.concat "," l) →
              valueToString v = received) as Htext.
    { intros received [-> | (l & -> & ->)]; reflexivity. }
    split.
    + intros received Hv. rewrite (Htext received Hv). split; intros H.
      * apply replaceSpaces_spacesAsPlus, String.eqb_eq in H. rewrite H. reflexivity.
      * rewrite eqb_string_false; [reflexivity|].
        intros Heq. apply H, replaceSpaces_spacesAsPlus, Heq.
    + intros received -> Hfree. cbn [valueToString].
      assert (JS.replaceSpaces received = received) as ->.
      { clear -Hfree. induction received as [|c received IH]; [reflexivity|].
        cbn [JS.contains] in Hfree. apply orb_false_elim in Hfree as [Hc Hrest].
        cbn [JS.replaceSpaces]. rewrite Hc, (IH Hrest). reflexivity. }
      split; intros H.
      * apply String.eqb_eq in H. rewrite H. reflexivity.
      * rewrite (eqb_string_false _ _ H). reflexivity.
Qed.

Lemma signin_resolves_redirect_exactly_once_witness :
  (pathname Samples.signinSpaced = "/signin" ∧
   query Samples.signinSpaced !! "nonce" = Some (Str "a b=") ∧
   redirectPromise (createServer 0) = Pending ∧
   listener "a+b=" Samples.signinSpaced 1%nat
     = Ok [ResolveRedirect (RedirectReq Samples.signinSpaced 1%nat)] ∧
   redirectPromise (serve "a+b=" (createServer 0) 10 Samples.signinSpaced 1%nat)
     = Fulfilled (RedirectReq Samples.signinSpaced 1%nat)) ∧
  (pathname Samples.signinGood = "/signin" ∧
   query Samples.signinGood !! "nonce" = Some (Str "abc=") ∧
   listener "abc=" Samples.signinGood 1%nat
     = Ok [ResolveRedirect (RedirectReq Samples.signinGood 1%nat)]) ∧
  (pathname Samples.signinBad = "/signin" ∧
   query Samples.signinBad !! "nonce" = Some (Str "zzz") ∧
   listener "abc=" Samples.signinBad 1%nat
     = Ok [ResolveRedirect (RedirectErr (Error "Nonce does not match.") 1%nat)] ∧
   redirectPromise (serve "abc=" (createServer 0) 10 Samples.signinBad 1%nat)
     = Fulfilled (RedirectErr (Error "Nonce does not match.") 1%nat)).
Proof.
  split; [|split].
  - split; [reflexivity|]. split; [vm_compute; reflexivity|]. split; [reflexivity|].
    destruct (signin_resolves_redirect_exactly_once
                "a+b=" (createServer 0) 10 Samples.signinSpaced 1%nat (Str "a b=")
                eq_refl eq_refl eq_refl) as (r & Hl & Hs & Hr & _).
    destruct (Hr "a b=" (or_introl eq_refl)) as [Hyes _].
    assert (More.spacesAsPlus "a b=" "a+b=") as Hsp.
    { split; [reflexivity|]. intros i.
      do 4 (destruct i as [|i];
            [split; intros H; cbn in H |- *; first [reflexivity | congruence]|]).
      split; intros H; cbn in H |- *; first [reflexivity | congruence]. }
    rewrite (Hyes Hsp) in Hl, Hs. split; assumption.
  - split; [reflexivity|]. split; [vm_compute; reflexivity|].
    destruct (signin_resolves_redirect_exactly_once
                "abc=" (createServer 0) 10 Samples.signinGood 1%nat (Str "abc=")
                eq_refl eq_refl eq_refl) as (r & Hl & _ & _ & Hr).
    destruct (Hr "abc=" eq_refl eq_refl) as [Hyes _].
    rewrite (Hyes eq_refl) in Hl. exact Hl.
  - split; [reflexivity|]. split; [vm_compute; reflexivity|].
    destruct (signin_resolves_redirect_exactly_once
                "abc=" (createServer 0) 10 Samples.signinBad 1%nat (Str "zzz")
                eq_refl eq_refl eq_refl) as (r & Hl & Hs & _ & Hr).
    destruct (Hr "zzz" eq_refl eq_refl) as [_ Hno].
    rewrite (Hno ltac:(discriminate)) in Hl, Hs. split; assumption.
Defined.

(** C10. A [/signin] request without any [nonce] parameter makes the
    listener throw a [TypeError] before it calls anything: the redirect
    promise is left as it was, so a pending one is not resolved, neither
    as success nor as nonce mismatch. *)
Theorem signin_without_nonce_throws
    (nonce : string) (s : session) (now : N)
    (req : request) (res : response) :
  pathname req = "/signin" →
  query req !! "nonce" = None →
  (∃ m, listener nonce req res = Throw (TypeError m)) ∧
  redirectPromise (serve nonce s now req res) = redirectPromise s.
Proof.
  intros Hpath Hnonce. unfold serve, listener. rewrite Hpath, Hnonce.
  cbn [String.eqb Ascii.eqb Bool.eqb].
  split; [eexists; reflexivity | apply advance_redirect].
Qed.

Lemma signin_without_nonce_throws_witness :
  pathname Samples.signinBare = "/signin" ∧
  query Samples.signinBare !! "nonce" = None ∧
  (∃ m, listener "abc=" Samples.signinBare 1%nat = Throw (TypeError m)) ∧
  redirectPromise (serve "abc=" (createServer 0) 10 Samples.signinBare 1%nat)
    = redirectPromise (createServer 0).
Proof.
  split; [reflexivity|]. split; [vm_compute; reflexivity|].
  apply (signin_without_nonce_throws "abc=" (createServer 0) 10
           Samples.signinBare 1%nat);
    [reflexivity | vm_compute; reflexivity].
Defined.

(** The callback fails on a nonce mismatch whenever no error message was
    found in the query. *)
Lemma callback_mismatch (nonce : string) (q : gmap string queryValue) :
  JS.or_else (getQueryProp q "error_description") (getQueryProp q "error") = "" →
  stateNonce (getQueryProp q "state") ≠ nonce →
  callback nonce (Some q) = Throw (Error "Nonce does not match.").
Proof.
  intros Herr Hnonce. unfold callback. rewrite Herr. cbn [JS.truthy negb].
  rewrite (eqb_string_false _ _ Hnonce). reflexivity.
Qed.

(** The callback fails with the message found in the query, if any. *)
Lemma callback_error (nonce : string) (q : gmap string queryValue) (msg : string) :
  JS.or_else (getQueryProp q "error_description") (getQueryProp q "error") = msg →
  msg ≠ "" →
  callback nonce (Some q) = Throw (Error msg).
Proof.
  intros Herr Hmsg. unfold callback. rewrite Herr.
  destruct msg as [|c msg]; [congruence|]. reflexivity.
Qed.

Lemma serve_callback (nonce : string) (t0 now : N) (req : request) (res : response) :
  pathname req = "/callback" →
  (now < t0 + codeTimeout)%N →
  codePromise (serve nonce (createServer t0) now req res) =
    Fulfilled match callback nonce (Some (query req)) with
              | Ok code => CodeOk code res
              | Throw err => CodeErr err res
              end.
Proof.
  intros Hpath Hnow. unfold serve.
  rewrite (listener_callback nonce req res Hpath), (advance_early t0 now Hnow).
  reflexivity.
Qed.

(** C5. A [/callback] request without [error] and [error_description]
    whose [state] carries, between its first and second comma and with
    spaces replaced by [+], something other than the session nonce makes
    the code promise settle with the error [Nonce does not match.],
    whatever [code] the request has. *)
Theorem callback_nonce_mismatch_fails
    (nonce : string) (t0 now : N) (req : request) (res : response) :
  pathname req = "/callback" →
  query req !! "error" = None →
  query req !! "error_description" = None →
  stateNonce (getQueryProp (query req) "state") ≠ nonce →
  (now < t0 + codeTimeout)%N →
  listener nonce req res =
    Ok [ResolveCode (CodeErr (Error "Nonce does not match.") res)] ∧
  codePromise (serve nonce (createServer t0) now req res) =
    Fulfilled (CodeErr (Error "Nonce does not match.") res).
Proof.
  intros Hpath He Hd Hnonce Hnow.
  assert (callback nonce (Some (query req)) = Throw (Error "Nonce does not match."))
    as Hcb.
  { apply callback_mismatch; [|exact Hnonce].
    unfold getQueryProp. rewrite He, Hd. reflexivity. }
  split.
  - rewrite (listener_callback nonce req res Hpath), Hcb. reflexivity.
  - rewrite (serve_callback nonce t0 now req res Hpath Hnow), Hcb. reflexivity.
Qed.

Lemma callback_nonce_mismatch_fails_witness :
  pathname Samples.callbackForged = "/callback" ∧
  query Samples.callbackForged !! "error" = None ∧
  query Samples.callbackForged !! "error_description" = None ∧
  stateNonce (getQueryProp (query Samples.callbackForged) "state") ≠ "abc=" ∧
  (10 < 0 + codeTimeout)%N ∧
  listener "abc=" Samples.callbackForged 2%nat =
    Ok [ResolveCode (CodeErr (Error "Nonce does not match.") 2%nat)] ∧
  codePromise (serve "abc=" (createServer 0) 10 Samples.callbackForged 2%nat) =
    Fulfilled (CodeErr (Error "Nonce does not match.") 2%nat).
Proof.
  split; [reflexivity|]. split; [vm_compute; reflexivity|].
  split; [vm_compute; reflexivity|]. split; [vm_compute; discriminate|].
  split; [vm_compute; reflexivity|].
  apply (callback_nonce_mismatch_fails "abc=" 0 10 Samples.callbackForged 2%nat);
    [reflexivity | vm_compute; reflexivity | vm_compute; reflexivity
     | vm_compute; discriminate | vm_compute; reflexivity].
Defined.

(** A parameter without message reads as the empty string. *)
Lemma noMessage_getQueryProp (q : gmap string queryValue) (name : string) :
  More.noMessage (q !! name) ↔ getQueryProp q name = "".
Proof.
  unfold More.noMessage, getQueryProp. split.
  - intros [-> | [-> | [l ->]]]; reflexivity.
  - destruct (q !! name) as [[value|l]|]; intros H.
    + right. left. rewrite H. reflexivity.
    + right. right. eexists. reflexivity.
    + left. reflexivity.
Qed.

(** Without a message the callback goes by nonce and code. *)
Lemma callback_without_message (nonce : string) (q : gmap string queryValue) :
  More.noMessage (q !! "error_description") →
  More.noMessage (q !! "error") →
  callback nonce (Some q) =
    if String.eqb (stateNonce (getQueryProp q "state")) nonce
    then if JS.truthy (getQueryProp q "code")
         then Ok (getQueryProp q "code")
         else Throw (Error "No code received.")
    else Throw (Error "Nonce does not match.").
Proof.
  intros Hd He.
  apply noMessage_getQueryProp in Hd. apply noMessage_getQueryProp in He.
  unfold callback. rewrite Hd, He. cbn [JS.or_else JS.truthy negb].
  destruct (String.eqb _ nonce); cbn [negb JS.truthy andb]; [|reflexivity].
  destruct (getQueryProp q "code"); reflexivity.
Qed.

(** C4, as the claim is worded, fails: an [error] parameter that is
    present with an empty value, or given twice, is not an error for the
    code, and the two requests below, which also have a valid [state] and
    a [code], make the code promise settle with the code. *)
Lemma callback_empty_error_is_success :
  (query Samples.callbackEmptyError !! "error" = Some (Str "") ∧
   listener "abc=" Samples.callbackEmptyError 2%nat =
     Ok [ResolveCode (CodeOk "XYZ" 2%nat)] ∧
   codePromise (serve "abc=" (createServer 0) 10 Samples.callbackEmptyError 2%nat) =
     Fulfilled (CodeOk "XYZ" 2%nat)) ∧
  (query Samples.callbackRepeatedError !! "error"
     = Some (Arr ["access_denied"; "server_error"]) ∧
   listener "abc=" Samples.callbackRepeatedError 2%nat =
     Ok [ResolveCode (CodeOk "XYZ" 2%nat)] ∧
   codePromise (serve "abc=" (createServer 0) 10 Samples.callbackRepeatedError 2%nat) =
     Fulfilled (CodeOk "XYZ" 2%nat)).
Proof. repeat split; vm_compute; reflexivity. Qed.

(** C4, amended. A [/callback] request whose [error_description] is a
    non-empty string, or whose [error] is a non-empty string while
    [error_description] is missing, empty or repeated, makes the code
    promise settle with an error carrying that message, the description
    being preferred, whatever [code] and [state] the request has.  When
    [error_description] and [error] are each missing, empty or repeated,
    the request is not treated as an error: with the session nonce in its
    [state] it settles the code promise with its non-empty [code], and it
    fails only for a nonce mismatch or for want of a code. *)
Theorem callback_error_parameter_fails
    (nonce : string) (t0 now : N) (req : request) (res : response) :
  pathname req = "/callback" →
  (now < t0 + codeTimeout)%N →
  (∀ msg,
     msg ≠ "" →
     query req !! "error_description" = Some (Str msg) ∨
     More.noMessage (query req !! "error_description") ∧
     query req !! "error" = Some (Str msg) →
     listener nonce req res = Ok [ResolveCode (CodeErr (Error msg) res)] ∧
     codePromise (serve nonce (createServer t0) now req res) =
       Fulfilled (CodeErr (Error msg) res)) ∧
  (More.noMessage (query req !! "error_description") →
   More.noMessage (query req !! "error") →
   (∀ code,
      stateNonce (getQueryProp (query req) "state") = nonce →
      query req !! "code" = Some (Str code) →
      code ≠ "" →
      listener nonce req res = Ok [ResolveCode (CodeOk code res)] ∧
      codePromise (serve nonce (createServer t0) now req res) =
        Fulfilled (CodeOk code res)) ∧
   (stateNonce (getQueryProp (query req) "state") = nonce →
    More.noMessage (query req !! "code") →
    listener nonce req res =
      Ok [ResolveCode (CodeErr (Error "No code received.") res)] ∧
    codePromise (serve nonce (createServer t0) now req res) =
      Fulfilled (CodeErr (Error "No code received.") res)) ∧
   (stateNonce (getQueryProp (query req) "state") ≠ nonce →
    listener nonce req res =
      Ok [ResolveCode (CodeErr (Error "Nonce does not match.") res)] ∧
    codePromise (serve nonce (createServer t0) now req res) =
      Fulfilled (CodeErr (Error "Nonce does not match.") res))).
Proof.
  intros Hpath Hnow.
  rewrite (listener_callback nonce req res Hpath),
          (serve_callback nonce t0 now req res Hpath Hnow).
  split.
  - intros msg Hmsg Hq.
    assert (callback nonce (Some (query req)) = Throw (Error msg)) as ->;
      [|split; reflexivity].
    apply callback_error; [|exact Hmsg].
    destruct Hq as [Hd | [Hd He]].
    + unfold getQueryProp at 1. rewrite Hd.
      destruct msg; [congruence | reflexivity].
    + apply noMessage_getQueryProp in Hd. rewrite Hd.
      unfold getQueryProp. rewrite He. reflexivity.
  - intros Hd He. rewrite (callback_without_message nonce (query req) Hd He).
    split; [|split].
    + intros code Hstate Hcode Hne. rewrite Hstate, String.eqb_refl.
      unfold getQueryProp. rewrite Hcode.
      destruct code; [congruence | split; reflexivity].
    + intros Hstate Hcode. rewrite Hstate, String.eqb_refl.
      apply noMessage_getQueryProp in Hcode. rewrite Hcode. split; reflexivity.
    + intros Hstate. rewrite (eqb_string_false _ _ Hstate). split; reflexivity.
Qed.

Lemma callback_error_parameter_fails_witness :
  (pathname Samples.callbackDenied = "/callback" ∧
   (10 < 0 + codeTimeout)%N ∧
   query Samples.callbackDenied !! "error_description" = Some (Str "User declined") ∧
   listener "abc=" Samples.callbackDenied 2%nat =
     Ok [ResolveCode (CodeErr (Error "User declined") 2%nat)] ∧
   codePromise (serve "abc=" (createServer 0) 10 Samples.callbackDenied 2%nat) =
     Fulfilled (CodeErr (Error "User declined") 2%nat)) ∧
  (pathname Samples.callbackRepeatedError = "/callback" ∧
   query Samples.callbackRepeatedError !! "error_description" = None ∧
   query Samples.callbackRepeatedError !! "error"
     = Some (Arr ["access_denied"; "server_error"]) ∧
   listener "abc=" Samples.callbackRepeatedError 2%nat =
     Ok [ResolveCode (CodeOk "XYZ" 2%nat)] ∧
   codePromise (serve "abc=" (createServer 0) 10 Samples.callbackRepeatedError 2%nat) =
     Fulfilled (CodeOk "XYZ" 2%nat)).
Proof.
  split.
  - split; [reflexivity|]. split; [vm_compute; reflexivity|].
    split; [vm_compute; reflexivity|].
    destruct (callback_error_parameter_fails "abc=" 0 10 Samples.callbackDenied 2%nat
                eq_refl eq_refl) as [Hfail _].
    apply (Hfail "User declined"); [discriminate | left; vm_compute; reflexivity].
  - split; [reflexivity|]. split; [vm_compute; reflexivity|].
    split; [vm_compute; reflexivity|].
    destruct (callback_error_parameter_fails "abc=" 0 10
                Samples.callbackRepeatedError 2%nat eq_refl eq_refl)
      as [_ Hpass].
    destruct (Hpass (or_introl eq_refl) (or_intror (or_intror (ex_intro _ _ eq_refl))))
      as (Hcode & _).
    apply (Hcode "XYZ"); [vm_compute; reflexivity | vm_compute; reflexivity | discriminate].
Defined.

(** C8. Once the redirect promise, or the code promise, is settled, a
    further request leaves its value as it is, and resolving either
    promise twice in a row keeps the first resolution. *)
Theorem second_resolution_has_no_effect
    (nonce : string) (s : session) (now : N) (req : request) (res : response) :
  (settled (redirectPromise s) = true →
   redirectPromise (serve nonce s now req res) = redirectPromise s) ∧
  (settled (codePromise s) = true →
   codePromise (serve nonce s now req res) = codePromise s) ∧
  (∀ r r', resolve r' (resolve r (redirectPromise s)) = resolve r (redirectPromise s)) ∧
  (∀ c c', resolve c' (resolve c (codePromise s)) = resolve c (codePromise s)).
Proof.
  split; [|split; [|split]].
  - intros H. unfold serve.
    destruct (listener nonce req res) as [calls|e].
    + rewrite foldl_perform_redirect_settled; rewrite advance_redirect; auto.
    + apply advance_redirect.
  - intros H. unfold serve.
    destruct (listener nonce req res) as [calls|e].
    + rewrite foldl_perform_code_settled; rewrite advance_code_settled; auto.
    + apply advance_code_settled, H.
  - intros r r'. destruct (redirectPromise s); reflexivity.
  - intros c c'. destruct (codePromise s); reflexivity.
Qed.

Lemma second_resolution_has_no_effect_witness :
  let s1 := serve "abc=" (createServer 0) 10 Samples.signinGood 1%nat in
  let s2 := serve "abc=" s1 20 Samples.callbackGood 2%nat in
  settled (redirectPromise s2) = true ∧
  settled (codePromise s2) = true ∧
  redirectPromise (serve "abc=" s2 30 Samples.signinBad 3%nat) = redirectPromise s2 ∧
  codePromise (serve "abc=" s2 30 Samples.signinBad 3%nat) = codePromise s2.
Proof.
  cbv zeta.
  pose proof (second_resolution_has_no_effect "abc="
                (serve "abc=" (serve "abc=" (createServer 0) 10 Samples.signinGood 1%nat)
                       20 Samples.callbackGood 2%nat)
                30 Samples.signinBad 3%nat) as (Hr & Hc & _).
  split; [vm_compute; reflexivity|]. split; [vm_compute; reflexivity|].
  split; [apply Hr | apply Hc]; vm_compute; reflexivity.
Defined.

End ListenerClaims.

(** ** Port acquisition *)

Section PortFacts.

Import Port.

Local Open Scope N_scope.

Lemma handle_settled (ev : event) (p : promise N) :
  settled p = true →
  handle ev {| port := p; portTimer := None |} = {| port := p; portTimer := None |}.
Proof.
  intros H. destruct p as [|v|e]; [discriminate H | |];
    destruct ev as [[q| |]|err|]; reflexivity.
Qed.

Lemma run_settled (evs : list (N * event)) (p : promise N) :
  settled p = true →
  run evs {| port := p; portTimer := None |} = {| port := p; portTimer := None |}.
Proof.
  intros H. induction evs as [|[t ev] rest IH]; [reflexivity|].
  cbn [run]. unfold advance at 1. cbn [portTimer].
  rewrite handle_settled by exact H. exact IH.
Qed.

Lemma handle_pending (ev : event) (due : N) :
  handle ev {| port := Pending; portTimer := Some due |} =
    if settles ev
    then {| port := verdict ev; portTimer := None |}
    else {| port := Pending; portTimer := Some due |}.
Proof. destruct ev as [[q| |]|err|]; reflexivity. Qed.

Lemma settles_verdict (ev : event) : settles ev = true → settled (verdict ev) = true.
Proof. destruct ev as [[q| |]|err|]; intros H; first [discriminate H | reflexivity]. Qed.

(** [startServer] is decided by the first settling event delivered before
    the timer is due, and by the timer when there is none. *)
Lemma run_firstBefore (evs : list (N * event)) (due : N) :
  port (expire (run evs {| port := Pending; portTimer := Some due |})) =
    match firstBefore due evs with
    | Some ev => verdict ev
    | None => Rejected (Error "Timeout waiting for port")
    end.
Proof.
  induction evs as [|[t ev] rest IH].
  - cbn. rewrite N.leb_refl. reflexivity.
  - cbn [run firstBefore]. unfold advance at 1. cbn [portTimer].
    destruct (due <=? t).
    + cbn [reject port]. rewrite handle_settled by reflexivity.
      rewrite run_settled by reflexivity. reflexivity.
    + rewrite handle_pending. destruct (settles ev) eqn:Hs.
      * rewrite run_settled by (apply settles_verdict, Hs). reflexivity.
      * exact IH.
Qed.

Lemma startServer_firstBefore (now : N) (evs : list (N * event)) :
  startServer now evs =
    match firstBefore (now + portTimeout) evs with
    | Some ev => verdict ev
    | None => Rejected (Error "Timeout waiting for port")
    end.
Proof. apply run_firstBefore. Qed.

Lemma firstBefore_quiet (due : N) (evs : list (N * event)) :
  (∀ t ev, (t, ev) ∈ evs → t < due → settles ev = false) →
  firstBefore due evs = None.
Proof.
  induction evs as [|[t ev] rest IH]; intros H; [reflexivity|].
  cbn [firstBefore]. destruct (N.leb_spec due t) as [|Hlt]; [reflexivity|].
  rewrite (H t ev) by (first [left | exact Hlt]).
  apply IH. intros t' ev' Hin. apply H. right. exact Hin.
Qed.

Lemma firstBefore_first (due : N) (pre post : list (N * event)) (t : N) (ev : event) :
  Forall (λ e, e.1 < due ∧ settles e.2 = false) pre →
  t < due →
  settles ev = true →
  firstBefore due (pre ++ (t, ev) :: post) = Some ev.
Proof.
  intros Hpre Ht Hev. induction Hpre as [|[t' ev'] pre [Ht' Hev'] _ IH].
  - cbn. destruct (N.leb_spec due t); [lia|]. rewrite Hev. reflexivity.
  - cbn in *. destruct (N.leb_spec due t'); [lia|]. rewrite Hev'. exact IH.
Qed.

(** [startServer] always settles. *)
Lemma startServer_settles (now : N) (evs : list (N * event)) :
  settled (startServer now evs) = true.
Proof.
  rewrite startServer_firstBefore.
  assert (∀ due l ev, firstBefore due l = Some ev → settles ev = true) as Hs.
  { intros due l. induction l as [|[t e] l IH]; intros ev H; [discriminate H|].
    cbn in H. destruct (due <=? t); [discriminate H|].
    destruct (settles e) eqn:He; [|exact (IH ev H)]. congruence. }
  destruct (firstBefore _ evs) as [ev|] eqn:Hf; [|reflexivity].
  apply settles_verdict, (Hs _ _ _ Hf).
Qed.

End PortFacts.

Section PortClaims.

Import Port.

Local Open Scope N_scope.

(** The actions of [login] before the [try] block. *)
Lemma login_port_rejected (clientId : string) (environment : Flow.Environment)
    (adfs : bool) (tenantId : string) (w : Flow.world) (e : exn) :
  Flow.web w = false →
  Flow.portResult w = Rejected e →
  Flow.login clientId environment adfs tenantId w =
    (((if adfs && Flow.predecessor w then [Flow.TerminatePredecessor] else [])
        ++ [Flow.CreateServer (Flow.nonce w)]
        ++ (if adfs then [Flow.CreateTerminateServer] else [])
        ++ [Flow.StartServer adfs; Flow.SetTimeout Flow.CloseTimer 5000])%list,
     Flow.Thrown e).
Proof.
  intros Hweb Hport. unfold Flow.login, Flow.attempt. rewrite Hweb, Hport.
  cbn [Flow.finally]. f_equal. rewrite <- !app_assoc. reflexivity.
Qed.

(** C6. [startServer] called at time [now] fails with the timeout error
    when no event settles the port within 5000 ms, with the error of the
    server's ['error'] event when binding fails first, and with the error
    [Closed] when the server closes first; and when [startServer] fails,
    [login] throws that error having done nothing after [startServer] but
    scheduling the close of the server: the sign-in page is not opened, no
    redirect is written, no code is exchanged. *)
Theorem startServer_failure_stops_login
    (now : N) (evs : list (N * event))
    (clientId : string) (environment : Flow.Environment)
    (adfs : bool) (tenantId : string) (w : Flow.world) :
  ((∀ t ev, (t, ev) ∈ evs → t < now + 5000 → settles ev = false) →
   startServer now evs = Rejected (Error "Timeout waiting for port")) ∧
  (∀ pre t err post,
     evs = (pre ++ (t, ErrorEvent err) :: post)%list →
     Forall (λ e, e.1 < now + 5000 ∧ settles e.2 = false) pre →
     t < now + 5000 →
     startServer now evs = Rejected err) ∧
  (∀ pre t post,
     evs = (pre ++ (t, Close) :: post)%list →
     Forall (λ e, e.1 < now + 5000 ∧ settles e.2 = false) pre →
     t < now + 5000 →
     startServer now evs = Rejected (Error "Closed")) ∧
  (∀ e,
     Flow.web w = false →
     Flow.portResult w = startServer now evs →
     startServer now evs = Rejected e →
     Flow.login clientId environment adfs tenantId w =
       (((if adfs && Flow.predecessor w then [Flow.TerminatePredecessor] else [])
           ++ [Flow.CreateServer (Flow.nonce w)]
           ++ (if adfs then [Flow.CreateTerminateServer] else [])
           ++ [Flow.StartServer adfs; Flow.SetTimeout Flow.CloseTimer 5000])%list,
        Flow.Thrown e)).
Proof.
  change (now + 5000) with (now + portTimeout).
  split; [|split; [|split]].
  - intros Hquiet. rewrite startServer_firstBefore.
    rewrite (firstBefore_quiet _ _ Hquiet). reflexivity.
  - intros pre t err post -> Hpre Ht. rewrite startServer_firstBefore.
    rewrite (firstBefore_first _ pre post t (ErrorEvent err) Hpre Ht eq_refl).
    reflexivity.
  - intros pre t post -> Hpre Ht. rewrite startServer_firstBefore.
    rewrite (firstBefore_first _ pre post t Close Hpre Ht eq_refl).
    reflexivity.
  - intros e Hweb Hport Hfail. apply login_port_rejected; [exact Hweb|].
    rewrite Hport. exact Hfail.
Qed.

Lemma startServer_failure_stops_login_witness :
  startServer 0 [(2, Listening AddressNull); (6000, Listening (AddressInfo 51234))]
    = Rejected (Error "Timeout waiting for port") ∧
  startServer 0 [(3, ErrorEvent (SystemError "listen EADDRINUSE"))]
    = Rejected (SystemError "listen EADDRINUSE") ∧
  startServer 0 [(3, Close)] = Rejected (Error "Closed") ∧
  Flow.login Samples.clientId Samples.azureCloud false "common" Samples.portInUse =
    ([Flow.CreateServer "abc="; Flow.StartServer false;
      Flow.SetTimeout Flow.CloseTimer 5000],
     Flow.Thrown (SystemError "listen EADDRINUSE")).
Proof.
  split; [|split; [|split]].
  - apply (startServer_failure_stops_login 0
             [(2, Listening AddressNull); (6000, Listening (AddressInfo 51234))]
             Samples.clientId Samples.azureCloud false "common" Samples.portInUse).
    intros t ev Hin Ht.
    apply elem_of_cons in Hin as [Heq | Hin].
    + inversion Heq. reflexivity.
    + apply elem_of_cons in Hin as [Heq | Hin].
      * inversion Heq; subst. vm_compute in Ht. discriminate Ht.
      * apply elem_of_nil in Hin. destruct Hin.
  - apply (startServer_failure_stops_login 0
             [(3, ErrorEvent (SystemError "listen EADDRINUSE"))]
             Samples.clientId Samples.azureCloud false "common" Samples.portInUse)
      with (pre := []) (t := 3) (post := []);
      [reflexivity | constructor | reflexivity].
  - apply (startServer_failure_stops_login 0 [(3, Close)]
             Samples.clientId Samples.azureCloud false "common" Samples.portInUse)
      with (pre := []) (t := 3) (post := []);
      [reflexivity | constructor | reflexivity].
  - apply (startServer_failure_stops_login 0
             [(3, ErrorEvent (SystemError "listen EADDRINUSE"))]
             Samples.clientId Samples.azureCloud false "common" Samples.portInUse);
      reflexivity.
Defined.

End PortClaims.

(** ** Forced shutdown *)

Section TerminateClaims.

Import Terminate.

Lemma run_app (st : state) (evs evs' : list event) :
  run st (evs ++ evs')%list = run (run st evs) evs'.
Proof. apply foldl_app. Qed.

(** Every tracked id is below the counter, so a new connection never
    takes the place of a tracked socket. *)
Lemma ids_below_count (history : list event) (id : nat) :
  is_Some (sockets (run createTerminateServer history) !! id) →
  (id < socketCount (run createTerminateServer history))%nat.
Proof.
  induction history as [|ev history IH] using rev_ind in id |- *.
  - cbn. rewrite lookup_empty. intros [x Hx]. discriminate Hx.
  - rewrite run_app. cbn [run foldl]. fold (run createTerminateServer history).
    destruct ev; cbn [step sockets socketCount]; intros Hsome.
    + destruct (decide (id = socketCount (run createTerminateServer history)))
        as [->|Hne]; [lia|].
      rewrite lookup_insert_ne in Hsome by congruence.
      specialize (IH id Hsome). lia.
    + destruct (decide (id0 = id)) as [->|Hne].
      * rewrite lookup_delete_eq in Hsome. destruct Hsome as [x Hx]. discriminate Hx.
      * rewrite lookup_delete_ne in Hsome by exact Hne. exact (IH id Hsome).
    + exact (IH id Hsome).
    + exact (IH id Hsome).
Qed.

(** The sockets destroyed by a terminate call are the tracked ones. *)
Lemma tracked_sockets (m : gmap nat socket) (s : socket) :
  s ∈ (tracked m).*2 ↔ ∃ id, m !! id = Some s.
Proof.
  unfold tracked. rewrite merge_sort_Permutation.
  rewrite list_elem_of_fmap. split.
  - intros [[id s'] [-> Hin]]. exists id. apply elem_of_map_to_list. exact Hin.
  - intros [id Hid]. exists (id, s). split; [reflexivity|].
    apply elem_of_map_to_list. exact Hid.
Qed.

(** Without a further terminate call the returned promise changes only
    at the close callback. *)
Lemma result_after (st : state) (evs : list event) (p : promise unit) :
  Terminate ∉ evs →
  result st = Some p →
  (CloseCallback ∉ evs → result (run st evs) = Some p) ∧
  (CloseCallback ∈ evs → result (run st evs) = Some (resolve () p)).
Proof.
  revert st p. induction evs as [|ev evs IH]; intros st p Hterm Hres.
  - split; [intros _; exact Hres | intros Hin; apply elem_of_nil in Hin; destruct Hin].
  - apply not_elem_of_cons in Hterm as [Hev Hterm].
    cbn [run foldl]. fold (run (step st ev) evs).
    destruct ev; try congruence.
    + destruct (IH (step st (Connection s)) p Hterm Hres) as [Hno Hyes].
      split; intros H.
      * apply Hno. apply not_elem_of_cons in H as [_ H]. exact H.
      * apply Hyes. apply elem_of_cons in H as [H|H]; [discriminate H | exact H].
    + destruct (IH (step st (SocketClose id)) p Hterm Hres) as [Hno Hyes].
      split; intros H.
      * apply Hno. apply not_elem_of_cons in H as [_ H]. exact H.
      * apply Hyes. apply elem_of_cons in H as [H|H]; [discriminate H | exact H].
    + assert (result (step st CloseCallback) = Some (resolve () p)) as Hres'.
      { cbn. rewrite Hres. reflexivity. }
      destruct (IH (step st CloseCallback) (resolve () p) Hterm Hres') as [Hno Hyes].
      split; intros H.
      * apply not_elem_of_cons in H as [H _]. congruence.
      * assert (resolve () (resolve () p) = resolve () p) as Hidem
          by (destruct p; reflexivity).
        destruct (decide (CloseCallback ∈ evs)) as [Hin|Hnin].
        -- rewrite (Hyes Hin), Hidem. reflexivity.
        -- exact (Hno Hnin).
Qed.

(** C7. Whatever connections were opened and closed before, a terminate
    call closes the server and destroys exactly the sockets tracked at that
    moment; each connection is tracked under the next id of the counter and
    is dropped from tracking by the close event of that id alone; and the
    promise the call returns is pending until the callback given to
    [server.close] runs and fulfilled once it has. *)
Theorem terminate_destroys_tracked_and_awaits_close (history evs : list event) :
  let st := run createTerminateServer history in
  (∃ destroyed,
     performed (step st Terminate) =
       (performed st ++ ServerClose :: map Destroy destroyed)%list ∧
     ∀ s, s ∈ destroyed ↔ ∃ id, sockets st !! id = Some s) ∧
  (∀ s,
     sockets st !! socketCount st = None ∧
     sockets (step st (Connection s)) = <[socketCount st := s]> (sockets st) ∧
     socketCount (step st (Connection s)) = S (socketCount st)) ∧
  (∀ id id',
     sockets (step st (SocketClose id)) !! id' =
       if decide (id' = id) then None else sockets st !! id') ∧
  (Terminate ∉ evs →
   (CloseCallback ∉ evs → result (run (step st Terminate) evs) = Some Pending) ∧
   (CloseCallback ∈ evs → result (run (step st Terminate) evs) = Some (Fulfilled ()))).
Proof.
  intros st. split; [|split; [|split]].
  - exists (tracked (sockets st)).*2. split.
    + cbn [step performed]. do 2 f_equal.
      induction (tracked (sockets st)) as [|kv l IH]; [reflexivity|].
      cbn. rewrite IH. reflexivity.
    + apply tracked_sockets.
  - intros s. split; [|split; reflexivity].
    destruct (sockets st !! socketCount st) as [x|] eqn:Hx; [|reflexivity].
    pose proof (ids_below_count history (socketCount st)) as Hlt.
    fold st in Hlt. rewrite Hx in Hlt. specialize (Hlt (mk_is_Some _ _ eq_refl)). lia.
  - intros id id'. cbn [step sockets]. destruct (decide (id' = id)) as [->|Hne].
    + apply lookup_delete_eq.
    + apply lookup_delete_ne. congruence.
  - intros Hterm.
    apply (result_after (step st Terminate) evs Pending Hterm). reflexivity.
Qed.

Lemma terminate_destroys_tracked_and_awaits_close_witness :
  performed (run createTerminateServer [Connection 7; Connection 9; Terminate])
    = [ServerClose; Destroy 7; Destroy 9] ∧
  (Terminate ∉ [SocketClose 0; SocketClose 1; CloseCallback]) ∧
  (CloseCallback ∈ [SocketClose 0; SocketClose 1; CloseCallback]) ∧
  result (run (step (run createTerminateServer [Connection 7; Connection 9]) Terminate)
              [SocketClose 0; SocketClose 1; CloseCallback])
    = Some (Fulfilled ()).
Proof.
  assert (Terminate ∉ [SocketClose 0; SocketClose 1; CloseCallback]) as Hterm
    by (apply (bool_decide_unpack _); vm_compute; exact I).
  assert (CloseCallback ∈ [SocketClose 0; SocketClose 1; CloseCallback]) as Hclose
    by (apply (bool_decide_unpack _); vm_compute; exact I).
  split; [vm_compute; reflexivity|]. split; [exact Hterm|]. split; [exact Hclose|].
  apply (terminate_destroys_tracked_and_awaits_close
           [Connection 7; Connection 9]
           [SocketClose 0; SocketClose 1; CloseCallback]);
    [exact Hterm | exact Hclose].
Defined.

End TerminateClaims.

(** ** Splitting and searching strings *)

Section StringFacts.

Lemma append_assoc (a b c : string) : (a ++ b) ++ c = a ++ (b ++ c).
Proof.
  induction a as [|x a IH]; [reflexivity|].
  change (String x ((a ++ b) ++ c) = String x (a ++ (b ++ c))).
  rewrite IH. reflexivity.
Qed.

Lemma contains_app (c : ascii) (a b : string) :
  JS.contains c (a ++ b) = JS.contains c a || JS.contains c b.
Proof.
  induction a as [|x a IH]; [reflexivity|].
  simpl. rewrite IH. destruct (Ascii.eqb x c); reflexivity.
Qed.

Lemma splitOn_nonempty (sep : ascii) (s : string) : JS.splitOn sep s ≠ [].
Proof.
  destruct s as [|c rest]; [discriminate|].
  cbn. destruct (Ascii.eqb c sep); [discriminate|].
  destruct (JS.splitOn sep rest); discriminate.
Qed.

Lemma splitOn_free (sep : ascii) (a : string) :
  JS.contains sep a = false → JS.splitOn sep a = [a].
Proof.
  induction a as [|c a IH]; [reflexivity|].
  cbn. intros H. apply orb_false_elim in H as [Hc Ha].
  rewrite Hc, (IH Ha). reflexivity.
Qed.

Lemma splitOn_app_sep (sep : ascii) (a b : string) :
  JS.contains sep a = false →
  JS.splitOn sep (a ++ String sep b) = a :: JS.splitOn sep b.
Proof.
  induction a as [|c a IH]; intros H.
  - simpl. rewrite Ascii.eqb_refl. reflexivity.
  - simpl in *. apply orb_false_elim in H as [Hc Ha].
    rewrite Hc, (IH Ha). reflexivity.
Qed.

Lemma cutAt_free (sep : ascii) (a : string) :
  JS.contains sep a = false → Flow.cutAt sep a = (a, None).
Proof.
  induction a as [|c a IH]; [reflexivity|].
  cbn. intros H. apply orb_false_elim in H as [Hc Ha].
  rewrite Hc, (IH Ha). reflexivity.
Qed.

Lemma cutAt_app_sep (sep : ascii) (a b : string) :
  JS.contains sep a = false →
  Flow.cutAt sep (a ++ String sep b) = (a, Some b).
Proof.
  induction a as [|c a IH]; intros H.
  - simpl. rewrite Ascii.eqb_refl. reflexivity.
  - simpl in *. apply orb_false_elim in H as [Hc Ha].
    rewrite Hc, (IH Ha). reflexivity.
Qed.

Lemma hexDigit_unescaped_high (c : ascii) :
  JS.uriUnescaped (JS.hexDigit (N_of_ascii c / 16)) = true.
Proof. destruct c as [[] [] [] [] [] [] [] []]; reflexivity. Qed.

Lemma hexDigit_unescaped_low (c : ascii) :
  JS.uriUnescaped (JS.hexDigit (N_of_ascii c mod 16)) = true.
Proof. destruct c as [[] [] [] [] [] [] [] []]; reflexivity. Qed.

Lemma eqb_unescaped (x c : ascii) :
  JS.uriUnescaped x = true → JS.uriUnescaped c = false → Ascii.eqb x c = false.
Proof.
  intros Hx Hc. destruct (Ascii.eqb_spec x c) as [->|]; [congruence | reflexivity].
Qed.

(** An encoded string consists of unescaped characters and [%]. *)
Lemma encode_contains (c : ascii) (s : string) :
  JS.uriUnescaped c = false →
  Ascii.eqb "%" c = false →
  JS.contains c (JS.encodeURIComponent s) = false.
Proof.
  intros Hc Hpct. induction s as [|x s IH]; [reflexivity|].
  cbn [JS.encodeURIComponent]. destruct (JS.uriUnescaped x) eqn:Hx.
  - cbn [JS.contains]. rewrite (eqb_unescaped x c Hx Hc), IH. reflexivity.
  - unfold JS.escapeOctet. cbn [JS.contains].
    rewrite Hpct, IH.
    rewrite (eqb_unescaped _ c (hexDigit_unescaped_high x) Hc).
    rewrite (eqb_unescaped _ c (hexDigit_unescaped_low x) Hc).
    reflexivity.
Qed.

Lemma encode_no_ampersand (s : string) :
  JS.contains "&" (JS.encodeURIComponent s) = false.
Proof. apply encode_contains; reflexivity. Qed.

Lemma encode_no_equals (s : string) :
  JS.contains "=" (JS.encodeURIComponent s) = false.
Proof. apply encode_contains; reflexivity. Qed.

(** The [Host] header pattern accepts exactly [host:digits]. *)
Lemma hostPortGroup_accepts (seen : bool) (h d : string) :
  seen || JS.truthy h = true →
  JS.contains ":" h = false →
  JS.truthy d = true →
  JS.allDigits d = true →
  Flow.hostPortGroup seen (h ++ String ":" d) = Some d.
Proof.
  revert seen. induction h as [|c h IH]; intros seen Hseen Hcolon Hd Hdigits.
  - simpl in Hseen. rewrite orb_false_r in Hseen.
    simpl. rewrite Hseen, Hd, Hdigits. reflexivity.
  - simpl in Hcolon. apply orb_false_elim in Hcolon as [Hc Hh].
    simpl. rewrite Hc. apply IH; auto.
Qed.


End StringFacts.

(** ** The orchestrator *)

Section OrchestratorClaims.

Import Flow.

(** After a successful redirect, [login] answers the browser with a 302
    to the sign-in URL built around the rebuilt state. *)
Lemma login_redirects_to_sign_in
    (clientId : string) (environment : Environment) (adfs : bool)
    (tenantId : string) (w : world) (port p : N)
    (req : Server.request) (res : Server.response) :
  web w = false →
  portResult w = Fulfilled port →
  openUriResult w = Ok () →
  redirectResult w = Fulfilled (Server.RedirectReq req res) →
  updatedPort (Server.host req) port = Some p →
  Redirect res
    (authorizeEndpoint environment adfs tenantId ++ "?"
       ++ signInQuery clientId environment
            (if adfs then redirectUrlADFS else redirectUrlAAD)
            (loopbackState p (nonce w)))
    ∈ (login clientId environment adfs tenantId w).1.
Proof.
  intros Hweb Hport Hopen Hredirect Hupdated.
  unfold login, attempt. rewrite Hweb, Hport, Hopen, Hredirect, Hupdated.
  destruct (codeResult w) as [|[code res'|err res']|e]; cbn [fst].
  - set_solver.
  - destruct (tokenResult w (Some code)); cbn [fst]; set_solver.
  - set_solver.
  - set_solver.
Qed.

Lemma updatedPort_header (header : string) (port : N) :
  updatedPort (Some header) port =
    match hostPortGroup false header with
    | Some updatedPortStr =>
        if JS.truthy updatedPortStr then parseInt10 updatedPortStr else Some port
    | None => Some port
    end.
Proof. reflexivity. Qed.



End OrchestratorClaims.

(** ** The authorization URL *)

Section AuthorizationUrl.

Import Flow.

Lemma queryParam_skip (name seg rest : string) :
  JS.contains "&" seg = false →
  String.eqb (cutAt "=" seg).1 name = false →
  queryParam name (seg ++ String "&" rest) = queryParam name rest.
Proof.
  intros Hseg Hkey. unfold queryParam.
  rewrite (splitOn_app_sep "&" seg rest Hseg). cbn [List.find].
  rewrite Hkey. reflexivity.
Qed.

Lemma queryParam_hit (name v rest : string) :
  JS.contains "&" name = false →
  JS.contains "=" name = false →
  JS.contains "&" v = false →
  queryParam name (name ++ String "=" (v ++ String "&" rest)) = Some v.
Proof.
  intros Hamp Heq Hv. unfold queryParam.
  change (name ++ String "=" (v ++ String "&" rest))
    with (name ++ (String "=" v) ++ String "&" rest).
  rewrite <- append_assoc.
  rewrite (splitOn_app_sep "&" (name ++ String "=" v) rest).
  - cbn [List.find]. rewrite (cutAt_app_sep "=" name v Heq). cbn [fst snd].
    rewrite String.eqb_refl, (cutAt_app_sep "=" name v Heq). reflexivity.
  - rewrite contains_app, Hamp. simpl. exact Hv.
Qed.

(** The third parameter of both authorization queries. *)
Lemma queryParam_redirect_uri (client value rest : string) :
  JS.contains "&" client = false →
  JS.contains "&" value = false →
  queryParam "redirect_uri"
    ("response_type=code&client_id=" ++ client
       ++ "&redirect_uri=" ++ value ++ String "&" rest) = Some value.
Proof.
  intros Hclient Hvalue.
  change ("response_type=code&client_id=" ++ client
            ++ "&redirect_uri=" ++ value ++ String "&" rest)
    with ("response_type=code" ++ String "&"
            ("client_id=" ++ client
               ++ String "&" ("redirect_uri" ++ String "=" (value ++ String "&" rest)))).
  rewrite queryParam_skip by reflexivity.
  replace ("client_id=" ++ client
             ++ String "&" ("redirect_uri" ++ String "=" (value ++ String "&" rest)))
    with (("client_id=" ++ client)
            ++ String "&" ("redirect_uri" ++ String "=" (value ++ String "&" rest)))
    by apply append_assoc.
  rewrite queryParam_skip.
  - apply queryParam_hit; [reflexivity | reflexivity | exact Hvalue].
  - rewrite contains_app, Hclient. reflexivity.
  - reflexivity.
Qed.

(** C2, as the claim is worded, fails: the query that
    [loginWithoutLocalServer] opens has the redirect URL as it is, and the
    sign-in URL that [login] redirects to has it URL-encoded. *)
Lemma redirect_uri_asymmetry_is_the_other_way :
  (∃ endpoint query,
     (login Samples.clientId Samples.azureCloud false "common" Samples.browser).1
       = [OpenExternal endpoint query] ∧
     queryParam "redirect_uri" query
       = Some "https://vscode-redirect.azurewebsites.net/" ∧
     queryParam "redirect_uri" query ≠ Some (JS.encodeURIComponent redirectUrlAAD)) ∧
  (∃ query,
     Redirect 1%nat ("https://login.microsoftonline.com/common/oauth2/authorize?" ++ query)
       ∈ (login Samples.clientId Samples.azureCloud false "common" Samples.forwarded).1 ∧
     queryParam "redirect_uri" query
       = Some "https%3A%2F%2Fvscode-redirect.azurewebsites.net%2F" ∧
     queryParam "redirect_uri" query ≠ Some redirectUrlAAD).
Proof.
  split.
  - eexists _, _. split; [vm_compute; reflexivity|].
    split; [vm_compute; reflexivity | vm_compute; discriminate].
  - exists (signInQuery Samples.clientId Samples.azureCloud redirectUrlAAD
              (loopbackState 60000 "abc=")).
    split; [|split; [vm_compute; reflexivity | vm_compute; discriminate]].
    apply (login_redirects_to_sign_in Samples.clientId Samples.azureCloud false
             "common" Samples.forwarded 51234 60000 Samples.signinForwarded 1%nat);
      reflexivity.
Qed.

(** C2, amended. The [redirect_uri] parameter is the redirect URL as it
    is in the query that [loginWithoutLocalServer] opens, and the
    URL-encoded redirect URL in the sign-in URL that [login] redirects the
    browser to; the two differ for both redirect URLs. *)
Theorem redirect_uri_encoded_by_login_only
    (clientId : string) (environment : Environment) (adfs : bool)
    (tenantId : string) (w : world) :
  (∃ endpoint query,
     (loginWithoutLocalServer clientId environment adfs tenantId w).1
       = [OpenExternal endpoint query] ∧
     queryParam "redirect_uri" query = Some redirectUrlAAD) ∧
  (∀ port p req res,
     web w = false →
     portResult w = Fulfilled port →
     openUriResult w = Ok () →
     redirectResult w = Fulfilled (Server.RedirectReq req res) →
     updatedPort (Server.host req) port = Some p →
     ∃ query,
       Redirect res (authorizeEndpoint environment adfs tenantId ++ "?" ++ query)
         ∈ (login clientId environment adfs tenantId w).1 ∧
       queryParam "redirect_uri" query
         = Some (JS.encodeURIComponent
                   (if adfs then redirectUrlADFS else redirectUrlAAD))) ∧
  JS.encodeURIComponent redirectUrlAAD ≠ redirectUrlAAD ∧
  JS.encodeURIComponent redirectUrlADFS ≠ redirectUrlADFS.
Proof.
  split; [|split; [|split; vm_compute; discriminate]].
  - eexists _, _. split; [reflexivity|].
    unfold externalQuery.
    apply (queryParam_redirect_uri (JS.encodeURIComponent clientId) redirectUrlAAD);
      [apply encode_no_ampersand | reflexivity].
  - intros port p req res Hweb Hport Hopen Hredirect Hupdated.
    eexists. split.
    + apply (login_redirects_to_sign_in clientId environment adfs tenantId
               w port p req res Hweb Hport Hopen Hredirect Hupdated).
    + unfold signInQuery.
      apply (queryParam_redirect_uri (JS.encodeURIComponent clientId));
        apply encode_no_ampersand.
Qed.

Lemma redirect_uri_encoded_by_login_only_witness :
  web Samples.forwarded = false ∧
  portResult Samples.forwarded = Fulfilled 51234%N ∧
  openUriResult Samples.forwarded = Ok () ∧
  redirectResult Samples.forwarded
    = Fulfilled (Server.RedirectReq Samples.signinForwarded 1%nat) ∧
  updatedPort (Server.host Samples.signinForwarded) 51234 = Some 60000%N ∧
  ∃ query,
    Redirect 1%nat
      (authorizeEndpoint Samples.azureCloud false "common" ++ "?" ++ query)
      ∈ (login Samples.clientId Samples.azureCloud false "common" Samples.forwarded).1 ∧
    queryParam "redirect_uri" query = Some (JS.encodeURIComponent redirectUrlAAD).
Proof.
  do 5 (split; [reflexivity|]).
  destruct (redirect_uri_encoded_by_login_only Samples.clientId Samples.azureCloud
              false "common" Samples.forwarded) as (_ & Hlogin & _).
  apply (Hlogin 51234%N 60000%N Samples.signinForwarded 1%nat); reflexivity.
Defined.

End AuthorizationUrl.

(** ** The state check *)

Section StateCheck.

Import Flow.

(** A callback that returns a code has seen the session nonce, spaces
    replaced, between the first two commas of [state]. *)
Lemma callback_ok_nonce (nonce : string) (q : gmap string Server.queryValue)
    (code : string) :
  Server.callback nonce (Some q) = Ok code →
  Server.stateNonce (Server.getQueryProp q "state") = nonce.
Proof.
  unfold Server.callback.
  destruct (JS.truthy (JS.or_else _ _)) eqn:Herr; cbn [negb].
  - rewrite Herr. cbn. discriminate.
  - destruct (String.eqb_spec (Server.stateNonce (Server.getQueryProp q "state")) nonce)
      as [Heq|Hne]; [intros _; exact Heq|].
    cbn. discriminate.
Qed.

Lemma checkState_same (state : string) : checkState (Some state) state = Ok ().
Proof. unfold checkState. rewrite bool_decide_eq_true_2; reflexivity. Qed.

Lemma checkState_decoded (received state : string) :
  JS.decodeURIComponent received = Some state →
  checkState (Some received) state = Ok ().
Proof.
  intros Hdec. unfold checkState. case_bool_decide; [reflexivity|].
  cbn [JS.toStringOrUndefined]. rewrite Hdec, String.eqb_refl. reflexivity.
Qed.

(** What [parseQuery] reads from a query of two parameters. *)
Lemma parseQuery_code_state (code state : string) :
  JS.contains "&" code = false → JS.contains "=" code = false →
  JS.contains "&" state = false → JS.contains "=" state = false →
  prop (parseQuery ("code=" ++ code ++ "&state=" ++ state)) Code = Some code ∧
  prop (parseQuery ("code=" ++ code ++ "&state=" ++ state)) State = Some state.
Proof.
  intros Hca Hce Hsa Hse. unfold parseQuery.
  change ("code=" ++ code ++ "&state=" ++ state)
    with ("code=" ++ code ++ String "&" ("state=" ++ state)).
  rewrite <- append_assoc.
  rewrite (splitOn_app_sep "&" ("code=" ++ code) ("state=" ++ state))
    by (rewrite contains_app, Hca; reflexivity).
  rewrite (splitOn_free "&" ("state=" ++ state))
    by (rewrite contains_app, Hsa; reflexivity).
  change ("code=" ++ code) with ("code" ++ String "=" code).
  change ("state=" ++ state) with ("state" ++ String "=" state).
  cbn [foldl].
  rewrite (splitOn_app_sep "=" "code" code eq_refl), (splitOn_free "=" code Hce).
  rewrite (splitOn_app_sep "=" "state" state eq_refl), (splitOn_free "=" state Hse).
  cbn [lookup list_lookup default from_option id].
  change (String.eqb "code" "__proto__") with false.
  change (String.eqb "state" "__proto__") with false.
  unfold prop, fieldName. cbv iota.
  split.
  - rewrite lookup_insert_ne by discriminate. rewrite lookup_insert_eq. reflexivity.
  - rewrite lookup_insert_eq. reflexivity.
Qed.

(** C1, as the claim is worded, fails: the [/callback] handler compares
    the nonce segment as the query parser delivers it, so a nonce that was
    percent-encoded once more than expected, whether the parser has decoded
    it once or not at all, is a nonce mismatch. *)
Lemma callback_rejects_nonce_encoded_once_more :
  JS.encodeURIComponent (JS.encodeURIComponent "abc=") = "abc%253D" ∧
  Server.query Samples.callbackTwiceRaw !! "state" = Some (Server.Str "51234,abc%253D") ∧
  Server.query Samples.callbackTwice !! "state" = Some (Server.Str "51234,abc%3D") ∧
  Server.callback "abc=" (Some (Server.query Samples.callbackTwice))
    = Throw (Error "Nonce does not match.") ∧
  Server.callback "abc=" (Some (Server.query Samples.callbackTwiceRaw))
    = Throw (Error "Nonce does not match.") ∧
  Server.codePromise
    (Server.serve "abc=" (Server.createServer 0) 10 Samples.callbackTwice 2%nat)
    = Fulfilled (Server.CodeErr (Error "Nonce does not match.") 2%nat).
Proof. repeat split; vm_compute; reflexivity. Qed.

(** C1, amended. The tolerance for a [state] that is percent-encoded once
    more than expected belongs to the URI handler of the variant without a
    local server: it accepts the state it sent, and it accepts what one
    pass of [decodeURIComponent] turns into that state, among which the
    state encoded once more; a URI carrying the state in that form leads
    to the token exchange with the code it carries.  The [/callback]
    handler of the loopback server only returns a code when the nonce
    segment of [state], spaces replaced by [+], is the session nonce
    itself. *)
Theorem uri_handler_accepts_state_encoded_once_more
    (state : string) (token : option string → result TokenResponse) :
  JS.wellFormed state = true →
  checkState (Some state) state = Ok () ∧
  (∀ received,
     JS.decodeURIComponent received = Some state →
     checkState (Some received) state = Ok ()) ∧
  checkState (Some (JS.encodeURIComponent state)) state = Ok () ∧
  (∀ code,
     JS.contains "&" code = false → JS.contains "=" code = false →
     onUri state token ("code=" ++ code ++ "&state=" ++ JS.encodeURIComponent state)
       = token (Some code)) ∧
  (∀ nonce q code,
     Server.callback nonce (Some q) = Ok code →
     Server.stateNonce (Server.getQueryProp q "state") = nonce).
Proof.
  intros Hwf.
  assert (checkState (Some (JS.encodeURIComponent state)) state = Ok ()) as Henc
    by (apply checkState_decoded, decode_encode, Hwf).
  split; [apply checkState_same|].
  split; [intros received; apply checkState_decoded|].
  split; [exact Henc|].
  split; [|apply callback_ok_nonce].
  intros code Hamp Heq. unfold onUri.
  destruct (parseQuery_code_state code (JS.encodeURIComponent state) Hamp Heq
              (encode_no_ampersand state) (encode_no_equals state)) as [Hc Hs].
  rewrite Hc, Hs, Henc. reflexivity.
Qed.

Lemma uri_handler_accepts_state_encoded_once_more_witness :
  JS.wellFormed "user-repo.github.dev,443,abc%3D," = true ∧
  externalState Samples.codespace "abc=" = "user-repo.github.dev,443,abc%3D," ∧
  checkState (Some "user-repo.github.dev%2C443%2Cabc%253D%2C")
             "user-repo.github.dev,443,abc%3D," = Ok () ∧
  onUri "user-repo.github.dev,443,abc%3D," (λ code, Ok (default "" code))
        "code=XYZ&state=user-repo.github.dev%2C443%2Cabc%253D%2C" = Ok "XYZ".
Proof.
  destruct (uri_handler_accepts_state_encoded_once_more
              "user-repo.github.dev,443,abc%3D," (λ code, Ok (default "" code))
              eq_refl) as (_ & _ & Henc & Huri & _).
  split; [reflexivity|]. split; [reflexivity|]. split; [exact Henc|].
  apply (Huri "XYZ"); reflexivity.
Defined.

End StateCheck.

(** ** The scenarios of the specification, run on the model *)

Section Scenarios.

Import Server.

(** The nonce segment of a state [port,nonce]. *)
Lemma stateNonce_embedded (port nonce : string) :
  JS.contains "," port = false →
  JS.contains "," nonce = false →
  stateNonce (port ++ String "," nonce) = JS.replaceSpaces nonce.
Proof.
  intros Hport Hnonce. unfold stateNonce.
  rewrite (splitOn_app_sep "," port nonce Hport), (splitOn_free "," nonce Hnonce).
  cbn [lookup list_lookup default from_option id]. rewrite or_else_empty. reflexivity.
Qed.

(** Scenario A: the browser reaches [/signin] with the nonce, then the
    provider comes back to [/callback] with a code. *)
Example scenario_sign_in_then_code :
  let s1 := serve "abc=" (createServer 0) 10 Samples.signinGood 1%nat in
  let s2 := serve "abc=" s1 20 Samples.callbackGood 2%nat in
  redirectPromise s1 = Fulfilled (RedirectReq Samples.signinGood 1%nat) ∧
  codePromise s2 = Fulfilled (CodeOk "XYZ" 2%nat) ∧
  codeTimer s2 = None.
Proof. repeat split; vm_compute; reflexivity. Qed.

(** Scenario B: the provider reports an error. *)
Example scenario_provider_error :
  codePromise (serve "abc=" (createServer 0) 10 Samples.callbackDenied 2%nat)
    = Fulfilled (CodeErr (Error "User declined") 2%nat) ∧
  codePromise
    (serve "abc=" (createServer 0) 10
       (Samples.mkRequest "/callback" [("error", Str "access_denied")] None) 2%nat)
    = Fulfilled (CodeErr (Error "access_denied") 2%nat).
Proof. split; vm_compute; reflexivity. Qed.

(** No [/callback] within five minutes: the code timer rejects. *)
Example scenario_code_timeout :
  codePromise (serve "abc=" (createServer 0) 300000 Samples.callbackGood 2%nat)
    = Rejected (Error "Timeout waiting for code").
Proof. vm_compute. reflexivity. Qed.

(** A whole loopback attempt. *)
Example scenario_login :
  Flow.login Samples.clientId Samples.azureCloud false "common" Samples.happy =
    ([Flow.CreateServer "abc=";
      Flow.StartServer false;
      Flow.OpenUri "http://localhost:51234/signin?nonce=abc%3D";
      Flow.SetTimeout Flow.RedirectTimer 10000;
      Flow.ClearTimeout Flow.RedirectTimer;
      Flow.Redirect 1%nat
        ("https://login.microsoftonline.com/common/oauth2/authorize"
           ++ "?response_type=code&client_id=aebc6443-996d-45c2-90f0-388ff96faa56"
           ++ "&redirect_uri=https%3A%2F%2Fvscode-redirect.azurewebsites.net%2F"
           ++ "&state=51234,abc%3D"
           ++ "&resource=https%3A%2F%2Fmanagement.core.windows.net%2F"
           ++ "&prompt=select_account");
      Flow.Exchange Samples.clientId Flow.redirectUrlAAD "common" "XYZ";
      Flow.Redirect 2%nat "/";
      Flow.SetTimeout Flow.CloseTimer 5000],
     Flow.Returned "token").
Proof. vm_compute. reflexivity. Qed.

(** An attempt in a web host. *)
Example scenario_login_web :
  Flow.login Samples.clientId Samples.azureCloud false "common" Samples.browser =
    ([Flow.OpenExternal
        "https://login.microsoftonline.com/common/oauth2/authorize"
        ("response_type=code&client_id=aebc6443-996d-45c2-90f0-388ff96faa56"
           ++ "&redirect_uri=https://vscode-redirect.azurewebsites.net/"
           ++ "&state=user-repo.github.dev,443,abc%3D,"
           ++ "&resource=https://management.core.windows.net/"
           ++ "&prompt=select_account")],
     Flow.Returned "token").
Proof. vm_compute. reflexivity. Qed.

End Scenarios.

(** * Further properties of the source *)

(** Case analysis on a membership in a list written out with [++] and
    [::]. *)
Ltac in_cases H :=
  repeat first
    [ apply elem_of_app in H as [H|H]
    | apply elem_of_cons in H as [H|H]
    | apply elem_of_nil in H; destruct H ].

Ltac absent :=
  let H := fresh "Hin" in
  intros H; in_cases H; discriminate H.

Ltac present :=
  repeat rewrite elem_of_app; repeat rewrite elem_of_cons; auto 20.

(** ** The callback and the routes of the server *)

Section ServerFacts.

Import Server.

Lemma callback_ok_inv (nonce : string) (q : gmap string queryValue) (code : string) :
  callback nonce (Some q) = Ok code →
  JS.or_else (getQueryProp q "error_description") (getQueryProp q "error") = "" ∧
  stateNonce (getQueryProp q "state") = nonce ∧
  getQueryProp q "code" = code ∧
  code ≠ "".
Proof.
  unfold callback.
  destruct (JS.or_else (getQueryProp q "error_description") (getQueryProp q "error"))
    as [|c msg] eqn:Herr; cbn [JS.truthy negb andb]; [|discriminate].
  destruct (String.eqb_spec (stateNonce (getQueryProp q "state")) nonce) as [Hn|Hn];
    cbn [negb JS.truthy andb]; [|discriminate].
  destruct (getQueryProp q "code") as [|c code'] eqn:Hcode; cbn [JS.truthy];
    [discriminate|].
  intros H. inversion H; subst. repeat split; congruence.
Qed.

Lemma callback_ok_intro (nonce : string) (q : gmap string queryValue) (code : string) :
  JS.or_else (getQueryProp q "error_description") (getQueryProp q "error") = "" →
  stateNonce (getQueryProp q "state") = nonce →
  getQueryProp q "code" = code →
  code ≠ "" →
  callback nonce (Some q) = Ok code.
Proof.
  intros Herr Hn Hc Hne. unfold callback. rewrite Herr, Hn, Hc, String.eqb_refl.
  destruct code; [congruence | reflexivity].
Qed.

(** X1. [callback] returns a code exactly when the query has no error
    message, the nonce segment of [state] is the session nonce, and [code]
    is a non-empty string; the code returned is that parameter. *)
Theorem callback_returns_code_iff
    (nonce : string) (q : gmap string queryValue) (code : string) :
  callback nonce (Some q) = Ok code ↔
  JS.or_else (getQueryProp q "error_description") (getQueryProp q "error") = "" ∧
  stateNonce (getQueryProp q "state") = nonce ∧
  getQueryProp q "code" = code ∧
  code ≠ "".
Proof.
  split.
  - apply callback_ok_inv.
  - intros (Herr & Hn & Hc & Hne). apply callback_ok_intro; assumption.
Qed.

(** X2. A code is only ever returned for a [code] and a [state] that are
    single string parameters: a repeated [code] or [state] parameter, which
    the parser delivers as an array, makes the callback fail. *)
Theorem callback_needs_single_parameters
    (nonce : string) (q : gmap string queryValue) (code : string) :
  nonce ≠ "" →
  callback nonce (Some q) = Ok code →
  q !! "code" = Some (Str code) ∧
  ∃ state, q !! "state" = Some (Str state) ∧ stateNonce state = nonce.
Proof.
  intros Hnonce H. apply callback_ok_inv in H as (_ & Hn & Hc & Hne).
  unfold getQueryProp in Hc, Hn. split.
  - destruct (q !! "code") as [[v|l]|]; congruence.
  - destruct (q !! "state") as [[v|l]|].
    + exists v. split; [reflexivity | exact Hn].
    + cbv in Hn. congruence.
    + cbv in Hn. congruence.
Qed.

Lemma callback_needs_single_parameters_witness :
  "abc=" ≠ "" ∧
  callback "abc=" (Some (query Samples.callbackGood)) = Ok "XYZ" ∧
  query Samples.callbackGood !! "code" = Some (Str "XYZ") ∧
  ∃ state, query Samples.callbackGood !! "state" = Some (Str state) ∧
           stateNonce state = "abc=".
Proof.
  split; [discriminate|]. split; [vm_compute; reflexivity|].
  apply (callback_needs_single_parameters "abc=" (query Samples.callbackGood) "XYZ");
    [discriminate | vm_compute; reflexivity].
Defined.

Lemma replaceSpaces_plusAsSpace (s : string) :
  JS.contains " " s = false → JS.replaceSpaces (More.plusAsSpace s) = s.
Proof.
  induction s as [|c s IH]; [reflexivity|].
  simpl. intros H. apply orb_false_elim in H as [Hc Hs].
  rewrite (IH Hs). f_equal.
  destruct (Ascii.eqb_spec c "+") as [->|Hplus]; [reflexivity|].
  rewrite Hc. reflexivity.
Qed.

Lemma contains_plusAsSpace (s : string) :
  JS.contains "," (More.plusAsSpace s) = JS.contains "," s.
Proof.
  induction s as [|c s IH]; [reflexivity|].
  simpl. rewrite IH. f_equal.
  destruct (Ascii.eqb_spec c "+") as [->|Hplus]; reflexivity.
Qed.

(** X3. A nonce whose [+] characters arrive as spaces is still accepted,
    at [/signin] and, inside [state], at [/callback]: replacing spaces by
    [+] gives back every nonce that has no space of its own. *)
Theorem nonce_with_plus_read_as_space_is_accepted
    (nonce port code : string) (req : request) (res : response)
    (q : gmap string queryValue) :
  JS.contains " " nonce = false →
  JS.contains "," nonce = false →
  JS.contains "," port = false →
  code ≠ "" →
  (pathname req = "/signin" →
   query req !! "nonce" = Some (Str (More.plusAsSpace nonce)) →
   listener nonce req res = Ok [ResolveRedirect (RedirectReq req res)]) ∧
  (q !! "error" = None → q !! "error_description" = None →
   q !! "code" = Some (Str code) →
   q !! "state" = Some (Str (port ++ String "," (More.plusAsSpace nonce))) →
   callback nonce (Some q) = Ok code).
Proof.
  intros Hspace Hcomma Hport Hcode. split.
  - intros Hpath Hq. rewrite (listener_signin nonce req res _ Hpath Hq).
    cbn [valueToString]. rewrite (replaceSpaces_plusAsSpace nonce Hspace).
    rewrite String.eqb_refl. reflexivity.
  - intros He Hd Hc Hs.
    apply callback_ok_intro; unfold getQueryProp; rewrite ?He, ?Hd, ?Hc, ?Hs;
      [reflexivity | | reflexivity | exact Hcode].
    unfold stateNonce.
    rewrite (splitOn_app_sep "," port _ Hport).
    rewrite splitOn_free by (rewrite contains_plusAsSpace; exact Hcomma).
    cbn [lookup list_lookup default from_option id].
    rewrite or_else_empty. apply replaceSpaces_plusAsSpace, Hspace.
Qed.

Lemma nonce_with_plus_read_as_space_is_accepted_witness :
  listener "a+b=" (Samples.mkRequest "/signin" [("nonce", Str "a b=")] None) 1%nat
    = Ok [ResolveRedirect
            (RedirectReq (Samples.mkRequest "/signin" [("nonce", Str "a b=")] None) 1%nat)] ∧
  callback "a+b=" (Some (list_to_map [("code", Str "XYZ"); ("state", Str "51234,a b=")]))
    = Ok "XYZ".
Proof.
  pose proof (nonce_with_plus_read_as_space_is_accepted "a+b=" "51234" "XYZ"
                (Samples.mkRequest "/signin" [("nonce", Str "a b=")] None) 1%nat
                (list_to_map [("code", Str "XYZ"); ("state", Str "51234,a b=")])
                eq_refl eq_refl eq_refl) as [Hsignin Hcallback]; [discriminate|].
  split.
  - apply Hsignin; [reflexivity | vm_compute; reflexivity].
  - apply Hcallback; vm_compute; reflexivity.
Defined.

End ServerFacts.

(** ** The promises of a session *)

Section SessionFacts.

Import Server.

Lemma listener_not_signin (nonce : string) (req : request) (res : response) :
  pathname req ≠ "/signin" →
  ∀ calls r, listener nonce req res = Ok calls → ResolveRedirect r ∉ calls.
Proof.
  intros Hpath calls r. unfold listener.
  rewrite (eqb_string_false _ _ Hpath).
  repeat match goal with
         | |- context [String.eqb ?a ?b] => destruct (String.eqb a b)
         end;
    intros H; inversion H; subst; clear H;
    intros Hin;
    repeat (apply elem_of_cons in Hin as [Hin|Hin]; [discriminate Hin|]);
    apply elem_of_nil in Hin; exact Hin.
Qed.

Lemma listener_not_callback (nonce : string) (req : request) (res : response) :
  pathname req ≠ "/callback" →
  ∀ calls r, listener nonce req res = Ok calls → ResolveCode r ∉ calls.
Proof.
  intros Hpath calls r. unfold listener.
  destruct (String.eqb (pathname req) "/signin").
  - destruct (query req !! "nonce"); [|discriminate].
    destruct (String.eqb _ nonce); intros H; inversion H; subst; clear H;
      intros Hin;
      repeat (apply elem_of_cons in Hin as [Hin|Hin]; [discriminate Hin|]);
      apply elem_of_nil in Hin; exact Hin.
  - rewrite (eqb_string_false _ _ Hpath).
    repeat match goal with
           | |- context [String.eqb ?a ?b] => destruct (String.eqb a b)
           end;
      intros H; inversion H; subst; clear H;
      intros Hin;
      repeat (apply elem_of_cons in Hin as [Hin|Hin]; [discriminate Hin|]);
      apply elem_of_nil in Hin; exact Hin.
Qed.

Lemma foldl_perform_no_redirect (calls : list call) :
  (∀ r, ResolveRedirect r ∉ calls) →
  ∀ s, redirectPromise (foldl perform s calls) = redirectPromise s.
Proof.
  induction calls as [|c calls IH]; intros Hno s; [reflexivity|].
  cbn [foldl]. rewrite IH.
  - destruct c; try reflexivity.
    + destruct (Hno r). left.
    + cbn. unfold cancelCodeTimer. cbn.
      destruct (settled (resolve r (codePromise s))); reflexivity.
  - intros r Hin. apply (Hno r). right. exact Hin.
Qed.

Lemma foldl_perform_no_code (calls : list call) :
  (∀ r, ResolveCode r ∉ calls) →
  ∀ s, codePromise (foldl perform s calls) = codePromise s ∧
       codeTimer (foldl perform s calls) = codeTimer s.
Proof.
  induction calls as [|c calls IH]; intros Hno s; [split; reflexivity|].
  cbn [foldl].
  assert (∀ r, ResolveCode r ∉ calls) as Hno'
    by (intros r Hin; apply (Hno r); right; exact Hin).
  destruct (IH Hno' (perform s c)) as [-> ->].
  destruct c; try (split; reflexivity).
  destruct (Hno r). left.
Qed.

Lemma serve_not_signin (nonce : string) (s : session) (now : N)
    (req : request) (res : response) :
  pathname req ≠ "/signin" →
  redirectPromise (serve nonce s now req res) = redirectPromise s.
Proof.
  intros Hpath. unfold serve.
  destruct (listener nonce req res) as [calls|e] eqn:Hl.
  - rewrite foldl_perform_no_redirect; [apply advance_redirect|].
    intros r. exact (listener_not_signin nonce req res Hpath calls r Hl).
  - apply advance_redirect.
Qed.

(** X4. Only [/signin] can settle the redirect promise and only
    [/callback] can settle the code promise: a request for any other path
    leaves the redirect promise as it is, and leaves the code promise to
    its timer; a path the server does not know is answered with 404. *)
Theorem other_paths_settle_nothing
    (nonce : string) (s : session) (now : N) (req : request) (res : response) :
  (pathname req ≠ "/signin" →
   redirectPromise (serve nonce s now req res) = redirectPromise s) ∧
  (pathname req ≠ "/callback" →
   codePromise (serve nonce s now req res) = codePromise (advance now s)) ∧
  (pathname req ≠ "/signin" → pathname req ≠ "/callback" →
   pathname req ≠ "/" → pathname req ≠ "/main.css" →
   listener nonce req res = Ok [WriteHead res 404; End_ res]).
Proof.
  split; [|split].
  - apply serve_not_signin.
  - intros Hpath. unfold serve.
    destruct (listener nonce req res) as [calls|e] eqn:Hl; [|reflexivity].
    apply foldl_perform_no_code.
    intros r. exact (listener_not_callback nonce req res Hpath calls r Hl).
  - intros H1 H2 H3 H4. unfold listener.
    rewrite (eqb_string_false _ _ H1), (eqb_string_false _ _ H2),
      (eqb_string_false _ _ H3), (eqb_string_false _ _ H4).
    reflexivity.
Qed.

Lemma other_paths_settle_nothing_witness :
  let req := Samples.mkRequest "/favicon.ico" [] None in
  redirectPromise (serve "abc=" (createServer 0) 10 req 1%nat) = Pending ∧
  codePromise (serve "abc=" (createServer 0) 10 req 1%nat) = Pending ∧
  listener "abc=" req 1%nat = Ok [WriteHead 1%nat 404; End_ 1%nat].
Proof.
  cbv zeta.
  destruct (other_paths_settle_nothing "abc=" (createServer 0) 10
              (Samples.mkRequest "/favicon.ico" [] None) 1%nat) as (Hr & Hc & Hl).
  split; [|split].
  - rewrite Hr; [reflexivity | discriminate].
  - rewrite Hc; [reflexivity | discriminate].
  - apply Hl; discriminate.
Defined.

Lemma serveAll_snoc (nonce : string) (s : session)
    (reqs : list (N * request * response)) (r : N * request * response) :
  More.serveAll nonce s (reqs ++ [r]) =
    serve nonce (More.serveAll nonce s reqs) r.1.1 r.1.2 r.2.
Proof. unfold More.serveAll. rewrite foldl_app. reflexivity. Qed.

Lemma serve_redirect_not_rejected (nonce : string) (s : session) (now : N)
    (req : request) (res : response) :
  (∀ e, redirectPromise s ≠ Rejected e) →
  ∀ e, redirectPromise (serve nonce s now req res) ≠ Rejected e.
Proof.
  intros Hs e. unfold serve.
  destruct (listener nonce req res) as [calls|err] eqn:Hl;
    [|rewrite advance_redirect; apply Hs].
  assert (∀ calls s', (∀ e, redirectPromise s' ≠ Rejected e) →
                      redirectPromise (foldl perform s' calls) ≠ Rejected e) as Hfold.
  { clear. induction calls as [|c calls IH]; intros s' Hs'; [apply Hs'|].
    cbn [foldl]. apply IH. intros e'.
    destruct c; cbn; try apply Hs'.
    - destruct (redirectPromise s'); cbn; try discriminate. apply Hs'.
    - unfold cancelCodeTimer. cbn.
      destruct (settled (resolve r (codePromise s'))); apply Hs'. }
  apply Hfold. intros e'. rewrite advance_redirect. apply Hs.
Qed.

(** X5. The redirect promise is never rejected, whatever requests the
    server receives and whenever they arrive, and it stays pending as long
    as no request for [/signin] has come: waiting for the browser has no
    timeout of its own. *)
Theorem redirect_promise_never_rejects
    (nonce : string) (t0 : N) (reqs : list (N * request * response)) :
  (∀ e, redirectPromise (More.serveAll nonce (createServer t0) reqs) ≠ Rejected e) ∧
  (Forall (λ r, pathname r.1.2 ≠ "/signin") reqs →
   redirectPromise (More.serveAll nonce (createServer t0) reqs) = Pending).
Proof.
  split.
  - induction reqs as [|r reqs IH] using rev_ind; [discriminate|].
    rewrite serveAll_snoc. apply serve_redirect_not_rejected. exact IH.
  - induction reqs as [|r reqs IH] using rev_ind; intros Hall; [reflexivity|].
    apply Forall_app in Hall as [Hreqs Hr]. inversion Hr as [|? ? Hr' _]; subst.
    rewrite serveAll_snoc, (serve_not_signin nonce _ r.1.1 r.1.2 r.2 Hr').
    apply IH. exact Hreqs.
Qed.

Lemma redirect_promise_never_rejects_witness :
  Forall (λ r : N * request * response, pathname r.1.2 ≠ "/signin")
    [(10%N, Samples.callbackGood, 1%nat); (400000%N, Samples.callbackDenied, 2%nat)] ∧
  redirectPromise
    (More.serveAll "abc=" (createServer 0)
       [(10%N, Samples.callbackGood, 1%nat); (400000%N, Samples.callbackDenied, 2%nat)])
    = Pending.
Proof.
  assert (Forall (λ r : N * request * response, pathname r.1.2 ≠ "/signin")
            [(10%N, Samples.callbackGood, 1%nat);
             (400000%N, Samples.callbackDenied, 2%nat)]) as Hall
    by (repeat constructor; discriminate).
  split; [exact Hall|].
  apply (redirect_promise_never_rejects "abc=" 0
           [(10%N, Samples.callbackGood, 1%nat);
            (400000%N, Samples.callbackDenied, 2%nat)]).
  exact Hall.
Defined.

Lemma advance_tracks (t0 now : N) (s : session) :
  More.timerTracksPromise t0 s → More.timerTracksPromise t0 (advance now s).
Proof.
  unfold More.timerTracksPromise, advance.
  destruct (codeTimer s) as [due|] eqn:Ht; [|rewrite Ht; auto].
  intros [Hdue Hp]. destruct (due <=? now)%N; cbn; [|rewrite Ht; auto].
  rewrite Hp. reflexivity.
Qed.

Lemma perform_tracks (t0 : N) (s : session) (c : call) :
  More.timerTracksPromise t0 s → More.timerTracksPromise t0 (perform s c).
Proof.
  unfold More.timerTracksPromise. destruct c; cbn; auto.
  unfold cancelCodeTimer. cbn.
  destruct (codeTimer s) as [due|] eqn:Ht.
  - intros [Hdue Hp]. rewrite Hp. cbn. reflexivity.
  - intros Hs. destruct (codePromise s); [discriminate Hs | |]; cbn; reflexivity.
Qed.

Lemma serve_tracks (nonce : string) (t0 now : N) (s : session)
    (req : request) (res : response) :
  More.timerTracksPromise t0 s → More.timerTracksPromise t0 (serve nonce s now req res).
Proof.
  intros Hs. unfold serve. apply (advance_tracks t0 now) in Hs.
  destruct (listener nonce req res) as [calls|e]; [|exact Hs].
  revert Hs. generalize (advance now s).
  induction calls as [|c calls IH]; intros s' Hs'; [exact Hs'|].
  cbn [foldl]. apply IH, perform_tracks, Hs'.
Qed.

Lemma serveAll_tracks (nonce : string) (t0 : N) (reqs : list (N * request * response)) :
  More.timerTracksPromise t0 (More.serveAll nonce (createServer t0) reqs).
Proof.
  induction reqs as [|r reqs IH] using rev_ind; [cbn; auto|].
  rewrite serveAll_snoc. apply serve_tracks, IH.
Qed.

(** X6. Whatever requests the server has received, the code timer is
    armed exactly while the code promise is pending, and a request that
    arrives five minutes or more after [createServer] finds the code
    promise settled: when no [/callback] request came before, it is
    rejected with [Timeout waiting for code], even if that late request is
    a valid [/callback]. *)
Theorem code_promise_settles_by_deadline
    (nonce : string) (t0 now : N) (reqs : list (N * request * response))
    (req : request) (res : response) :
  (t0 + 300000 <= now)%N →
  (codeTimer (More.serveAll nonce (createServer t0) reqs) = None ↔
   settled (codePromise (More.serveAll nonce (createServer t0) reqs)) = true) ∧
  settled (codePromise
             (serve nonce (More.serveAll nonce (createServer t0) reqs) now req res))
    = true ∧
  (codePromise (More.serveAll nonce (createServer t0) reqs) = Pending →
   codePromise (serve nonce (More.serveAll nonce (createServer t0) reqs) now req res)
     = Rejected (Error "Timeout waiting for code")).
Proof.
  intros Hlate.
  pose proof (serveAll_tracks nonce t0 reqs) as Hinv.
  set (s := More.serveAll nonce (createServer t0) reqs) in *.
  assert (settled (codePromise (advance now s)) = true ∧
          (codePromise s = Pending →
           codePromise (advance now s) = Rejected (Error "Timeout waiting for code")))
    as [Hsettled Htimeout].
  { unfold More.timerTracksPromise in Hinv. unfold advance.
    destruct (codeTimer s) as [due|] eqn:Ht.
    - destruct Hinv as [Hdue Hp].
      destruct (N.leb_spec due now) as [_|Hlt];
        [|subst due; unfold codeTimeout in Hlt; lia].
      cbn. rewrite Hp. split; reflexivity.
    - split; [exact Hinv|]. intros Hp. rewrite Hp in Hinv. discriminate Hinv. }
  split; [|split].
  - unfold More.timerTracksPromise in Hinv. destruct (codeTimer s) as [due|].
    + destruct Hinv as [_ Hp]. rewrite Hp. split; discriminate.
    + split; auto.
  - unfold serve. destruct (listener nonce req res) as [calls|e]; [|exact Hsettled].
    rewrite foldl_perform_code_settled; exact Hsettled.
  - intros Hp. specialize (Htimeout Hp). unfold serve.
    destruct (listener nonce req res) as [calls|e]; [|exact Htimeout].
    rewrite foldl_perform_code_settled; [exact Htimeout | exact Hsettled].
Qed.

Lemma code_promise_settles_by_deadline_witness :
  (0 + 300000 <= 300000)%N ∧
  codePromise
    (serve "abc=" (More.serveAll "abc=" (createServer 0)
                     [(10%N, Samples.signinGood, 1%nat)])
           300000 Samples.callbackGood 2%nat)
    = Rejected (Error "Timeout waiting for code").
Proof.
  split; [vm_compute; discriminate|].
  apply (code_promise_settles_by_deadline "abc=" 0 300000
           [(10%N, Samples.signinGood, 1%nat)] Samples.callbackGood 2%nat);
    [vm_compute; discriminate | vm_compute; reflexivity].
Defined.

End SessionFacts.

(** ** Port acquisition, further *)

Section PortMore.

Import Port.

Local Open Scope N_scope.

(** The timer is armed exactly while the promise is pending. *)
Lemma run_armed_or_settled (now : N) (evs : list (N * event)) :
  let s := run evs (init now) in
  (s = {| port := Pending; portTimer := Some (now + portTimeout) |}) ∨
  (portTimer s = None ∧ settled (port s) = true).
Proof.
  cbv zeta. unfold init.
  generalize (now + portTimeout). intros due.
  induction evs as [|[t ev] evs IH] using rev_ind; [left; reflexivity|].
  assert (∀ l s, run (l ++ [(t, ev)]) s = handle ev (advance t (run l s))) as Hsnoc.
  { clear. induction l as [|[t' ev'] l IHl]; intros s; [reflexivity|].
    cbn [run app]. apply IHl. }
  rewrite Hsnoc. destruct IH as [-> | [Ht Hs]].
  - unfold advance. cbn [portTimer]. destruct (due <=? t).
    + right. cbn [reject port]. rewrite handle_settled by reflexivity.
      split; reflexivity.
    + rewrite handle_pending. destruct (settles ev) eqn:Hev.
      * right. split; [reflexivity | apply settles_verdict, Hev].
      * left. reflexivity.
  - right. destruct (run evs _) as [p timer]. cbn in Ht, Hs. subst timer.
    unfold advance. cbn [portTimer]. rewrite handle_settled by exact Hs.
    split; [reflexivity | exact Hs].
Qed.

(** X7. [startServer] yields a port exactly when the first event that
    settles anything within five seconds is a ['listening'] event with a
    port, and that port is what it yields; a ['listening'] event whose
    address is a string or null is passed over; and it never stays
    pending. *)
Theorem startServer_yields_first_port
    (now : N) (evs : list (N * event)) (p : N) :
  (startServer now evs = Fulfilled p ↔
   firstBefore (now + 5000) evs = Some (Listening (AddressInfo p))) ∧
  (∀ pre t post,
     evs = (pre ++ (t, Listening (AddressInfo p)) :: post)%list →
     Forall (λ e, e.1 < now + 5000 ∧ settles e.2 = false) pre →
     t < now + 5000 →
     startServer now evs = Fulfilled p) ∧
  startServer now evs ≠ Pending.
Proof.
  change (now + 5000) with (now + portTimeout).
  split; [|split].
  - rewrite startServer_firstBefore.
    destruct (firstBefore (now + portTimeout) evs) as [[[q| |]|err|]|] eqn:Hf;
      cbn [verdict]; split; intros H; try discriminate H; try congruence.
  - intros pre t post -> Hpre Ht. rewrite startServer_firstBefore.
    rewrite (firstBefore_first _ pre post t (Listening (AddressInfo p)) Hpre Ht eq_refl).
    reflexivity.
  - pose proof (startServer_settles now evs) as Hs.
    destruct (startServer now evs); [discriminate Hs | discriminate ..].
Qed.

Lemma startServer_yields_first_port_witness :
  startServer 0 [(2, Listening AddressNull); (40, Listening (AddressInfo 51234));
                 (50, ErrorEvent (SystemError "late")); (60, Close)]
    = Fulfilled 51234.
Proof.
  apply (startServer_yields_first_port 0
           [(2, Listening AddressNull); (40, Listening (AddressInfo 51234));
            (50, ErrorEvent (SystemError "late")); (60, Close)] 51234)
    with (pre := [(2, Listening AddressNull)]) (t := 40)
         (post := [(50, ErrorEvent (SystemError "late")); (60, Close)]).
  - reflexivity.
  - repeat constructor.
  - reflexivity.
Defined.

(** X8. Once the port promise has settled, its timer is cleared and
    nothing that happens later changes the outcome: an error or a close of
    the server after the port was obtained does not make [startServer]
    fail, and a late ['listening'] does not undo a failure. *)
Theorem startServer_outcome_is_final
    (now : N) (evs later : list (N * event)) :
  settled (port (run evs (init now))) = true →
  portTimer (run evs (init now)) = None ∧
  startServer now (evs ++ later) = port (run evs (init now)).
Proof.
  intros Hs.
  destruct (run_armed_or_settled now evs) as [Heq | [Ht _]].
  - rewrite Heq in Hs. discriminate Hs.
  - split; [exact Ht|].
    assert (∀ l l' s, run (l ++ l') s = run l' (run l s)) as Happ.
    { clear. induction l as [|[t' ev'] l IHl]; intros l' s; [reflexivity|].
      cbn [run app]. apply IHl. }
    unfold startServer. rewrite Happ.
    destruct (run evs (init now)) as [p timer]. cbn in Ht, Hs |- *. subst timer.
    rewrite run_settled by exact Hs. reflexivity.
Qed.

Lemma startServer_outcome_is_final_witness :
  settled (port (run [(40, Listening (AddressInfo 51234))] (init 0))) = true ∧
  startServer 0 ([(40, Listening (AddressInfo 51234))]
                   ++ [(50, ErrorEvent (SystemError "late")); (60, Close)])
    = Fulfilled 51234.
Proof.
  split; [reflexivity|].
  apply (startServer_outcome_is_final 0 [(40, Listening (AddressInfo 51234))]
           [(50, ErrorEvent (SystemError "late")); (60, Close)]).
  reflexivity.
Defined.

End PortMore.

(** ** The socket registry *)

Section RegistryFacts.

Import Terminate.

Lemma connections_app (h h' : list event) :
  More.connections (h ++ h') = (More.connections h + More.connections h')%nat.
Proof.
  induction h as [|ev h IH]; [reflexivity|].
  destruct ev; cbn; rewrite IH; reflexivity.
Qed.

Lemma socketCount_connections (history : list event) :
  socketCount (run createTerminateServer history) = More.connections history.
Proof.
  induction history as [|ev history IH] using rev_ind; [reflexivity|].
  rewrite run_app, connections_app. cbn [run foldl].
  destruct ev; cbn; rewrite IH; lia.
Qed.

(** The last element of a list split in two ways. *)
Lemma snoc_split {A} (pre post h : list A) (x y : A) :
  (pre ++ x :: post = h ++ [y])%list →
  (post = [] ∧ pre = h ∧ x = y) ∨
  (∃ post', post = (post' ++ [y])%list ∧ h = (pre ++ x :: post')%list).
Proof.
  destruct post as [|z post] using rev_ind.
  - intros H. apply app_inj_tail in H as [-> ->]. left. auto.
  - intros H. clear IHpost.
    change (pre ++ x :: post ++ [z])%list with (pre ++ (x :: post) ++ [z])%list in H.
    rewrite app_assoc in H. apply app_inj_tail in H as [<- ->].
    right. exists post. auto.
Qed.

Lemma tracked_step (history : list event) (ev : event) (id : nat) (s : socket) :
  (∀ s', ev ≠ Connection s') →
  ev ≠ SocketClose id →
  (∃ pre post, history = (pre ++ Connection s :: post)%list ∧
               More.connections pre = id ∧ SocketClose id ∉ post) ↔
  (∃ pre post, (history ++ [ev] = pre ++ Connection s :: post)%list ∧
               More.connections pre = id ∧ SocketClose id ∉ post).
Proof.
  intros Hconn Hclose. split.
  - intros (pre & post & -> & Hid & Hno).
    exists pre, (post ++ [ev])%list. split; [|split; [exact Hid|]].
    + rewrite <- app_assoc. reflexivity.
    + intros Hin. apply elem_of_app in Hin as [Hin|Hin]; [exact (Hno Hin)|].
      apply list_elem_of_singleton in Hin. congruence.
  - intros (pre & post & Heq & Hid & Hno).
    symmetry in Heq. apply snoc_split in Heq as [(_ & _ & Hx) | (post' & -> & ->)].
    + destruct (Hconn s). congruence.
    + exists pre, post'. split; [reflexivity|]. split; [exact Hid|].
      intros Hin. apply Hno, elem_of_app. left. exact Hin.
Qed.

(** X9. The registry holds a socket under an id exactly when that socket
    was the connection number [id] (counting from zero) and no close event
    of that id has come since; the counter is the number of connections so
    far, so no id is ever given twice. *)
Theorem registry_tracks_open_connections
    (history : list event) (id : nat) (s : socket) :
  socketCount (run createTerminateServer history) = More.connections history ∧
  (sockets (run createTerminateServer history) !! id = Some s ↔
   ∃ pre post,
     history = (pre ++ Connection s :: post)%list ∧
     More.connections pre = id ∧
     SocketClose id ∉ post).
Proof.
  split; [apply socketCount_connections|].
  induction history as [|ev history IH] using rev_ind.
  - cbn. rewrite lookup_empty. split; [discriminate|].
    intros (pre & post & H & _). destruct pre; discriminate H.
  - rewrite run_app. cbn [run foldl]. fold (run createTerminateServer history).
    destruct ev as [s'|id'| |].
    + cbn [step sockets]. rewrite socketCount_connections.
      destruct (decide (id = More.connections history)) as [->|Hne].
      * rewrite lookup_insert_eq. split.
        -- intros H. inversion H; subst. exists history, []. split; [reflexivity|].
           split; [reflexivity|]. apply not_elem_of_nil.
        -- intros (pre & post & Heq & Hid & _).
           symmetry in Heq. apply snoc_split in Heq as [(_ & _ & Hx) | (post' & _ & ->)].
           ++ congruence.
           ++ rewrite connections_app in Hid. cbn in Hid. lia.
      * rewrite lookup_insert_ne by congruence. rewrite IH. split.
        -- intros (pre & post & -> & Hid & Hno).
           exists pre, (post ++ [Connection s'])%list. split; [|split; [exact Hid|]].
           ++ rewrite <- app_assoc. reflexivity.
           ++ intros Hin. apply elem_of_app in Hin as [Hin|Hin]; [exact (Hno Hin)|].
              apply list_elem_of_singleton in Hin. discriminate Hin.
        -- intros (pre & post & Heq & Hid & Hno).
           symmetry in Heq.
           apply snoc_split in Heq as [(_ & -> & _) | (post' & -> & ->)].
           ++ congruence.
           ++ exists pre, post'. split; [reflexivity|]. split; [exact Hid|].
              intros Hin. apply Hno, elem_of_app. left. exact Hin.
    + cbn [step sockets]. destruct (decide (id' = id)) as [->|Hne].
      * rewrite lookup_delete_eq. split; [discriminate|].
        intros (pre & post & Heq & _ & Hno).
        symmetry in Heq. apply snoc_split in Heq as [(_ & _ & Hx) | (post' & -> & _)].
        -- discriminate Hx.
        -- destruct Hno. apply elem_of_app. right. left.
      * rewrite lookup_delete_ne by exact Hne. rewrite IH.
        apply tracked_step; [discriminate | congruence].
    + cbn [step sockets]. rewrite IH. apply tracked_step; discriminate.
    + cbn [step sockets]. rewrite IH. apply tracked_step; discriminate.
Qed.

End RegistryFacts.

(** ** The loopback attempt as a whole *)

Section LoginFacts.

Import Flow.

(** The error message shown on the result page. *)
Lemma errorLocation_message (err : exn) :
  errorLocation err =
    "/?error=" ++ JS.encodeURIComponent
                    (if JS.truthy (exnMessage err) then exnMessage err
                     else "Unknown error").
Proof. reflexivity. Qed.

Lemma attempt_never_schedules_close
    (clientId : string) (environment : Environment) (adfs : bool)
    (tenantId : string) (w : world) :
  SetTimeout CloseTimer 5000 ∉ (attempt clientId environment adfs tenantId w).1.
Proof.
  unfold attempt.
  destruct (portResult w) as [|port|e]; cbn [fst]; [absent | | absent].
  destruct (openUriResult w) as [[]|e]; cbn [fst]; [|absent].
  destruct (redirectResult w) as [|[req res|err res]|e]; cbn [fst];
    [absent | | absent | absent].
  destruct (updatedPort (Server.host req) port) as [p|]; cbn [fst]; [|absent].
  destruct (codeResult w) as [|[code res'|err res']|e]; cbn [fst];
    [absent | | absent | absent].
  destruct (tokenResult w (Some code)); cbn [fst]; absent.
Qed.

(** X10. Whenever a loopback attempt ends, by returning a token or by
    throwing, closing the server in five seconds is the last thing it
    schedules, exactly once; while it is still waiting for the browser or
    for the code, no close is scheduled. *)
Theorem login_schedules_close_exactly_when_it_ends
    (clientId : string) (environment : Environment) (adfs : bool)
    (tenantId : string) (w : world) :
  web w = false →
  match (login clientId environment adfs tenantId w).2 with
  | Returned _ | Thrown _ =>
      ∃ before,
        (login clientId environment adfs tenantId w).1
          = (before ++ [SetTimeout CloseTimer 5000])%list ∧
        SetTimeout CloseTimer 5000 ∉ before
  | Waiting | Unrepresented =>
      SetTimeout CloseTimer 5000 ∉ (login clientId environment adfs tenantId w).1
  end.
Proof.
  intros Hweb. unfold login. rewrite Hweb.
  pose proof (attempt_never_schedules_close clientId environment adfs tenantId w)
    as Hbody.
  destruct (attempt clientId environment adfs tenantId w) as [body out].
  cbn [fst snd] in *.
  assert (SetTimeout CloseTimer 5000 ∉
            ((if adfs && predecessor w then [TerminatePredecessor] else [])
               ++ [CreateServer (nonce w)]
               ++ (if adfs then [CreateTerminateServer] else []))%list) as Hsetup
    by (destruct adfs, (predecessor w); cbn; absent).
  assert (∀ l l' : list action,
            SetTimeout CloseTimer 5000 ∉ l → SetTimeout CloseTimer 5000 ∉ l' →
            SetTimeout CloseTimer 5000 ∉ (l ++ l')%list) as Happ.
  { intros l l' Hl Hl' Hin. apply elem_of_app in Hin as [Hin|Hin]; auto. }
  destruct out; cbn [finally].
  - eexists. split; [rewrite app_assoc; reflexivity|]. apply Happ; assumption.
  - eexists. split; [rewrite app_assoc; reflexivity|]. apply Happ; assumption.
  - rewrite app_nil_r. apply Happ; assumption.
  - rewrite app_nil_r. apply Happ; assumption.
Qed.

Lemma login_schedules_close_exactly_when_it_ends_witness :
  web Samples.happy = false ∧
  ∃ before,
    (login Samples.clientId Samples.azureCloud false "common" Samples.happy).1
      = (before ++ [SetTimeout CloseTimer 5000])%list ∧
    SetTimeout CloseTimer 5000 ∉ before.
Proof.
  split; [reflexivity|].
  exact (login_schedules_close_exactly_when_it_ends
           Samples.clientId Samples.azureCloud false "common" Samples.happy eq_refl).
Defined.

(** X11. A loopback attempt returns a token only when every stage has
    succeeded: the port was bound, the sign-in page was opened, the browser
    came to [/signin] with the nonce, [/callback] delivered a code, and the
    exchange of that very code gave the token returned; the browser is then
    sent to the result page [/]. *)
Theorem login_returns_only_after_every_stage
    (clientId : string) (environment : Environment) (adfs : bool)
    (tenantId : string) (w : world) (token : TokenResponse) :
  web w = false →
  (login clientId environment adfs tenantId w).2 = Returned token →
  ∃ port req res code res',
    portResult w = Fulfilled port ∧
    openUriResult w = Ok () ∧
    redirectResult w = Fulfilled (Server.RedirectReq req res) ∧
    codeResult w = Fulfilled (Server.CodeOk code res') ∧
    tokenResult w (Some code) = Ok token ∧
    Exchange clientId (if adfs then redirectUrlADFS else redirectUrlAAD) tenantId code
      ∈ (login clientId environment adfs tenantId w).1 ∧
    Redirect res' "/" ∈ (login clientId environment adfs tenantId w).1.
Proof.
  intros Hweb. unfold login, attempt. rewrite Hweb.
  destruct (portResult w) as [|port|e]; cbn [snd]; try discriminate.
  destruct (openUriResult w) as [[]|e]; cbn [snd]; try discriminate.
  destruct (redirectResult w) as [|[req res|err res]|e]; cbn [snd]; try discriminate.
  destruct (updatedPort (Server.host req) port) as [p|]; cbn [snd]; try discriminate.
  destruct (codeResult w) as [|[code res'|err res']|e]; cbn [snd]; try discriminate.
  destruct (tokenResult w (Some code)) as [t|e] eqn:Htoken; cbn [snd fst];
    try discriminate.
  intros H. inversion H; subst.
  exists port, req, res, code, res'.
  repeat split; try reflexivity; try exact Htoken; present.
Qed.

Lemma login_returns_only_after_every_stage_witness :
  web Samples.happy = false ∧
  (login Samples.clientId Samples.azureCloud false "common" Samples.happy).2
    = Returned "token" ∧
  ∃ port req res code res',
    portResult Samples.happy = Fulfilled port ∧
    openUriResult Samples.happy = Ok () ∧
    redirectResult Samples.happy = Fulfilled (Server.RedirectReq req res) ∧
    codeResult Samples.happy = Fulfilled (Server.CodeOk code res') ∧
    tokenResult Samples.happy (Some code) = Ok "token" ∧
    Exchange Samples.clientId redirectUrlAAD "common" code
      ∈ (login Samples.clientId Samples.azureCloud false "common" Samples.happy).1 ∧
    Redirect res' "/"
      ∈ (login Samples.clientId Samples.azureCloud false "common" Samples.happy).1.
Proof.
  split; [reflexivity|]. split; [reflexivity|].
  exact (login_returns_only_after_every_stage
           Samples.clientId Samples.azureCloud false "common" Samples.happy "token"
           eq_refl eq_refl).
Defined.

(** X12. The code exchange is attempted only with a code that
    [/callback] delivered, and only after the browser was sent to the
    sign-in URL: without such a code, be it a nonce mismatch, a provider
    error or the code timeout, no exchange takes place. *)
Theorem login_exchanges_only_a_delivered_code
    (clientId : string) (environment : Environment) (adfs : bool)
    (tenantId : string) (w : world) (c r t code : string) :
  web w = false →
  Exchange c r t code ∈ (login clientId environment adfs tenantId w).1 →
  c = clientId ∧ t = tenantId ∧
  r = (if adfs then redirectUrlADFS else redirectUrlAAD) ∧
  (∃ res, codeResult w = Fulfilled (Server.CodeOk code res)) ∧
  (∃ req res, redirectResult w = Fulfilled (Server.RedirectReq req res)).
Proof.
  intros Hweb. unfold login, attempt. rewrite Hweb.
  destruct adfs, (predecessor w);
    destruct (portResult w) as [|port|e]; cbn;
    try (intros Hin; in_cases Hin; discriminate Hin);
    (destruct (openUriResult w) as [[]|e']; cbn;
     try (intros Hin; in_cases Hin; discriminate Hin));
    (destruct (redirectResult w) as [|[req res|err res]|e']; cbn;
     try (intros Hin; in_cases Hin; discriminate Hin));
    (destruct (updatedPort (Server.host req) port) as [p|]; cbn;
     try (intros Hin; in_cases Hin; discriminate Hin));
    (destruct (codeResult w) as [|[code' res'|err res']|e']; cbn;
     try (intros Hin; in_cases Hin; discriminate Hin));
    (destruct (tokenResult w (Some code')) as [tok|e']; cbn;
     intros Hin; in_cases Hin; try discriminate Hin;
     inversion Hin; subst; repeat split; eauto).
Qed.

Lemma login_exchanges_only_a_delivered_code_witness :
  web Samples.happy = false ∧
  (Exchange Samples.clientId redirectUrlAAD "common" "XYZ"
     ∈ (login Samples.clientId Samples.azureCloud false "common" Samples.happy).1) ∧
  ∃ res, codeResult Samples.happy = Fulfilled (Server.CodeOk "XYZ" res).
Proof.
  assert (Exchange Samples.clientId redirectUrlAAD "common" "XYZ"
            ∈ (login Samples.clientId Samples.azureCloud false "common"
                 Samples.happy).1) as Hin
    by (vm_compute; repeat first [left | right]).
  split; [reflexivity|]. split; [exact Hin|].
  exact (proj1 (proj2 (proj2 (proj2
           (login_exchanges_only_a_delivered_code
              Samples.clientId Samples.azureCloud false "common" Samples.happy
              Samples.clientId redirectUrlAAD "common" "XYZ" eq_refl Hin))))).
Defined.

(** X13. Once the browser has reached the server, a failure is shown to
    it: on a nonce mismatch at [/signin], on an error from [/callback] and
    on a failed exchange, the response at hand is redirected to
    [/?error=] followed by the URL-encoded message ([Unknown error] for an
    empty one) and [login] throws that error; that redirect is the only
    one besides the one to the sign-in URL.  On a nonce mismatch the
    stall timer is not cancelled.  When the code promise is rejected (the
    code timeout) [login] throws without writing any error page: the
    redirect to the sign-in URL is the only one of the run. *)
Theorem login_failures_reach_the_browser
    (clientId : string) (environment : Environment) (adfs : bool)
    (tenantId : string) (w : world) (port : N) :
  web w = false →
  portResult w = Fulfilled port →
  openUriResult w = Ok () →
  let shown err :=
    "/?error=" ++ JS.encodeURIComponent
                    (if JS.truthy (exnMessage err) then exnMessage err
                     else "Unknown error") in
  let signInUrl p :=
    authorizeEndpoint environment adfs tenantId ++ "?"
      ++ signInQuery clientId environment
           (if adfs then redirectUrlADFS else redirectUrlAAD)
           (loopbackState p (nonce w)) in
  let run := login clientId environment adfs tenantId w in
  (∀ err res,
     redirectResult w = Fulfilled (Server.RedirectErr err res) →
     run.2 = Thrown err ∧ Redirect res (shown err) ∈ run.1 ∧
     (ClearTimeout RedirectTimer ∉ run.1) ∧
     More.redirected run.1 = [(res, shown err)]) ∧
  (∀ req res p err res',
     redirectResult w = Fulfilled (Server.RedirectReq req res) →
     updatedPort (Server.host req) port = Some p →
     codeResult w = Fulfilled (Server.CodeErr err res') →
     run.2 = Thrown err ∧ (Redirect res' (shown err) ∈ run.1) ∧
     More.redirected run.1 = [(res, signInUrl p); (res', shown err)]) ∧
  (∀ req res p code res' err,
     redirectResult w = Fulfilled (Server.RedirectReq req res) →
     updatedPort (Server.host req) port = Some p →
     codeResult w = Fulfilled (Server.CodeOk code res') →
     tokenResult w (Some code) = Throw err →
     run.2 = Thrown err ∧ (Redirect res' (shown err) ∈ run.1) ∧
     More.redirected run.1 = [(res, signInUrl p); (res', shown err)]) ∧
  (∀ req res p e,
     redirectResult w = Fulfilled (Server.RedirectReq req res) →
     updatedPort (Server.host req) port = Some p →
     codeResult w = Rejected e →
     run.2 = Thrown e ∧
     More.redirected run.1 = [(res, signInUrl p)] ∧
     ∀ res' location,
       Redirect res' location ∈ run.1 → res' = res ∧ location = signInUrl p).
Proof.
  intros Hweb Hport Hopen shown signInUrl run. subst shown signInUrl run.
  unfold login, attempt. rewrite Hweb, Hport, Hopen. cbv beta.
  split; [|split; [|split]].
  - intros err res ->. cbn [fst snd finally]. split; [reflexivity|]. split; [|split].
    + rewrite <- errorLocation_message. present.
    + destruct adfs, (predecessor w); cbn; absent.
    + destruct adfs, (predecessor w); reflexivity.
  - intros req res p err res' -> -> ->. cbn [fst snd finally].
    split; [reflexivity|]. split.
    + rewrite <- errorLocation_message. present.
    + destruct adfs, (predecessor w); reflexivity.
  - intros req res p code res' err -> -> -> ->. cbn [fst snd finally].
    split; [reflexivity|]. split.
    + rewrite <- errorLocation_message. present.
    + destruct adfs, (predecessor w); reflexivity.
  - intros req res p e -> -> ->. cbn [fst snd finally]. split; [reflexivity|]. split.
    + destruct adfs, (predecessor w); reflexivity.
    + intros res' location Hin.
      destruct adfs, (predecessor w); cbn in Hin; in_cases Hin;
        first [discriminate Hin | inversion Hin; split; reflexivity].
Qed.

Lemma login_failures_reach_the_browser_witness :
  ((login Samples.clientId Samples.azureCloud false "common" Samples.declined).2
     = Thrown (Error "User declined") ∧
   (Redirect 2%nat "/?error=User%20declined"
      ∈ (login Samples.clientId Samples.azureCloud false "common" Samples.declined).1)) ∧
  ((login Samples.clientId Samples.azureCloud false "common" Samples.expired).2
     = Thrown (Error "Timeout waiting for code") ∧
   More.redirected
     (login Samples.clientId Samples.azureCloud false "common" Samples.expired).1
     = [(1%nat,
         "https://login.microsoftonline.com/common/oauth2/authorize"
           ++ "?response_type=code&client_id=aebc6443-996d-45c2-90f0-388ff96faa56"
           ++ "&redirect_uri=https%3A%2F%2Fvscode-redirect.azurewebsites.net%2F"
           ++ "&state=51234,abc%3D"
           ++ "&resource=https%3A%2F%2Fmanagement.core.windows.net%2F"
           ++ "&prompt=select_account")]).
Proof.
  split.
  - destruct (login_failures_reach_the_browser Samples.clientId Samples.azureCloud
                false "common" Samples.declined 51234%N eq_refl eq_refl eq_refl)
      as (_ & Hcode & _).
    destruct (Hcode Samples.signinGood 1%nat 51234%N (Error "User declined") 2%nat
                eq_refl eq_refl eq_refl) as (Hout & Hin & _).
    split; [exact Hout | exact Hin].
  - destruct (login_failures_reach_the_browser Samples.clientId Samples.azureCloud
                false "common" Samples.expired 51234%N eq_refl eq_refl eq_refl)
      as (_ & _ & _ & Htimeout).
    destruct (Htimeout Samples.signinGood 1%nat 51234%N (Error "Timeout waiting for code")
                eq_refl eq_refl eq_refl) as (Hout & Hred & _).
    split; [exact Hout | exact Hred].
Defined.

End LoginFacts.

(** ** The nonce on its way out and back *)

Section RoundTrips.

Import Flow.

Lemma allDigits_contains (c : ascii) (s : string) :
  JS.isDigit c = false → JS.allDigits s = true → JS.contains c s = false.
Proof.
  intros Hc. unfold JS.allDigits. induction s as [|x s IH]; [reflexivity|].
  simpl. intros H. apply andb_prop in H as [Hx Hs].
  rewrite (IH Hs), orb_false_r.
  destruct (Ascii.eqb_spec x c) as [->|]; [congruence | reflexivity].
Qed.

Lemma pretty_N_char_digit (n : N) : JS.isDigit (pretty_N_char n) = true.
Proof. unfold pretty_N_char. repeat case_match; reflexivity. Qed.

Lemma pretty_N_go_digits (x : N) :
  ∀ s, JS.allDigits s = true → JS.allDigits (pretty_N_go x s) = true.
Proof.
  induction (N.lt_wf_0 x) as [x _ IH]. intros s Hs.
  destruct (decide (x = 0%N)) as [->|Hx]; [rewrite pretty_N_go_0; exact Hs|].
  rewrite pretty_N_go_step by lia. apply IH.
  - apply N.div_lt; lia.
  - unfold JS.allDigits in *. simpl. rewrite pretty_N_char_digit, Hs. reflexivity.
Qed.

(** A number is written with decimal digits only. *)
Lemma pretty_digits (p : N) : JS.allDigits (pretty p) = true.
Proof.
  unfold pretty, pretty_N. case_decide; [reflexivity|].
  apply pretty_N_go_digits. reflexivity.
Qed.

Lemma plusAsSpace_free (s : string) :
  JS.contains "+" s = false → More.plusAsSpace s = s.
Proof.
  induction s as [|c s IH]; [reflexivity|].
  simpl. intros H. apply orb_false_elim in H as [Hc Hs].
  rewrite Hc, (IH Hs). reflexivity.
Qed.

Lemma decodeFrom_plain_app (a b : string) :
  JS.contains "%" a = false →
  JS.decodeFrom 0 128 191 (a ++ b) = (λ r, a ++ r) <$> JS.decodeFrom 0 128 191 b.
Proof.
  induction a as [|c a IH]; intros H.
  - change ("" ++ b) with b. destruct (JS.decodeFrom 0 128 191 b); reflexivity.
  - simpl in H. apply orb_false_elim in H as [Hc Ha].
    change (String c a ++ b) with (String c (a ++ b)).
    cbn [JS.decodeFrom]. rewrite Hc, (IH Ha).
    destruct (JS.decodeFrom 0 128 191 b); reflexivity.
Qed.

Lemma replaceSpaces_free (s : string) :
  JS.contains " " s = false → JS.replaceSpaces s = s.
Proof.
  induction s as [|c s IH]; [reflexivity|].
  simpl. intros H. apply orb_false_elim in H as [Hc Hs].
  rewrite Hc, (IH Hs). reflexivity.
Qed.

(** What a form-decoding parser makes of the state [login] sends. *)
Lemma loopbackState_decoded (p : N) (nonce : string) :
  JS.wellFormed nonce = true →
  JS.decodeURIComponent (More.plusAsSpace (loopbackState p nonce))
    = Some (pretty p ++ String "," nonce).
Proof.
  intros Hwf. unfold loopbackState.
  change (pretty p ++ "," ++ JS.encodeURIComponent nonce)
    with (pretty p ++ String "," (JS.encodeURIComponent nonce)).
  rewrite plusAsSpace_free.
  - unfold JS.decodeURIComponent.
    rewrite decodeFrom_plain_app
      by (apply allDigits_contains; [reflexivity | apply pretty_digits]).
    change (String "," (JS.encodeURIComponent nonce))
      with ("," ++ JS.encodeURIComponent nonce).
    rewrite decodeFrom_plain_app by reflexivity.
    fold (JS.decodeURIComponent (JS.encodeURIComponent nonce)).
    rewrite (decode_encode nonce Hwf). reflexivity.
  - rewrite contains_app.
    rewrite (allDigits_contains "+" (pretty p) eq_refl (pretty_digits p)).
    simpl. apply encode_contains; reflexivity.
Qed.

(** X14. The sign-in URL [login] opens carries the nonce so that it
    comes back unchanged: undoing the percent-encoding of the [nonce]
    parameter, as the server's query parser does, gives the session nonce,
    and a [/signin] request with that value resolves the redirect promise
    with the request.  This holds for every nonce without a space. *)
Theorem sign_in_url_round_trip
    (clientId : string) (environment : Environment) (adfs : bool)
    (tenantId : string) (w : world) (port : N)
    (req : Server.request) (res : Server.response) :
  web w = false →
  portResult w = Fulfilled port →
  JS.wellFormed (nonce w) = true →
  JS.contains " " (nonce w) = false →
  ∃ raw,
    OpenUri ("http://localhost:" ++ pretty port ++ "/signin?nonce=" ++ raw)
      ∈ (login clientId environment adfs tenantId w).1 ∧
    JS.decodeURIComponent (More.plusAsSpace raw) = Some (nonce w) ∧
    (Server.pathname req = "/signin" →
     Server.query req !! "nonce" = Some (Server.Str (nonce w)) →
     Server.listener (nonce w) req res
       = Ok [Server.ResolveRedirect (Server.RedirectReq req res)]).
Proof.
  intros Hweb Hport Hwf Hspace. exists (JS.encodeURIComponent (nonce w)).
  split; [|split].
  - unfold login, attempt. rewrite Hweb, Hport.
    destruct (openUriResult w) as [[]|e]; cbn [fst]; [|present].
    destruct (redirectResult w) as [|[req' res'|err res']|e]; cbn [fst];
      [present | | present | present].
    destruct (updatedPort (Server.host req') port) as [p|]; cbn [fst]; [|present].
    destruct (codeResult w) as [|[code res''|err res'']|e]; cbn [fst];
      [present | | present | present].
    destruct (tokenResult w (Some code)); cbn [fst]; present.
  - rewrite plusAsSpace_free by (apply encode_contains; reflexivity).
    apply decode_encode, Hwf.
  - intros Hpath Hq. rewrite (listener_signin (nonce w) req res _ Hpath Hq).
    cbn [Server.valueToString]. rewrite (replaceSpaces_free _ Hspace).
    rewrite String.eqb_refl. reflexivity.
Qed.

Lemma sign_in_url_round_trip_witness :
  ∃ raw,
    OpenUri ("http://localhost:" ++ pretty 51234%N ++ "/signin?nonce=" ++ raw)
      ∈ (login Samples.clientId Samples.azureCloud false "common" Samples.happy).1 ∧
    JS.decodeURIComponent (More.plusAsSpace raw) = Some "abc=" ∧
    (Server.pathname Samples.signinGood = "/signin" →
     Server.query Samples.signinGood !! "nonce" = Some (Server.Str "abc=") →
     Server.listener "abc=" Samples.signinGood 1%nat
       = Ok [Server.ResolveRedirect (Server.RedirectReq Samples.signinGood 1%nat)]).
Proof.
  exact (sign_in_url_round_trip Samples.clientId Samples.azureCloud false "common"
           Samples.happy 51234%N Samples.signinGood 1%nat
           eq_refl eq_refl eq_refl eq_refl).
Defined.

(** X15. The state [login] sends to the provider comes back accepted:
    once the query parser has undone its percent-encoding, it reads
    [port,nonce], and a [/callback] request with that state and a code
    returns the code.  This holds for every nonce without a space or a
    comma. *)
Theorem loopback_state_round_trip
    (nonce code : string) (p : N) (q : gmap string Server.queryValue) :
  JS.wellFormed nonce = true →
  JS.contains " " nonce = false →
  JS.contains "," nonce = false →
  code ≠ "" →
  ∃ state,
    JS.decodeURIComponent (More.plusAsSpace (loopbackState p nonce)) = Some state ∧
    (q !! "error" = None → q !! "error_description" = None →
     q !! "code" = Some (Server.Str code) →
     q !! "state" = Some (Server.Str state) →
     Server.callback nonce (Some q) = Ok code).
Proof.
  intros Hwf Hspace Hcomma Hcode. exists (pretty p ++ String "," nonce).
  split; [apply loopbackState_decoded, Hwf|].
  intros He Hd Hc Hs.
  apply callback_ok_intro; unfold Server.getQueryProp; rewrite ?He, ?Hd, ?Hc, ?Hs;
    [reflexivity | | reflexivity | exact Hcode].
  rewrite stateNonce_embedded;
    [apply replaceSpaces_free, Hspace | | exact Hcomma].
  apply allDigits_contains; [reflexivity | apply pretty_digits].
Qed.

Lemma loopback_state_round_trip_witness :
  ∃ state,
    JS.decodeURIComponent (More.plusAsSpace (loopbackState 51234 "abc=")) = Some state ∧
    (Server.query Samples.callbackGood !! "error" = None →
     Server.query Samples.callbackGood !! "error_description" = None →
     Server.query Samples.callbackGood !! "code" = Some (Server.Str "XYZ") →
     Server.query Samples.callbackGood !! "state" = Some (Server.Str state) →
     Server.callback "abc=" (Some (Server.query Samples.callbackGood)) = Ok "XYZ").
Proof.
  apply (loopback_state_round_trip "abc=" "XYZ" 51234 (Server.query Samples.callbackGood));
    [reflexivity | reflexivity | reflexivity | discriminate].
Defined.

End RoundTrips.

(** ** Generated nonces *)

Section NonceFacts.

Lemma base64Char_small :
  forallb (λ k, More.isBase64Char (More.base64Char (N.of_nat k))) (seq 0 64) = true.
Proof. vm_compute. reflexivity. Qed.

Lemma base64Char_alphabet (n : N) : More.isBase64Char (More.base64Char n) = true.
Proof.
  destruct (N.lt_ge_cases n 64) as [Hlt|Hge].
  - pose proof base64Char_small as H. rewrite forallb_forall in H.
    specialize (H (N.to_nat n)). rewrite N2Nat.id in H. apply H.
    apply in_seq. lia.
  - unfold More.base64Char.
    destruct (N.ltb_spec n 26); [lia|]. destruct (N.ltb_spec n 52); [lia|].
    destruct (N.ltb_spec n 62); [lia|]. destruct (N.eqb_spec n 62); [lia|].
    reflexivity.
Qed.

Lemma base64_alphabet (bytes : list Byte.byte) :
  forallb More.isBase64Char (list_ascii_of_string (More.base64 bytes)) = true.
Proof.
  revert bytes. fix IH 1. intros [|a [|b [|c rest]]].
  - reflexivity.
  - cbn [More.base64 list_ascii_of_string forallb]. rewrite !base64Char_alphabet.
    reflexivity.
  - cbn [More.base64 list_ascii_of_string forallb]. rewrite !base64Char_alphabet.
    reflexivity.
  - cbn [More.base64 list_ascii_of_string forallb]. rewrite !base64Char_alphabet.
    cbn [andb]. apply IH.
Qed.

Lemma base64_length (bytes : list Byte.byte) :
  String.length (More.base64 bytes) = (4 * ((length bytes + 2) / 3))%nat.
Proof.
  revert bytes. fix IH 1. intros [|a [|b [|c rest]]].
  - reflexivity.
  - reflexivity.
  - reflexivity.
  - cbn [More.base64 String.length length]. rewrite (IH rest).
    replace (S (S (S (length rest))) + 2)%nat with ((length rest + 2) + 1 * 3)%nat
      by lia.
    rewrite Nat.div_add by lia. lia.
Qed.

Lemma isBase64Char_plain (c : ascii) :
  More.isBase64Char c = true →
  (N_of_ascii c <? 128)%N = true ∧ Ascii.eqb c " " = false ∧ Ascii.eqb c "," = false.
Proof.
  destruct c as [[] [] [] [] [] [] [] []]; vm_compute; intros H;
    first [discriminate H | repeat split].
Qed.

Lemma base64_plain (s : string) :
  forallb More.isBase64Char (list_ascii_of_string s) = true →
  JS.wellFormed s = true ∧ JS.contains " " s = false ∧ JS.contains "," s = false.
Proof.
  unfold JS.wellFormed. induction s as [|c s IH]; [repeat split|].
  cbn [list_ascii_of_string forallb JS.utf8From JS.contains]. intros H.
  apply andb_prop in H as [Hc Hs].
  destruct (isBase64Char_plain c Hc) as (Hsmall & Hspace & Hcomma).
  destruct (IH Hs) as (Hwf & Hsp & Hco).
  cbv zeta. rewrite Hsmall, Hspace, Hcomma, Hwf, Hsp, Hco. repeat split.
Qed.

(** X16. Whatever octets the random source returns, the nonce made of
    them consists of base64 characters only, four for every three octets
    (24 for the 16 octets the code asks for); it therefore has no space and
    no comma, which is what the way out and back through the sign-in URL
    and through [state] needs. *)
Theorem generated_nonce_is_safe (randomBytes : list Byte.byte) :
  forallb More.isBase64Char (list_ascii_of_string (More.makeNonce randomBytes)) = true ∧
  String.length (More.makeNonce randomBytes)
    = (4 * ((length randomBytes + 2) / 3))%nat ∧
  (length randomBytes = 16%nat → String.length (More.makeNonce randomBytes) = 24%nat) ∧
  JS.wellFormed (More.makeNonce randomBytes) = true ∧
  JS.contains " " (More.makeNonce randomBytes) = false ∧
  JS.contains "," (More.makeNonce randomBytes) = false.
Proof.
  unfold More.makeNonce.
  split; [apply base64_alphabet|]. split; [apply base64_length|].
  split; [intros H; rewrite base64_length, H; reflexivity|].
  apply base64_plain, base64_alphabet.
Qed.

End NonceFacts.

(** ** The variant without a local server *)

Section WebFlowFacts.

Import Flow.

Lemma allDigits_colon (x d : string) : JS.allDigits (x ++ String ":" d) = false.
Proof.
  unfold JS.allDigits. induction x as [|c x IH]; [reflexivity|].
  change (String c x ++ String ":" d) with (String c (x ++ String ":" d)).
  cbn [list_ascii_of_string forallb]. rewrite IH. apply andb_false_r.
Qed.

Lemma authorityPortGroup_digits (a d : string) :
  authorityPortGroup a = Some d → JS.allDigits d = true.
Proof.
  induction a as [|c a IH]; [discriminate|].
  cbn [authorityPortGroup].
  destruct (Ascii.eqb c ":" && JS.allDigits a) eqn:H; [|exact IH].
  intros Heq. inversion Heq; subst. apply andb_prop in H as [_ H]. exact H.
Qed.

Lemma authorityPortGroup_suffix (h d : string) :
  JS.allDigits d = true → authorityPortGroup (h ++ String ":" d) = Some d.
Proof.
  intros Hd. induction h as [|c h IH].
  - change ("" ++ String ":" d) with (String ":" d).
    cbn [authorityPortGroup]. rewrite Hd. reflexivity.
  - change (String c h ++ String ":" d) with (String c (h ++ String ":" d)).
    cbn [authorityPortGroup]. rewrite allDigits_colon, andb_false_r. exact IH.
Qed.

Lemma authorityPortGroup_none (a : string) :
  JS.contains ":" a = false → authorityPortGroup a = None.
Proof.
  induction a as [|c a IH]; [reflexivity|].
  simpl. intros H. apply orb_false_elim in H as [Hc Ha].
  rewrite Hc. cbn [andb]. exact (IH Ha).
Qed.

Lemma external_port_digits (callbackUri : Uri) :
  JS.truthy (More.externalPort callbackUri) = true ∧
  JS.allDigits (More.externalPort callbackUri) = true.
Proof.
  unfold More.externalPort. split.
  - destruct (authorityPortGroup (authority callbackUri)) as [[|c d]|];
      cbn; destruct (String.eqb (scheme callbackUri) "https"); reflexivity.
  - destruct (authorityPortGroup (authority callbackUri)) as [d|] eqn:Hg.
    + pose proof (authorityPortGroup_digits _ _ Hg) as Hd.
      destruct d as [|c d]; [|exact Hd].
      cbn. destruct (String.eqb (scheme callbackUri) "https"); reflexivity.
    + cbn. destruct (String.eqb (scheme callbackUri) "https"); reflexivity.
Qed.

Lemma authorityPortGroup_inv (a d : string) :
  authorityPortGroup a = Some d → ∃ h, a = h ++ String ":" d.
Proof.
  induction a as [|c a IH]; [discriminate|].
  cbn [authorityPortGroup].
  destruct (Ascii.eqb_spec c ":") as [->|Hc]; cbn [andb].
  - destruct (JS.allDigits a).
    + intros Heq. inversion Heq; subst. exists "". reflexivity.
    + intros Hg. destruct (IH Hg) as [h ->]. exists (String ":" h). reflexivity.
  - intros Hg. destruct (IH Hg) as [h ->]. exists (String c h). reflexivity.
Qed.

(** A bracketed address without port has no colon that only digits
    follow. *)
Lemma bracketed_address_has_no_port (h d : string) :
  "[::1]" = h ++ String ":" d → JS.allDigits d = true → d = "".
Proof.
  intros Heq Hd.
  do 5 (destruct h as [|? h];
        [change ("" ++ String ":" d) with (String ":" d) in Heq;
         inversion Heq; subst; discriminate Hd
        |change (String a h ++ String ":" d) with (String a (h ++ String ":" d)) in Heq;
         inversion Heq; subst; clear Heq;
         match goal with H : _ = h ++ String ":" d |- _ => rename H into Heq end]).
  destruct h; discriminate Heq.
Qed.

(** X17. The port written into the state of the variant without a local
    server is always a non-empty string of digits: the digits after the
    last colon of the authority when there are any, even behind a bracketed
    address with colons of its own, and otherwise 443 for [https] and 80
    for every other scheme: when the authority has no colon, when it ends
    in a bare colon, and in general when none of its colons is followed up
    to the end by one or more digits. *)
Theorem external_port_is_a_number (callbackUri : Uri) :
  JS.truthy (More.externalPort callbackUri) = true ∧
  JS.allDigits (More.externalPort callbackUri) = true ∧
  (∀ h d, authority callbackUri = h ++ String ":" d →
          JS.truthy d = true → JS.allDigits d = true →
          More.externalPort callbackUri = d) ∧
  (∀ h, authority callbackUri = h ++ ":" ∨ JS.contains ":" (authority callbackUri) = false →
        More.externalPort callbackUri
          = if String.eqb (scheme callbackUri) "https" then "443" else "80") ∧
  ((∀ h d, authority callbackUri = h ++ String ":" d →
           JS.allDigits d = true → d = "") →
   More.externalPort callbackUri
     = if String.eqb (scheme callbackUri) "https" then "443" else "80") ∧
  (∀ nonce,
     externalState callbackUri nonce =
       getCallbackEnvironment callbackUri ++ More.externalPort callbackUri ++ ","
         ++ JS.encodeURIComponent nonce ++ ","
         ++ JS.encodeURIComponent (uriQuery callbackUri)).
Proof.
  split; [apply external_port_digits|]. split; [apply external_port_digits|].
  unfold More.externalPort. split; [|split; [|split]].
  - intros h d Ha Ht Hd. rewrite Ha, (authorityPortGroup_suffix h d Hd).
    cbn [default from_option id]. unfold JS.or_else. rewrite Ht. reflexivity.
  - intros h [Ha|Ha].
    + rewrite Ha. change (h ++ ":") with (h ++ String ":" "").
      rewrite (authorityPortGroup_suffix h "" eq_refl). reflexivity.
    + rewrite (authorityPortGroup_none _ Ha). reflexivity.
  - intros Hnone.
    destruct (authorityPortGroup (authority callbackUri)) as [d|] eqn:Hg;
      [|reflexivity].
    destruct (authorityPortGroup_inv _ _ Hg) as [h Ha].
    rewrite (Hnone h d Ha (authorityPortGroup_digits _ _ Hg)). reflexivity.
  - reflexivity.
Qed.

Lemma external_port_is_a_number_witness :
  More.externalPort {| scheme := "https"; authority := "[::1]:8443"; uriQuery := "" |}
    = "8443" ∧
  More.externalPort {| scheme := "http"; authority := "example.test:"; uriQuery := "" |}
    = "80" ∧
  More.externalPort Samples.codespace = "443" ∧
  More.externalPort {| scheme := "https"; authority := "[::1]"; uriQuery := "" |}
    = "443" ∧
  More.externalPort {| scheme := "http"; authority := "[::1]"; uriQuery := "" |}
    = "80".
Proof.
  split; [|split; [|split; [|split]]].
  - apply (external_port_is_a_number
             {| scheme := "https"; authority := "[::1]:8443"; uriQuery := "" |})
      with (h := "[::1]"); reflexivity.
  - apply (external_port_is_a_number
             {| scheme := "http"; authority := "example.test:"; uriQuery := "" |}
           ) with (h := "example.test").
    left. reflexivity.
  - apply (external_port_is_a_number Samples.codespace) with (h := "").
    right. reflexivity.
  - destruct (external_port_is_a_number
                {| scheme := "https"; authority := "[::1]"; uriQuery := "" |})
      as (_ & _ & _ & _ & Hdefault & _).
    apply Hdefault. exact bracketed_address_has_no_port.
  - destruct (external_port_is_a_number
                {| scheme := "http"; authority := "[::1]"; uriQuery := "" |})
      as (_ & _ & _ & _ & Hdefault & _).
    apply Hdefault. exact bracketed_address_has_no_port.
Defined.

Lemma utf8From_app (a b : string) :
  ∀ pending lo hi,
    JS.utf8From pending lo hi a = true →
    JS.wellFormed b = true →
    JS.utf8From pending lo hi (a ++ b) = true.
Proof.
  induction a as [|c a IH]; intros pending lo hi Ha Hb.
  - change ("" ++ b) with b.
    destruct pending; [destruct b; exact Hb | discriminate Ha].
  - change (String c a ++ b) with (String c (a ++ b)).
    cbn [JS.utf8From] in *. cbv zeta in *. destruct pending as [|p].
    + destruct (N_of_ascii c <? 128)%N; [apply IH; assumption|].
      destruct (JS.leadInfo (N_of_ascii c)) as [[[n lo'] hi']|]; [|discriminate Ha].
      apply IH; assumption.
    + apply andb_prop in Ha as [Hrange Ha]. rewrite Hrange. apply IH; assumption.
Qed.

Lemma wellFormed_app (a b : string) :
  JS.wellFormed a = true → JS.wellFormed b = true → JS.wellFormed (a ++ b) = true.
Proof. intros Ha Hb. apply utf8From_app; assumption. Qed.

Lemma hexDigit_small (c : ascii) :
  (N_of_ascii (JS.hexDigit (N_of_ascii c / 16)) <? 128)%N = true ∧
  (N_of_ascii (JS.hexDigit (N_of_ascii c mod 16)) <? 128)%N = true.
Proof. destruct c as [[] [] [] [] [] [] [] []]; split; reflexivity. Qed.

Lemma encode_wellFormed (s : string) : JS.wellFormed (JS.encodeURIComponent s) = true.
Proof.
  unfold JS.wellFormed. induction s as [|c s IH]; [reflexivity|].
  cbn [JS.encodeURIComponent]. destruct (JS.uriUnescaped c) eqn:Hc.
  - destruct (unescaped_plain c Hc) as [Hsmall _].
    cbn [JS.utf8From]. cbv zeta. rewrite Hsmall. exact IH.
  - unfold JS.escapeOctet. destruct (hexDigit_small c) as [Hhi Hlo].
    cbn [JS.utf8From]. cbv zeta. rewrite Hhi, Hlo. exact IH.
Qed.

Lemma digits_wellFormed (s : string) :
  JS.allDigits s = true → JS.wellFormed s = true.
Proof.
  unfold JS.allDigits, JS.wellFormed. induction s as [|c s IH]; [reflexivity|].
  cbn [list_ascii_of_string forallb JS.utf8From]. intros H.
  apply andb_prop in H as [Hc Hs]. cbv zeta.
  assert ((N_of_ascii c <? 128)%N = true) as ->.
  { unfold JS.isDigit in Hc. apply andb_prop in Hc as [_ Hc].
    apply N.leb_le in Hc. apply N.ltb_lt. lia. }
  exact (IH Hs).
Qed.

Lemma environment_wellFormed (callbackUri : Uri) :
  JS.wellFormed (authority callbackUri) = true →
  JS.wellFormed (getCallbackEnvironment callbackUri) = true.
Proof.
  intros Ha. unfold getCallbackEnvironment.
  repeat match goal with
         | |- context [if ?b then _ else _] => destruct b
         end; try reflexivity.
  apply wellFormed_app; [exact Ha | reflexivity].
Qed.

Lemma environment_contains (c : ascii) (callbackUri : Uri) :
  JS.contains c (authority callbackUri) = false →
  JS.isAlpha c = false → Ascii.eqb "," c = false →
  JS.contains c (getCallbackEnvironment callbackUri) = false.
Proof.
  intros Ha Halpha Hcomma. unfold getCallbackEnvironment.
  assert (∀ s, forallb (λ x, JS.isAlpha x || Ascii.eqb "," x)
                 (list_ascii_of_string s) = true →
               JS.contains c s = false) as Htag.
  { induction s as [|x s IH]; [reflexivity|].
    cbn [list_ascii_of_string forallb JS.contains]. intros H.
    apply andb_prop in H as [Hx Hs]. rewrite (IH Hs), orb_false_r.
    destruct (Ascii.eqb_spec x c) as [->|]; [|reflexivity].
    rewrite Halpha, Hcomma in Hx. discriminate Hx. }
  repeat match goal with
         | |- context [if ?b then _ else _] => destruct b
         end; try (apply Htag; reflexivity).
  rewrite contains_app, Ha. cbn [JS.contains orb]. rewrite Hcomma. reflexivity.
Qed.

Lemma externalState_port (callbackUri : Uri) (nonce : string) :
  externalState callbackUri nonce =
    getCallbackEnvironment callbackUri ++ More.externalPort callbackUri ++ ","
      ++ JS.encodeURIComponent nonce ++ ","
      ++ JS.encodeURIComponent (uriQuery callbackUri).
Proof. reflexivity. Qed.

Lemma externalState_wellFormed (callbackUri : Uri) (nonce : string) :
  JS.wellFormed (authority callbackUri) = true →
  JS.wellFormed (externalState callbackUri nonce) = true.
Proof.
  intros Ha. rewrite externalState_port.
  apply wellFormed_app; [apply environment_wellFormed, Ha|].
  apply wellFormed_app.
  { apply digits_wellFormed.
    exact (proj2 (external_port_digits callbackUri)). }
  apply (wellFormed_app ","); [reflexivity|].
  apply wellFormed_app; [apply encode_wellFormed|].
  apply (wellFormed_app ","); [reflexivity | apply encode_wellFormed].
Qed.

Lemma externalState_contains (c : ascii) (callbackUri : Uri) (nonce : string) :
  JS.contains c (authority callbackUri) = false →
  JS.uriUnescaped c = false → Ascii.eqb "%" c = false → Ascii.eqb "," c = false →
  JS.contains c (externalState callbackUri nonce) = false.
Proof.
  intros Ha Hun Hpct Hcomma. rewrite externalState_port.
  assert (JS.isAlpha c = false ∧ JS.isDigit c = false) as [Halpha Hdigit].
  { unfold JS.uriUnescaped in Hun.
    apply orb_false_elim in Hun as [Hun _]. apply orb_false_elim in Hun. exact Hun. }
  rewrite !contains_app.
  rewrite (environment_contains c callbackUri Ha Halpha Hcomma).
  rewrite (allDigits_contains c _ Hdigit
             (proj2 (external_port_digits callbackUri))).
  rewrite !(encode_contains c _ Hun Hpct).
  cbn [JS.contains orb]. rewrite Hcomma. reflexivity.
Qed.

(** An exchange that has ended before the next URI comes settles the
    promise. *)
Lemma exchangeRun_ended (state : string)
    (token : option string → result TokenResponse) (delay : N → option string → N)
    (due : N) (r : result TokenResponse) (rest : list (N * string)) :
  Forall (λ u, (due <= u.1)%N) rest →
  exchangeRun state token delay (Some (due, r)) rest = Some (due, r).
Proof.
  intros Hrest. destruct rest as [|[t' q] rest]; [reflexivity|].
  inversion Hrest as [|? ? Hle _]; subst. cbn [fst] in Hle.
  cbn [exchangeRun finished].
  destruct (N.leb_spec due t'); [reflexivity | lia].
Qed.

(** With one URI the promise settles with what the listener makes of
    it, at once when the state check throws and else when the exchange
    ends. *)
Lemma exchangeCodeForToken_single (state : string)
    (token : option string → result TokenResponse) (delay : N → option string → N)
    (t : N) (uriQuery : string) :
  exchangeCodeForToken state token delay [(t, uriQuery)]
  = Some (match checkState (prop (parseQuery uriQuery) State) state with
          | Throw _ => t
          | Ok _ => (t + delay t (prop (parseQuery uriQuery) Code))%N
          end,
          onUri state token uriQuery).
Proof.
  unfold exchangeCodeForToken, onUri. cbn [exchangeRun finished]. cbv zeta.
  destruct (checkState (prop (parseQuery uriQuery) State) state); reflexivity.
Qed.

(** What the first URI starts when its state is the expected one. *)
Lemma exchangeRun_first (state : string)
    (token : option string → result TokenResponse) (delay : N → option string → N)
    (t : N) (code received : string) (rest : list (N * string)) :
  JS.contains "&" code = false → JS.contains "=" code = false →
  JS.contains "&" received = false → JS.contains "=" received = false →
  checkState (Some received) state = Ok () →
  exchangeCodeForToken state token delay
    ((t, "code=" ++ code ++ "&state=" ++ received) :: rest)
  = exchangeRun state token delay
      (Some ((t + delay t (Some code))%N, token (Some code))) rest.
Proof.
  intros Hca Hce Hra Hre Hcheck.
  unfold exchangeCodeForToken. cbn [exchangeRun finished]. cbv zeta.
  destruct (parseQuery_code_state code received Hca Hce Hra Hre) as [Hc Hs].
  rewrite Hc, Hs, Hcheck. reflexivity.
Qed.

(** X18. The variant without a local server accepts the redirect that
    answers its own request.  Let the first URI handed to the handler
    carry a code and, as [state], the state that was sent, percent-encoded
    once more or, for an authority without [&] and [=], as it is.  It
    starts the token exchange with its code.  When that exchange ends
    within five minutes of the call and no other URI comes before it has
    ended, [login] ends with the outcome of that exchange.  When the
    exchange is still under way after five minutes, [login] fails with
    [Login timed out.].  When a second URI comes while the exchange is
    under way, within the five minutes, and fails the state check, [login]
    fails with the error of that check, whatever the exchange gives.  And
    when the second URI passes the check, it starts an exchange of its
    own, and [login] ends with the outcome of the exchange that ends
    first. *)
Theorem web_flow_accepts_its_own_state
    (clientId : string) (environment : Environment) (adfs : bool)
    (tenantId : string) (w : world) (t : N) (code received : string)
    (rest : list (N * string)) :
  web w = true →
  JS.wellFormed (authority (callbackUri w)) = true →
  JS.contains "&" code = false →
  JS.contains "=" code = false →
  received = JS.encodeURIComponent (externalState (callbackUri w) (nonce w)) ∨
  received = externalState (callbackUri w) (nonce w) ∧
  JS.contains "&" (authority (callbackUri w)) = false ∧
  JS.contains "=" (authority (callbackUri w)) = false →
  uris w = (t, "code=" ++ code ++ "&state=" ++ received) :: rest →
  let ended := (t + tokenDelay w t (Some code))%N in
  let out := (login clientId environment adfs tenantId w).2 in
  ((ended < 300000)%N →
   Forall (λ u, (ended <= u.1)%N) rest →
   out = ofResult (tokenResult w (Some code))) ∧
  ((300000 <= ended)%N →
   Forall (λ u, (ended <= u.1)%N) rest →
   out = Thrown (Reason "Login timed out.")) ∧
  (∀ t' other rest' err,
     rest = (t', other) :: rest' →
     (t <= t')%N → (t' < ended)%N → (t' < 300000)%N →
     checkState (prop (parseQuery other) State)
                (externalState (callbackUri w) (nonce w)) = Throw err →
     out = Thrown err) ∧
  (∀ t' code' rest',
     rest = (t', "code=" ++ code' ++ "&state=" ++ received) :: rest' →
     JS.contains "&" code' = false → JS.contains "=" code' = false →
     (t <= t')%N → (t' < ended)%N →
     let ended' := (t' + tokenDelay w t' (Some code'))%N in
     Forall (λ u, (N.min ended ended' <= u.1)%N) rest' →
     (N.min ended ended' < 300000)%N →
     ((ended < ended')%N → out = ofResult (tokenResult w (Some code))) ∧
     ((ended' < ended)%N → out = ofResult (tokenResult w (Some code')))).
Proof.
  intros Hweb Hwf Hamp Heq Hreceived Huris ended out. subst ended out.
  unfold login, loginWithoutLocalServer. rewrite Hweb, Huris. cbn [snd].
  set (state := externalState (callbackUri w) (nonce w)) in *.
  assert (JS.contains "&" received = false ∧ JS.contains "=" received = false ∧
          checkState (Some received) state = Ok ()) as (Hra & Hre & Hcheck).
  { destruct Hreceived as [-> | (-> & Ha & He)].
    - split; [apply encode_no_ampersand|]. split; [apply encode_no_equals|].
      apply checkState_decoded, decode_encode, externalState_wellFormed, Hwf.
    - split; [apply externalState_contains; auto|].
      split; [apply externalState_contains; auto|].
      apply checkState_same. }
  rewrite (exchangeRun_first state (tokenResult w) (tokenDelay w) t code received rest
             Hamp Heq Hra Hre Hcheck).
  split; [|split; [|split]].
  - intros Hend Hrest. rewrite (exchangeRun_ended _ _ _ _ _ rest Hrest).
    unfold raceTimeout.
    destruct (N.leb_spec loginTimeout (t + tokenDelay w t (Some code)));
      [unfold loginTimeout in *; lia | reflexivity].
  - intros Hend Hrest. rewrite (exchangeRun_ended _ _ _ _ _ rest Hrest).
    unfold raceTimeout.
    destruct (N.leb_spec loginTimeout (t + tokenDelay w t (Some code)));
      [reflexivity | unfold loginTimeout in *; lia].
  - intros t' other rest' err -> _ Hbefore Hdeadline Hbad.
    cbn [exchangeRun finished]. cbv zeta.
    destruct (N.leb_spec (t + tokenDelay w t (Some code)) t'); [lia|].
    rewrite Hbad. unfold raceTimeout.
    destruct (N.leb_spec loginTimeout t');
      [unfold loginTimeout in *; lia | reflexivity].
  - intros t' code' rest' -> Hamp' Heq' _ Hbefore Hrest Hdeadline.
    cbn [exchangeRun finished]. cbv zeta.
    destruct (N.leb_spec (t + tokenDelay w t (Some code)) t'); [lia|].
    destruct (parseQuery_code_state code' received Hamp' Heq' Hra Hre) as [Hc Hs].
    rewrite Hc, Hs, Hcheck. unfold soonest. cbn [fst].
    destruct (N.leb_spec (t + tokenDelay w t (Some code))
                         (t' + tokenDelay w t' (Some code'))) as [Hle|Hlt].
    + rewrite N.min_l in Hrest, Hdeadline by exact Hle.
      rewrite (exchangeRun_ended _ _ _ _ _ rest' Hrest). unfold raceTimeout.
      destruct (N.leb_spec loginTimeout (t + tokenDelay w t (Some code)));
        [unfold loginTimeout in *; lia|].
      split; [reflexivity | lia].
    + rewrite N.min_r in Hrest, Hdeadline by lia.
      rewrite (exchangeRun_ended _ _ _ _ _ rest' Hrest). unfold raceTimeout.
      destruct (N.leb_spec loginTimeout (t' + tokenDelay w t' (Some code')));
        [unfold loginTimeout in *; lia|].
      split; [lia | reflexivity].
Qed.

Lemma web_flow_accepts_its_own_state_witness :
  ((login Samples.clientId Samples.azureCloud false "common" Samples.browser).2
     = ofResult (tokenResult Samples.browser (Some "XYZ")) ∧
   (login Samples.clientId Samples.azureCloud false "common" Samples.browser).2
     = Returned "token") ∧
  (login Samples.clientId Samples.azureCloud false "common" Samples.disturbed).2
    = Thrown (Error "State does not match.").
Proof.
  split.
  - destruct (web_flow_accepts_its_own_state Samples.clientId Samples.azureCloud false
                "common" Samples.browser 1000 "XYZ"
                "user-repo.github.dev%2C443%2Cabc%253D%2C" []
                eq_refl eq_refl eq_refl eq_refl (or_introl eq_refl) eq_refl)
      as (Hgood & _).
    split; exact (Hgood eq_refl (List.Forall_nil _)).
  - destruct (web_flow_accepts_its_own_state Samples.clientId Samples.azureCloud false
                "common" Samples.disturbed 1000 "XYZ"
                "user-repo.github.dev%2C443%2Cabc%253D%2C"
                [(1100%N, "code=ABC&state=other")]
                eq_refl eq_refl eq_refl eq_refl (or_introl eq_refl) eq_refl)
      as (_ & _ & Hbad & _).
    apply (Hbad 1100%N "code=ABC&state=other" []);
      first [reflexivity | discriminate].
Defined.

Lemma checkState_ok_inv (received : option string) (state : string) :
  checkState received state = Ok () →
  received = Some state ∨
  JS.decodeURIComponent (JS.toStringOrUndefined received) = Some state.
Proof.
  unfold checkState. case_bool_decide; [left; assumption|].
  destruct (JS.decodeURIComponent (JS.toStringOrUndefined received)) as [d|];
    [|discriminate].
  destruct (String.eqb_spec d state) as [->|]; [right; reflexivity | discriminate].
Qed.

Lemma externalState_has_comma (callbackUri : Uri) (nonce : string) :
  JS.contains "," (externalState callbackUri nonce) = true.
Proof.
  rewrite externalState_port, !contains_app.
  cbn [JS.contains]. rewrite Ascii.eqb_refl. cbn [orb].
  rewrite !orb_true_r. reflexivity.
Qed.

(** X19. The handler of the variant without a local server asks for a
    token only for a URI whose [state] is the expected one, as it is or
    after one pass of [decodeURIComponent]; and a URI without any [state]
    is always rejected with [State does not match.], because the state the
    flow sends is never the text [undefined]. *)
Theorem web_flow_requires_matching_state
    (state : string) (token : option string → result TokenResponse)
    (uriQuery : string) :
  (∀ t, onUri state token uriQuery = Ok t →
        (prop (parseQuery uriQuery) State = Some state ∨
         JS.decodeURIComponent
           (JS.toStringOrUndefined (prop (parseQuery uriQuery) State)) = Some state) ∧
        token (prop (parseQuery uriQuery) Code) = Ok t) ∧
  (∀ callbackUri nonce,
     prop (parseQuery uriQuery) State = None →
     onUri (externalState callbackUri nonce) token uriQuery
       = Throw (Error "State does not match.")).
Proof.
  split.
  - intros t. unfold onUri.
    destruct (checkState (prop (parseQuery uriQuery) State) state) as [[]|e] eqn:Hc;
      [|discriminate].
    intros Ht. split; [apply checkState_ok_inv, Hc | exact Ht].
  - intros callbackUri nonce Hnone. unfold onUri, checkState. rewrite Hnone.
    rewrite bool_decide_eq_false_2 by discriminate.
    change (JS.decodeURIComponent (JS.toStringOrUndefined None))
      with (Some "undefined").
    cbv beta iota.
    destruct (String.eqb_spec "undefined" (externalState callbackUri nonce))
      as [Heq|]; [|reflexivity].
    pose proof (externalState_has_comma callbackUri nonce) as Hcomma.
    rewrite <- Heq in Hcomma. discriminate Hcomma.
Qed.

Lemma web_flow_requires_matching_state_witness :
  prop (parseQuery "code=XYZ") State = None ∧
  onUri (externalState Samples.codespace "abc=") (λ _, Ok "token") "code=XYZ"
    = Throw (Error "State does not match.").
Proof.
  split; [vm_compute; reflexivity|].
  apply (web_flow_requires_matching_state "" (λ _, Ok "token") "code=XYZ").
  vm_compute. reflexivity.
Defined.

End WebFlowFacts.

(** ** [parseQuery] *)

Section ParseQueryFacts.

Import Flow.

Lemma splitOn_joinPairs (l : list (string * string)) :
  l ≠ [] →
  Forall (λ kv, More.plain kv.1 ∧ More.plain kv.2) l →
  JS.splitOn "&" (More.joinPairs l) = map (λ kv, kv.1 ++ String "=" kv.2) l.
Proof.
  induction l as [|[k v] l IH]; intros Hne Hall; [congruence|].
  inversion Hall as [|? ? [[Hka Hke] [Hva Hve]] Hrest]; subst. cbn [fst snd] in *.
  destruct l as [|kv l].
  - cbn [More.joinPairs map fst snd]. apply splitOn_free.
    rewrite contains_app, Hka. cbn [JS.contains orb]. exact Hva.
  - change (More.joinPairs ((k, v) :: kv :: l))
      with (k ++ String "=" v ++ String "&" (More.joinPairs (kv :: l))).
    change (k ++ String "=" v ++ String "&" (More.joinPairs (kv :: l)))
      with (k ++ (String "=" v) ++ String "&" (More.joinPairs (kv :: l))).
    rewrite <- append_assoc.
    rewrite splitOn_app_sep
      by (rewrite contains_app, Hka; cbn [JS.contains orb]; exact Hva).
    rewrite IH by (first [discriminate | exact Hrest]). reflexivity.
Qed.

Lemma foldl_segments (l : list (string * string)) :
  Forall (λ kv, More.plain kv.1 ∧ More.plain kv.2) l →
  ∀ (acc : gmap string (option string)) k,
    k ≠ "__proto__" →
    mjoin (foldl (λ prev current,
                    let queryString := JS.splitOn "=" current in
                    let key := default "" (queryString !! 0%nat) in
                    if String.eqb key "__proto__" then prev
                    else <[key := queryString !! 1%nat]> prev)
                 acc (map (λ kv, kv.1 ++ String "=" kv.2) l) !! k)
    = match More.lastValue k l with
      | Some v => Some v
      | None => mjoin (acc !! k)
      end.
Proof.
  induction 1 as [|[k' v'] l [[_ Hke] [_ Hve]] _ IH]; intros acc k Hk; [reflexivity|].
  cbn [map foldl fst snd More.lastValue] in *. rewrite (IH _ k Hk).
  destruct (More.lastValue k l) as [v|]; [reflexivity|].
  rewrite (splitOn_app_sep "=" k' v' Hke), (splitOn_free "=" v' Hve).
  cbn [lookup list_lookup default from_option id]. cbv zeta.
  destruct (String.eqb_spec k' k) as [->|Hne].
  - rewrite (eqb_string_false _ _ Hk), lookup_insert_eq. reflexivity.
  - destruct (String.eqb k' "__proto__"); [reflexivity|].
    rewrite lookup_insert_ne by exact Hne. reflexivity.
Qed.

(** No parameter makes an own property [__proto__]. *)
Lemma foldl_no_proto (segments : list string) :
  ∀ acc : gmap string (option string),
    acc !! "__proto__" = None →
    foldl (λ prev current,
             let queryString := JS.splitOn "=" current in
             let key := default "" (queryString !! 0%nat) in
             if String.eqb key "__proto__" then prev
             else <[key := queryString !! 1%nat]> prev)
          acc segments !! "__proto__" = None.
Proof.
  induction segments as [|seg segments IH]; intros acc Hacc; [exact Hacc|].
  cbn [foldl]. apply IH. cbv zeta.
  destruct (String.eqb_spec (default "" (JS.splitOn "=" seg !! 0%nat)) "__proto__")
    as [Heq|Hne]; [exact Hacc|].
  rewrite lookup_insert_ne by exact Hne. exact Hacc.
Qed.

(** X20. [parseQuery] keeps what was written.  The object it returns
    never has an own property [__proto__], whatever the query.  For
    parameters whose keys and values contain neither [&] nor [=], the
    query [k1=v1&k2=v2&...] gives every key other than [__proto__] an own
    property holding the value of its last occurrence, and no own property
    holding a string to a key that does not occur; so [query.code] and
    [query.state] read the last [code] and [state] of the query, and
    [undefined] without one. *)
Theorem parseQuery_reads_back_parameters
    (l : list (string * string)) (k : string) :
  Forall (λ kv, More.plain kv.1 ∧ More.plain kv.2) l →
  (k ≠ "__proto__" →
   mjoin (parseQuery (More.joinPairs l) !! k) = More.lastValue k l) ∧
  (∀ field,
     prop (parseQuery (More.joinPairs l)) field = More.lastValue (fieldName field) l) ∧
  (∀ uriQuery, parseQuery uriQuery !! "__proto__" = None).
Proof.
  intros Hall.
  assert (∀ k, k ≠ "__proto__" →
               mjoin (parseQuery (More.joinPairs l) !! k) = More.lastValue k l)
    as Hown.
  { clear k. intros k Hk. destruct l as [|kv l].
    - cbn. destruct (decide (k = "")) as [->|Hne].
      + rewrite lookup_insert_eq. reflexivity.
      + rewrite lookup_insert_ne by congruence. rewrite lookup_empty. reflexivity.
    - unfold parseQuery.
      rewrite splitOn_joinPairs by (first [discriminate | exact Hall]).
      rewrite (foldl_segments (kv :: l) Hall ∅ k Hk).
      destruct (More.lastValue k (kv :: l)); [reflexivity|].
      rewrite lookup_empty. reflexivity. }
  split; [apply Hown|]. split.
  - intros field. unfold prop. apply Hown. destruct field; discriminate.
  - intros uriQuery. unfold parseQuery. apply foldl_no_proto, lookup_empty.
Qed.

Lemma parseQuery_reads_back_parameters_witness :
  prop (parseQuery (More.joinPairs [("code", "XYZ"); ("state", "s%2C1"); ("code", "ABC")]))
       Code = Some "ABC" ∧
  mjoin (parseQuery (More.joinPairs [("constructor", "x"); ("__proto__", "y")])
           !! "constructor") = Some "x" ∧
  parseQuery (More.joinPairs [("constructor", "x"); ("__proto__", "y")]) !! "__proto__"
    = None.
Proof.
  split; [|split].
  - destruct (parseQuery_reads_back_parameters
                [("code", "XYZ"); ("state", "s%2C1"); ("code", "ABC")] "code")
      as (_ & Hfield & _); [repeat constructor|].
    exact (Hfield Code).
  - destruct (parseQuery_reads_back_parameters
                [("constructor", "x"); ("__proto__", "y")] "constructor")
      as (Hown & _); [repeat constructor|].
    apply Hown. discriminate.
  - destruct (parseQuery_reads_back_parameters [] "") as (_ & _ & Hproto);
      [constructor|].
    apply Hproto.
Defined.

(** X21. [parseQuery] keeps of a value only what stands before its first
    [=], and gives a key that has no [=] at all the value [undefined]: a
    value such as a base64 text with padding must be percent-encoded to
    come through.  This holds of the own property of every key other than
    [__proto__], and so of what [query.state] reads. *)
Theorem parseQuery_cuts_value_at_equals (k v rest : string) :
  More.plain k → More.plain v → JS.contains "&" rest = false →
  k ≠ "__proto__" →
  parseQuery (k ++ String "=" (v ++ String "=" rest)) !! k = Some (Some v) ∧
  parseQuery k !! k = Some None ∧
  (k = "state" →
   prop (parseQuery (k ++ String "=" (v ++ String "=" rest))) State = Some v ∧
   prop (parseQuery k) State = None).
Proof.
  intros [Hka Hke] [Hva Hve] Hrest Hk.
  assert (parseQuery (k ++ String "=" (v ++ String "=" rest)) !! k = Some (Some v))
    as Hcut.
  { unfold parseQuery. rewrite splitOn_free.
    - cbn [foldl].
      rewrite (splitOn_app_sep "=" k _ Hke), (splitOn_app_sep "=" v _ Hve).
      cbn [lookup list_lookup default from_option id]. cbv zeta.
      rewrite (eqb_string_false _ _ Hk), lookup_insert_eq. reflexivity.
    - rewrite contains_app, Hka. cbn [JS.contains orb].
      rewrite contains_app, Hva. cbn [JS.contains orb]. exact Hrest. }
  assert (parseQuery k !! k = Some None) as Hbare.
  { unfold parseQuery. rewrite (splitOn_free "&" k Hka). cbn [foldl].
    rewrite (splitOn_free "=" k Hke).
    cbn [lookup list_lookup default from_option id]. cbv zeta.
    rewrite (eqb_string_false _ _ Hk), lookup_insert_eq. reflexivity. }
  split; [exact Hcut|]. split; [exact Hbare|].
  intros ->. unfold prop, fieldName. rewrite Hcut, Hbare. split; reflexivity.
Qed.

Lemma parseQuery_cuts_value_at_equals_witness :
  parseQuery "state=51234,abc=" !! "state" = Some (Some "51234,abc") ∧
  parseQuery "state" !! "state" = Some None ∧
  prop (parseQuery "state=51234,abc=") State = Some "51234,abc" ∧
  prop (parseQuery "state") State = None.
Proof.
  destruct (parseQuery_cuts_value_at_equals "state" "51234,abc" "")
    as (Hcut & Hbare & Hread);
    [split; reflexivity | split; reflexivity | reflexivity | discriminate |].
  split; [exact Hcut|]. split; [exact Hbare|]. exact (Hread eq_refl).
Defined.

End ParseQueryFacts.

(** ** The token exchange and the probe of the redirect service *)

Section ExchangeFacts.

Import More.

(** X22. [tokenWithAuthorizationCode] rejects with the library's error
    whenever there is one, whatever the response holds, although the code
    goes on to resolve or reject a second time; without such an error it
    rejects with [error: description] for a response that carries an
    error, and resolves with the response otherwise, with [undefined] when
    there is none.  It is settled as soon as the callback has run. *)
Theorem token_exchange_error_comes_first
    (err : option exn) (response : option tokenReply) :
  (∀ e, err = Some e → tokenWithAuthorizationCode err response = Rejected e) ∧
  (∀ r, err = None → response = Some r →
        JS.truthy (default "" (replyError r)) = true →
        tokenWithAuthorizationCode err response
          = Rejected (Error (JS.toStringOrUndefined (replyError r) ++ ": "
                               ++ JS.toStringOrUndefined (replyErrorDescription r)))) ∧
  (∀ r, err = None → response = Some r →
        JS.truthy (default "" (replyError r)) = false →
        tokenWithAuthorizationCode err response = Fulfilled (Some (replyToken r))) ∧
  (err = None → response = None →
   tokenWithAuthorizationCode err response = Fulfilled None) ∧
  settled (tokenWithAuthorizationCode err response) = true.
Proof.
  unfold tokenWithAuthorizationCode, tokenCallback.
  split; [|split; [|split; [|split]]].
  - intros e ->. destruct response as [r|]; [|reflexivity].
    destruct (JS.truthy (default "" (replyError r))); reflexivity.
  - intros r -> -> Hr. rewrite Hr. reflexivity.
  - intros r -> -> Hr. rewrite Hr. reflexivity.
  - intros -> ->. reflexivity.
  - destruct err, response as [r|];
      try destruct (JS.truthy (default "" (replyError r))); reflexivity.
Qed.

Lemma token_exchange_error_comes_first_witness :
  tokenWithAuthorizationCode (Some (Error "network"))
    (Some {| replyError := None; replyErrorDescription := None; replyToken := "token" |})
    = Rejected (Error "network") ∧
  tokenWithAuthorizationCode None
    (Some {| replyError := Some "invalid_grant"; replyErrorDescription := None;
             replyToken := "" |})
    = Rejected (Error "invalid_grant: undefined").
Proof.
  split.
  - apply (token_exchange_error_comes_first (Some (Error "network"))
             (Some {| replyError := None; replyErrorDescription := None;
                      replyToken := "token" |})).
    reflexivity.
  - destruct (token_exchange_error_comes_first None
                (Some {| replyError := Some "invalid_grant";
                         replyErrorDescription := None; replyToken := "" |}))
      as (_ & Hreply & _).
    apply (Hreply {| replyError := Some "invalid_grant";
                     replyErrorDescription := None; replyToken := "" |});
      reflexivity.
Defined.

Local Open Scope N_scope.

Lemma probeHandle_settled (ev : probeEvent) (b : bool) :
  probeHandle ev {| answer := Fulfilled b; probeTimer := None |}
    = {| answer := Fulfilled b; probeTimer := None |}.
Proof. destruct ev; reflexivity. Qed.

Lemma probeRun_settled (evs : list (N * probeEvent)) (b : bool) :
  probeRun evs {| answer := Fulfilled b; probeTimer := None |}
    = {| answer := Fulfilled b; probeTimer := None |}.
Proof.
  induction evs as [|[t ev] evs IH]; [reflexivity|].
  cbn [probeRun]. unfold probeAdvance at 1. cbn [probeTimer].
  rewrite probeHandle_settled. exact IH.
Qed.

Lemma probeRun_first (t due : N) (ev : probeEvent) (evs : list (N * probeEvent)) :
  probeRun ((t, ev) :: evs) {| answer := Pending; probeTimer := Some due |}
    = {| answer := Fulfilled
                     (if due <=? t then false
                      else match ev with
                           | Response r => redirects r
                           | _ => false
                           end);
         probeTimer := None |}.
Proof.
  cbn [probeRun]. unfold probeAdvance. cbn [probeTimer].
  destruct (due <=? t).
  - cbn [resolve answer]. rewrite probeHandle_settled. apply probeRun_settled.
  - destruct ev; unfold probeHandle, cancelTimer;
      cbn [resolve answer settled probeTimer]; apply probeRun_settled.
Qed.

Lemma find_first {A} (f : A → bool) (before after : list A) (x : A) :
  Forall (λ y, f y = false) before → f x = true →
  List.find f (before ++ x :: after) = Some x.
Proof.
  induction 1 as [|y before Hy _ IH]; intros Hx; cbn [app List.find].
  - rewrite Hx. reflexivity.
  - rewrite Hy. exact (IH Hx).
Qed.

(** The answer to a response, read off its first [Location] header. *)
Lemma redirects_location (r : reply) (name : string) (value : headerValue)
    (before after : list (string * headerValue)) :
  headers r = (before ++ (name, value) :: after)%list →
  toLowerCase name = "location" →
  Forall (λ kv, toLowerCase kv.1 ≠ "location") before →
  redirects r = (statusCode r =? 302) &&
                match value with
                | HStr location => String.prefix "http://127.0.0.1:3333/callback" location
                | HArr _ => false
                end.
Proof.
  intros Hh Hname Hbefore. unfold redirects, locationKey, header. rewrite Hh.
  rewrite (find_first _ before after (name, value)).
  - cbn [fmap option_fmap option_map fst].
    assert (JS.truthy name = true) as -> by (destruct name; [discriminate Hname | reflexivity]).
    rewrite (find_first _ before after (name, value)).
    + cbn [fmap option_fmap option_map snd]. destruct value; reflexivity.
    + eapply Forall_impl; [exact Hbefore|]. intros [k v] Hk. cbn [fst] in *.
      apply String.eqb_neq. intros ->. exact (Hk Hname).
    + cbn [fst]. apply String.eqb_refl.
  - eapply Forall_impl; [exact Hbefore|]. intros [k v] Hk. cbn [fst] in *.
    apply String.eqb_neq. exact Hk.
  - cbn [fst]. rewrite Hname. reflexivity.
Qed.

(** X23. [checkRedirectServer] never rejects and never stays pending: it
    answers [true] at once for the alternate service, and otherwise what
    the first event of the request says, provided it comes within five
    seconds.  A response says [true] only with status 302 and a first
    [Location] header, whatever the case of its name, that is one string
    starting with [http://127.0.0.1:3333/callback]; an error, a close, the
    timeout and every other response give [false], among them a response
    whose first [Location] header holds several values and a response
    without such a header. *)
Theorem checkRedirectServer_answer
    (adfs : bool) (now : N) (evs : list (N * probeEvent)) :
  checkRedirectServer adfs now evs =
    Fulfilled
      (adfs ||
       match evs with
       | (t, Response r) :: _ => (t <? now + 5000) && redirects r
       | _ => false
       end) ∧
  (∀ r name value before after,
     headers r = (before ++ (name, value) :: after)%list →
     toLowerCase name = "location" →
     Forall (λ kv, toLowerCase kv.1 ≠ "location") before →
     redirects r = (statusCode r =? 302) &&
                   match value with
                   | HStr location =>
                       String.prefix "http://127.0.0.1:3333/callback" location
                   | HArr _ => false
                   end) ∧
  (∀ r, Forall (λ kv, toLowerCase kv.1 ≠ "location") (headers r) →
        redirects r = false).
Proof.
  split; [|split].
  - unfold checkRedirectServer. destruct adfs; [reflexivity|]. cbn [orb].
    destruct evs as [|[t ev] evs]; [cbn; rewrite N.leb_refl; reflexivity|].
    rewrite probeRun_first. cbn [probeTimer answer]. f_equal.
    destruct (N.leb_spec (now + 5000) t), (N.ltb_spec t (now + 5000)); try lia;
      destruct ev; reflexivity.
  - apply redirects_location.
  - intros r Hnone. unfold redirects, locationKey.
    assert (List.find (λ kv, String.eqb (toLowerCase kv.1) "location") (headers r)
            = None) as ->; [|apply andb_false_r].
    induction Hnone as [|[k v] l Hk _ IH]; [reflexivity|].
    cbn [List.find fst] in *. apply String.eqb_neq in Hk. rewrite Hk. exact IH.
Qed.

Lemma checkRedirectServer_answer_witness :
  checkRedirectServer false 0
    [(120, Response {| statusCode := 302;
                       headers := [("content-length", HStr "0");
                                   ("Location", HStr "http://127.0.0.1:3333/callback?x=1")] |});
     (130, ProbeClose)]
    = Fulfilled true ∧
  checkRedirectServer false 0
    [(120, Response {| statusCode := 302;
                       headers := [("content-length", HStr "0");
                                   ("Location",
                                    HArr ["http://127.0.0.1:3333/callback?x=1";
                                          "http://127.0.0.1:3333/callback?x=2"])] |})]
    = Fulfilled false.
Proof.
  split.
  - destruct (checkRedirectServer_answer false 0
                [(120, Response {| statusCode := 302;
                                   headers := [("content-length", HStr "0");
                                               ("Location",
                                                HStr "http://127.0.0.1:3333/callback?x=1")] |});
                 (130, ProbeClose)]) as (Hanswer & Hfirst & _).
    rewrite Hanswer.
    rewrite (Hfirst {| statusCode := 302;
                       headers := [("content-length", HStr "0");
                                   ("Location",
                                    HStr "http://127.0.0.1:3333/callback?x=1")] |}
               "Location" (HStr "http://127.0.0.1:3333/callback?x=1")
               [("content-length", HStr "0")] [] eq_refl eq_refl);
      [reflexivity|].
    repeat constructor. discriminate.
  - destruct (checkRedirectServer_answer false 0
                [(120, Response {| statusCode := 302;
                                   headers := [("content-length", HStr "0");
                                               ("Location",
                                                HArr ["http://127.0.0.1:3333/callback?x=1";
                                                      "http://127.0.0.1:3333/callback?x=2"])] |})])
      as (Hanswer & Hfirst & _).
    rewrite Hanswer.
    rewrite (Hfirst {| statusCode := 302;
                       headers := [("content-length", HStr "0");
                                   ("Location",
                                    HArr ["http://127.0.0.1:3333/callback?x=1";
                                          "http://127.0.0.1:3333/callback?x=2"])] |}
               "Location" (HArr ["http://127.0.0.1:3333/callback?x=1";
                                 "http://127.0.0.1:3333/callback?x=2"])
               [("content-length", HStr "0")] [] eq_refl eq_refl);
      [reflexivity|].
    repeat constructor. discriminate.
Defined.

End ExchangeFacts.

(** ** Ports and environment tags *)

Section PortText.

Import Flow.

Local Open Scope N_scope.

Lemma pretty_N_char_value (d : N) :
  d < 10 → N_of_ascii (pretty_N_char d) - 48 = d.
Proof.
  intros Hd. unfold pretty_N_char.
  repeat case_match; subst; try reflexivity; cbn in *; lia.
Qed.

Lemma decimal_fold_go (x : N) :
  ∀ s, fold_left (λ acc c, 10 * acc + (N_of_ascii c - 48))
         (list_ascii_of_string (pretty_N_go x s)) 0
       = fold_left (λ acc c, 10 * acc + (N_of_ascii c - 48))
           (list_ascii_of_string s) x.
Proof.
  induction (N.lt_wf_0 x) as [x _ IH]. intros s.
  destruct (decide (x = 0)) as [->|Hx]; [rewrite pretty_N_go_0; reflexivity|].
  rewrite pretty_N_go_step by lia.
  rewrite IH by (apply N.div_lt; lia).
  cbn [list_ascii_of_string fold_left].
  rewrite pretty_N_char_value by (apply N.mod_lt; lia).
  f_equal. rewrite (N.div_mod x 10) at 3 by lia. reflexivity.
Qed.

(** Reading a written number gives the number. *)
Lemma decimalValue_pretty (n : N) : decimalValue (pretty n) = n.
Proof.
  unfold decimalValue, pretty, pretty_N. case_decide as Hn; [subst; reflexivity|].
  rewrite decimal_fold_go. reflexivity.
Qed.

Lemma pretty_truthy (n : N) : JS.truthy (pretty n) = true.
Proof.
  destruct (pretty n) as [|c s] eqn:Hp; [|reflexivity].
  pose proof (decimalValue_pretty n) as Hv. rewrite Hp in Hv. cbn in Hv. subst n.
  discriminate Hp.
Qed.

(** X24. The port the browser actually used is the port of the state:
    for a [Host] header [host:port] with the port written in decimal,
    [login] rebuilds the state with exactly that port, whatever port the
    server was bound to. *)
Theorem host_port_goes_into_state (hostname nonce : string) (n port : N) :
  JS.truthy hostname = true →
  JS.contains ":" hostname = false →
  n <= maxSafeInteger →
  updatedPort (Some (hostname ++ String ":" (pretty n))) port = Some n ∧
  (λ p, loopbackState p nonce)
    <$> updatedPort (Some (hostname ++ String ":" (pretty n))) port
    = Some (pretty n ++ "," ++ JS.encodeURIComponent nonce).
Proof.
  intros Hh Hcolon Hsafe.
  assert (updatedPort (Some (hostname ++ String ":" (pretty n))) port = Some n) as Hp.
  { rewrite updatedPort_header.
    rewrite (hostPortGroup_accepts false hostname (pretty n));
      [| rewrite Hh; reflexivity | exact Hcolon | apply pretty_truthy
       | apply pretty_digits].
    rewrite pretty_truthy. unfold parseInt10. rewrite decimalValue_pretty.
    apply N.leb_le in Hsafe. rewrite Hsafe. reflexivity. }
  split; [exact Hp|]. rewrite Hp. reflexivity.
Qed.

Lemma host_port_goes_into_state_witness :
  updatedPort (Some ("localhost" ++ String ":" (pretty 60000))) 51234 = Some 60000.
Proof.
  apply (host_port_goes_into_state "localhost" "abc=" 60000 51234);
    first [reflexivity | vm_compute; discriminate].
Defined.

Local Close Scope N_scope.

Lemma length_app_string (a b : string) :
  String.length (a ++ b) = (String.length a + String.length b)%nat.
Proof.
  induction a as [|c a IH]; [reflexivity|].
  change (String c a ++ b) with (String c (a ++ b)).
  cbn [String.length]. rewrite IH. reflexivity.
Qed.

Lemma substring_all (s : string) : substring 0 (String.length s) s = s.
Proof. induction s as [|c s IH]; [reflexivity|]. cbn. rewrite IH. reflexivity. Qed.

Lemma substring_suffix (a b : string) :
  substring (String.length a) (String.length b) (a ++ b) = b.
Proof.
  induction a as [|c a IH]; [apply substring_all|].
  change (String c a ++ b) with (String c (a ++ b)). cbn. exact IH.
Qed.

Lemma substring_split (s : string) :
  ∀ i, (i <= String.length s)%nat →
       s = substring 0 i s ++ substring i (String.length s - i) s.
Proof.
  induction s as [|c s IH]; intros i Hi.
  - cbn in Hi. assert (i = 0)%nat as -> by lia. reflexivity.
  - destruct i as [|i].
    + cbn [substring]. change ("" ++ ?x) with x. cbn [String.length Nat.sub].
      rewrite substring_all. reflexivity.
    + cbn [String.length] in Hi. cbn [substring String.length Nat.sub].
      change (String c ?a ++ ?b) with (String c (a ++ b)).
      rewrite <- IH by lia. reflexivity.
Qed.

(** [endsWith] holds exactly for the strings that end with the suffix. *)
Lemma endsWith_iff (s suffix : string) :
  endsWith s suffix = true ↔ ∃ before, s = before ++ suffix.
Proof.
  unfold endsWith. split.
  - intros H. apply andb_prop in H as [Hle Heq].
    apply Nat.leb_le in Hle. apply String.eqb_eq in Heq.
    exists (substring 0 (String.length s - String.length suffix) s).
    rewrite <- Heq at 2.
    rewrite (substring_split s (String.length s - String.length suffix)) at 1 by lia.
    do 2 f_equal. lia.
  - intros [before ->]. rewrite length_app_string.
    replace (String.length before + String.length suffix - String.length suffix)%nat
      with (String.length before) by lia.
    rewrite substring_suffix, String.eqb_refl.
    destruct (Nat.leb_spec (String.length suffix)
                (String.length before + String.length suffix)); [reflexivity | lia].
Qed.

(** X25. The environment tag is the authority itself, followed by a
    comma, exactly for the authorities that end in
    [.workspaces.github.com] or [.github.dev]; an authority that merely
    contains one of them elsewhere gets no such tag. *)
Theorem environment_tag_goes_by_suffix (callbackUri : Uri) :
  getCallbackEnvironment callbackUri = authority callbackUri ++ "," ↔
  ∃ before,
    authority callbackUri = before ++ ".workspaces.github.com" ∨
    authority callbackUri = before ++ ".github.dev".
Proof.
  unfold getCallbackEnvironment.
  destruct (endsWith (authority callbackUri) ".workspaces.github.com") eqn:H1.
  - cbn [orb]. split; [intros _|reflexivity].
    apply endsWith_iff in H1 as [before H]. exists before. left. exact H.
  - destruct (endsWith (authority callbackUri) ".github.dev") eqn:H2; cbn [orb].
    + split; [intros _|reflexivity].
      apply endsWith_iff in H2 as [before H]. exists before. right. exact H.
    + split.
      * repeat match goal with
               | |- context [String.eqb ?a ?b] =>
                   destruct (String.eqb_spec a b) as [->|]
               end; intros H; try discriminate H.
        destruct (authority callbackUri); discriminate H.
      * intros [before [H|H]].
        -- assert (endsWith (authority callbackUri) ".workspaces.github.com" = true)
             as Ht by (apply endsWith_iff; eauto).
           congruence.
        -- assert (endsWith (authority callbackUri) ".github.dev" = true)
             as Ht by (apply endsWith_iff; eauto).
           congruence.
Qed.

End PortText.

(** ** The added parts, run on concrete inputs *)

Section MoreScenarios.

Import More.

(** The standard examples of base64: the octets of [Man], [Ma], [M]. *)
Example base64_examples :
  base64 [Byte.x4d; Byte.x61; Byte.x6e] = "TWFu" ∧
  base64 [Byte.x4d; Byte.x61] = "TWE=" ∧
  base64 [Byte.x4d] = "TQ==" ∧
  base64 [Byte.xff; Byte.xfe; Byte.xfd; Byte.x00] = "//79AA==".
Proof. repeat split; vm_compute; reflexivity. Qed.

(** A nonce of sixteen octets and what the sign-in URL makes of it. *)
Example nonce_example :
  makeNonce (repeat Byte.xfb 16) = "+/v7+/v7+/v7+/v7+/v7+w==" ∧
  JS.encodeURIComponent (makeNonce (repeat Byte.xfb 16))
    = "%2B%2Fv7%2B%2Fv7%2B%2Fv7%2B%2Fv7%2B%2Fv7%2Bw%3D%3D".
Proof. split; vm_compute; reflexivity. Qed.

(** The redirect service answering with another target. *)
Example probe_wrong_target :
  checkRedirectServer false 0
    [(120%N, Response {| statusCode := 302;
                         headers := [("location", HStr "https://example.test/")] |})]
    = Fulfilled false.
Proof. vm_compute. reflexivity. Qed.

End MoreScenarios.
